(** * Fuel Theft Monitor: a shallow embedding of the detection engine

    The development follows the three JavaScript modules of the add-in:
    [AlertManager] (alert sink and deduplication gate), [FuelMonitor]
    (history windows, drop detector, stationary check, severity
    classifier, continuous poller, historical batch analyser) and [Main]
    (the settings dialog that validates and forwards configuration
    updates).

    Modelling conventions.
    - JavaScript numbers that carry measurements (fuel levels, drop
      percentages, durations in minutes, progress percentages) are
      binary64 values [F64.t], computed with the operations of IEEE 754
      as the Standard Library specifies them ([SpecFloat], precision 53,
      round to nearest even).  A number that cannot be [NaN] (a number
      read from JSON, a fuel level) has type [F64.num].
    - Instants ([Date] values, [Date.now()]) are integers [Z], the number
      of milliseconds since the epoch.  Configuration values are the
      integers that [parseInt] and the built-in defaults produce.
    - Module-level mutable variables are fields of one [World] record that
      is threaded through a small state monad.
    - The wall clock and the Geotab API are an environment [Env]: the
      k-th read of the clock returns [clock k]; an API call either
      rejects with an error, resolves to [null], or resolves to rows.
    - DOM rendering, sounds and browser notifications are outside the
      engine and are not modelled. *)

From stdpp Require Import gmap strings list fin_maps pretty.
From Stdlib Require Import SpecFloat Sorted.

Open Scope Z_scope.

(** ** Binary64 numbers *)

Module F64.

Definition prec : Z := 53.
Definition emax : Z := 1024.

(** A JavaScript number. *)
Definition t : Type := spec_float.

Definition add (x y : t) : t := SFadd prec emax x y.
Definition sub (x y : t) : t := SFsub prec emax x y.
Definition mul (x y : t) : t := SFmul prec emax x y.
Definition div (x y : t) : t := SFdiv prec emax x y.

(** The number nearest to an integer. *)
Definition of_Z (z : Z) : t := binary_normalize prec emax z 0 false.

(** [x < y], [x <= y] and [x === y]: all three are false when an operand
    is [NaN]. *)
Definition ltb (x y : t) : bool := SFltb x y.
Definition leb (x y : t) : bool := SFleb x y.
Definition eqb (x y : t) : bool := SFeqb x y.

Definition lt (x y : t) : Prop := ltb x y = true.
Definition le (x y : t) : Prop := leb x y = true.

#[global] Instance lt_dec (x y : t) : Decision (lt x y).
Proof. unfold lt. apply _. Defined.

#[global] Instance le_dec (x y : t) : Decision (le x y).
Proof. unfold le. apply _. Defined.

#[global] Instance t_eq_dec : EqDecision t.
Proof. solve_decision. Defined.

(** A number that is not [NaN]. *)
Inductive num : Type :=
| Zero (s : bool)
| Infinity (s : bool)
| Finite (s : bool) (m : positive) (e : Z).

#[global] Instance num_eq_dec : EqDecision num.
Proof. solve_decision. Defined.

Definition val (x : num) : t :=
  match x with
  | Zero s => S754_zero s
  | Infinity s => S754_infinity s
  | Finite s m e => S754_finite s m e
  end.

(** A number known not to be [NaN], as a [num]. *)
Definition as_num (x : t) : num :=
  match x with
  | S754_zero s => Zero s
  | S754_infinity s => Infinity s
  | S754_finite s m e => Finite s m e
  | S754_nan => Zero false
  end.

End F64.

Arguments F64.add : simpl never.
Arguments F64.sub : simpl never.
Arguments F64.mul : simpl never.
Arguments F64.div : simpl never.
Arguments F64.of_Z : simpl never.
Arguments F64.ltb : simpl never.
Arguments F64.leb : simpl never.
Arguments F64.eqb : simpl never.

Coercion F64.val : F64.num >-> F64.t.

Declare Scope f64_scope.
Delimit Scope f64_scope with F.
Notation "x < y" := (F64.lt x y) : f64_scope.
Notation "x <= y" := (F64.le x y) : f64_scope.
Notation "x + y" := (F64.add x y) : f64_scope.
Notation "x - y" := (F64.sub x y) : f64_scope.
Notation "x * y" := (F64.mul x y) : f64_scope.
Notation "x / y" := (F64.div x y) : f64_scope.

(** ** JavaScript primitives used by the engine *)

Module JS.

(** An integer as a JavaScript number. *)
Definition of_Z (z : Z) : F64.t := F64.of_Z z.

(** [Math.round]: the nearest integral number, halves rounded towards
    plus infinity; an integral number, an infinity and [NaN] are returned
    as they are, and a result of zero keeps the sign of the argument. *)
Definition Math_round (x : F64.t) : F64.t :=
  match x with
  | S754_finite s m e =>
      if 0 <=? e then x else
      let half := Z.shiftl 1 (- e - 1) in
      let n := ((if s then Z.neg m else Z.pos m) + half) / (2 * half) in
      if n =? 0 then S754_zero s else F64.of_Z n
  | _ => x
  end.

(** [hay.includes(needle)]: case-sensitive substring test. *)
Fixpoint includes (needle hay : string) : bool :=
  String.prefix needle hay ||
  match hay with
  | EmptyString => false
  | String _ rest => includes needle rest
  end.

(** Truthiness of a string and of a number. *)
Definition truthy_string (s : string) : bool :=
  match s with EmptyString => false | _ => true end.

Definition truthy_Z (z : Z) : bool := negb (z =? 0).

End JS.

Arguments JS.of_Z : simpl never.
Arguments JS.Math_round : simpl never.

(** ** Data model *)

(** A fuel reading as kept in a history window: [{timestamp, level}]. *)
Module Reading.
Record t := mk { timestamp : Z; level : F64.num }.
End Reading.

(** The engine configuration object. *)
Module Config.
Record t := mk {
  dropThreshold : Z;
  timeWindowMinutes : Z;
  pollIntervalSeconds : Z
}.

Definition default : t :=
  {| dropThreshold := 10; timeWindowMinutes := 30; pollIntervalSeconds := 30 |}.
End Config.

(** The object returned by [detectSuspiciousDrop]. *)
Module Detection.
Record t := mk {
  dropPercent : F64.t;
  previousLevel : F64.t;
  currentLevel : F64.t;
  durationMinutes : F64.t;
  previousTimestamp : Z
}.
End Detection.

(** ** The pure core of [FuelMonitor] *)

Module DropDetector.

(** The callback of [recentReadings.reduce]: the running maximum is
    replaced only when the next reading is strictly higher. *)
Definition higher (max r : Reading.t) : Reading.t :=
  if bool_decide (Reading.level max < Reading.level r)%F then r else max.

Definition in_window (windowStart : Z) (currentPoint h : Reading.t) : Prop :=
  windowStart <= Reading.timestamp h /\
  Reading.timestamp h < Reading.timestamp currentPoint.

#[global] Instance in_window_dec ws cp h : Decision (in_window ws cp h).
Proof. unfold in_window. apply _. Defined.

Definition detectSuspiciousDrop (config : Config.t)
    (history : list Reading.t) (currentPoint : Reading.t) : option Detection.t :=
  if bool_decide (length history = 0%nat) then None else
  let windowStart :=
    Reading.timestamp currentPoint - Config.timeWindowMinutes config * 60 * 1000 in
  let recentReadings := filter (in_window windowStart currentPoint) history in
  match recentReadings with
  | [] => None
  | first :: _ =>
      let maxReading := fold_left higher recentReadings first in
      let dropPercent := (Reading.level maxReading - Reading.level currentPoint)%F in
      let durationMinutes :=
        (JS.of_Z (Reading.timestamp currentPoint - Reading.timestamp maxReading)
         / JS.of_Z (1000 * 60))%F in
      if bool_decide (JS.of_Z (Config.dropThreshold config) <= dropPercent)%F
         && bool_decide (durationMinutes <= JS.of_Z (Config.timeWindowMinutes config))%F
      then Some {| Detection.dropPercent := dropPercent;
                   Detection.previousLevel := Reading.level maxReading;
                   Detection.currentLevel := Reading.level currentPoint;
                   Detection.durationMinutes := durationMinutes;
                   Detection.previousTimestamp := Reading.timestamp maxReading |}
      else None
  end.

(** The reference algorithm, written from the specification: the peak is
    the first reading of the window that no reading of the window
    exceeds. *)
Definition dominates (recent : list Reading.t) (p : Reading.t) : Prop :=
  Forall (fun r => (Reading.level r <= Reading.level p)%F) recent.

#[global] Instance dominates_dec recent p : Decision (dominates recent p).
Proof. unfold dominates. apply _. Defined.

Definition first_seen_max (recent : list Reading.t) : option Reading.t :=
  list_find (dominates recent) recent ≫= (fun ip => Some ip.2).

Definition detect_reference (dropThresholdPercent timeWindowMinutes : Z)
    (window : list Reading.t) (candidate : Reading.t) : option Detection.t :=
  let recent :=
    filter (fun r =>
              Reading.timestamp candidate - timeWindowMinutes * 60000
                <= Reading.timestamp r
              /\ Reading.timestamp r < Reading.timestamp candidate) window in
  match first_seen_max recent with
  | None => None
  | Some peak =>
      let dropPercent := (Reading.level peak - Reading.level candidate)%F in
      let durationMinutes :=
        (JS.of_Z (Reading.timestamp candidate - Reading.timestamp peak)
         / JS.of_Z 60000)%F in
      if decide ((JS.of_Z dropThresholdPercent <= dropPercent)%F
                 /\ (durationMinutes <= JS.of_Z timeWindowMinutes)%F)
      then Some {| Detection.dropPercent := dropPercent;
                   Detection.previousLevel := Reading.level peak;
                   Detection.currentLevel := Reading.level candidate;
                   Detection.durationMinutes := durationMinutes;
                   Detection.previousTimestamp := Reading.timestamp peak |}
      else None
  end.

End DropDetector.

Module SeverityClassifier.

Definition determineSeverity (dropPercent durationMinutes : F64.t) : string :=
  if bool_decide (JS.of_Z 25 < dropPercent)%F
     && bool_decide (durationMinutes < JS.of_Z 10)%F
  then "critical"
  else if bool_decide (JS.of_Z 15 < dropPercent)%F
          && bool_decide (durationMinutes < JS.of_Z 20)%F
  then "high"
  else "medium".

(** The classifier as the specification words it: an ordered table of
    (predicate, tier) rules, first match wins, [medium] otherwise. *)
Definition rule : Type := (F64.t -> F64.t -> bool) * string.

Definition rules : list rule :=
  [ (fun d m => bool_decide (JS.of_Z 25 < d)%F && bool_decide (m < JS.of_Z 10)%F,
     "critical");
    (fun d m => bool_decide (JS.of_Z 15 < d)%F && bool_decide (m < JS.of_Z 20)%F,
     "high") ]%string.

Fixpoint first_match (rs : list rule) (d m : F64.t) : string :=
  match rs with
  | [] => "medium"
  | (p, tier) :: rest => if p d m then tier else first_match rest d m
  end.

End SeverityClassifier.

(** ** Values exchanged with the collaborators *)

(** A thrown or rejected error; [message] may be missing. *)
Module Error.
Record t := mk { message : option string }.
End Error.

(** The outcome of an [api.call('Get', ...)] promise. *)
Inductive Response (A : Type) : Type :=
| Rejects (e : Error.t)
| Null
| Rows (rows : list A).
Arguments Rejects {A} e.
Arguments Null {A}.
Arguments Rows {A} rows.

(** A [StatusData] entry: [{device: {id}, dateTime, data}]. *)
Module StatusData.
Record t := mk { device_id : string; dateTime : Z; data : F64.num }.
End StatusData.

Module Device.
Record t := mk { id : string; name : string; serialNumber : string }.
End Device.

Module Trip.
Record t := mk { start : Z; stop : Z }.
End Trip.

(** The [GetFeed] request and its result. *)
Module FeedCall.
Record t := mk {
  typeName : string;
  diagnosticSearch_id : string;
  resultsLimit : Z;
  fromVersion : option string
}.
End FeedCall.

Module FeedResult.
Record t := mk { toVersion : option string; data : option (list StatusData.t) }.
End FeedResult.

Inductive FeedResponse : Type :=
| FeedRejects (e : Error.t)
| FeedResolves (r : FeedResult.t).

(** What the engine hands to [AlertManager.addAlert]; the last three
    properties are optional. *)
Module AlertData.
Record t := mk {
  vehicleId : string;
  vehicleName : string;
  severity : string;
  fuelDrop : F64.t;
  previousLevel : F64.t;
  currentLevel : F64.t;
  duration : F64.t;
  location : option string;
  timestamp : option Z;
  isHistorical : option bool
}.
End AlertData.

(** The alert record built and stored by [addAlert]. *)
Module Alert.
Record t := mk {
  id : Z;
  vehicleId : string;
  vehicleName : string;
  severity : string;
  fuelDrop : F64.t;
  previousLevel : F64.t;
  currentLevel : F64.t;
  duration : F64.t;
  timestamp : Z;
  location : string
}.
End Alert.

(** The partial object passed to [updateConfig]. *)
Module NewConfig.
Record t := mk {
  dropThreshold : option Z;
  timeWindowMinutes : option Z;
  pollIntervalSeconds : option Z
}.
End NewConfig.

(** ** The world: module variables and browser state *)

(** A request sent to the Geotab API (kept in a network log). *)
Inductive Request : Type :=
| ReqDevice (fromDate : Z)
| ReqStatusData (deviceId diagnostic : string) (fromDate toDate : Z)
| ReqTrip (deviceId : string) (fromDate toDate : Z)
| ReqFeed (call : FeedCall.t).

(** A value kept in [localStorage] (the JSON text is not modelled). *)
Inductive Stored : Type :=
| StoredConfig (c : Config.t)
| StoredSettings (soundEnabled browserNotifications : bool)
| StoredAlerts (l : list Alert.t).

(** Variables of the [AlertManager] closure. *)
Record AlertManagerState := mkAM {
  alerts : list Alert.t;
  alertIdCounter : Z;
  recentAlerts : gmap string Z
}.

(** Variables of the [FuelMonitor] closure.  [vehicleCache] is a [Map]
    whose iteration order is insertion order; [pollInterval] is the handle
    returned by [setInterval]. *)
Record FuelMonitorState := mkFM {
  isMonitoring : bool;
  pollInterval : option nat;
  feedToken : option string;
  vehicleCache : list Device.t;
  fuelHistory : gmap string (list Reading.t);
  config : Config.t
}.

(** The browser: storage, timers, dialogs, the number of clock reads so
    far, the network log, and the invocations seen by a recording progress
    callback. *)
Record Browser := mkBrowser {
  localStorage : gmap string Stored;
  intervals : gmap nat Z;
  nextInterval : nat;
  dialogs : list string;
  settingsModalActive : bool;
  clockReads : nat;
  network : list Request;
  progressSeen : list (string * F64.t)
}.

Record World := mkWorld {
  am : AlertManagerState;
  fm : FuelMonitorState;
  browser : Browser
}.

(** The environment: the wall clock and the API, both indexed by how many
    reads or calls came before. *)
Record Env := mkEnv {
  clock : nat -> Z;
  Get_Device : nat -> Z -> Response Device.t;
  Get_StatusData : nat -> string -> string -> Z -> Z -> Response StatusData.t;
  Get_Trip : nat -> string -> Z -> Z -> Response Trip.t;
  GetFeed : nat -> FeedCall.t -> FeedResponse
}.

(** *** Field updates *)

Definition with_am (f : AlertManagerState -> AlertManagerState) (w : World) : World :=
  {| am := f (am w); fm := fm w; browser := browser w |}.
Definition with_fm (f : FuelMonitorState -> FuelMonitorState) (w : World) : World :=
  {| am := am w; fm := f (fm w); browser := browser w |}.
Definition with_browser (f : Browser -> Browser) (w : World) : World :=
  {| am := am w; fm := fm w; browser := f (browser w) |}.

Definition set_feedToken (t : option string) (s : FuelMonitorState) : FuelMonitorState :=
  {| isMonitoring := isMonitoring s; pollInterval := pollInterval s; feedToken := t;
     vehicleCache := vehicleCache s; fuelHistory := fuelHistory s; config := config s |}.
Definition set_pollInterval (h : option nat) (s : FuelMonitorState) : FuelMonitorState :=
  {| isMonitoring := isMonitoring s; pollInterval := h; feedToken := feedToken s;
     vehicleCache := vehicleCache s; fuelHistory := fuelHistory s; config := config s |}.
Definition set_vehicleCache (c : list Device.t) (s : FuelMonitorState) : FuelMonitorState :=
  {| isMonitoring := isMonitoring s; pollInterval := pollInterval s; feedToken := feedToken s;
     vehicleCache := c; fuelHistory := fuelHistory s; config := config s |}.
Definition set_fuelHistory (h : gmap string (list Reading.t)) (s : FuelMonitorState)
  : FuelMonitorState :=
  {| isMonitoring := isMonitoring s; pollInterval := pollInterval s; feedToken := feedToken s;
     vehicleCache := vehicleCache s; fuelHistory := h; config := config s |}.
Definition set_config (c : Config.t) (s : FuelMonitorState) : FuelMonitorState :=
  {| isMonitoring := isMonitoring s; pollInterval := pollInterval s; feedToken := feedToken s;
     vehicleCache := vehicleCache s; fuelHistory := fuelHistory s; config := c |}.

Definition set_localStorage (m : gmap string Stored) (b : Browser) : Browser :=
  {| localStorage := m; intervals := intervals b; nextInterval := nextInterval b;
     dialogs := dialogs b; settingsModalActive := settingsModalActive b;
     clockReads := clockReads b; network := network b; progressSeen := progressSeen b |}.
Definition set_intervals (m : gmap nat Z) (n : nat) (b : Browser) : Browser :=
  {| localStorage := localStorage b; intervals := m; nextInterval := n;
     dialogs := dialogs b; settingsModalActive := settingsModalActive b;
     clockReads := clockReads b; network := network b; progressSeen := progressSeen b |}.
Definition set_dialogs (l : list string) (b : Browser) : Browser :=
  {| localStorage := localStorage b; intervals := intervals b; nextInterval := nextInterval b;
     dialogs := l; settingsModalActive := settingsModalActive b;
     clockReads := clockReads b; network := network b; progressSeen := progressSeen b |}.
Definition set_settingsModalActive (a : bool) (b : Browser) : Browser :=
  {| localStorage := localStorage b; intervals := intervals b; nextInterval := nextInterval b;
     dialogs := dialogs b; settingsModalActive := a;
     clockReads := clockReads b; network := network b; progressSeen := progressSeen b |}.
Definition set_clockReads (n : nat) (b : Browser) : Browser :=
  {| localStorage := localStorage b; intervals := intervals b; nextInterval := nextInterval b;
     dialogs := dialogs b; settingsModalActive := settingsModalActive b;
     clockReads := n; network := network b; progressSeen := progressSeen b |}.
Definition set_network (l : list Request) (b : Browser) : Browser :=
  {| localStorage := localStorage b; intervals := intervals b; nextInterval := nextInterval b;
     dialogs := dialogs b; settingsModalActive := settingsModalActive b;
     clockReads := clockReads b; network := l; progressSeen := progressSeen b |}.
Definition set_progressSeen (l : list (string * F64.t)) (b : Browser) : Browser :=
  {| localStorage := localStorage b; intervals := intervals b; nextInterval := nextInterval b;
     dialogs := dialogs b; settingsModalActive := settingsModalActive b;
     clockReads := clockReads b; network := network b; progressSeen := l |}.

(** ** A state-and-exception monad for the asynchronous code

    An [await] is a sequencing point; a rejected promise is a thrown
    error.  State changes made before a throw persist. *)

Inductive Result (A : Type) : Type :=
| Ok (a : A)
| Throw (e : Error.t).
Arguments Ok {A} a.
Arguments Throw {A} e.

Definition M (A : Type) : Type := World -> Result A * World.

Definition ret {A} (a : A) : M A := fun w => (Ok a, w).

Definition bind {A B} (m : M A) (k : A -> M B) : M B :=
  fun w => match m w with
           | (Ok a, w') => k a w'
           | (Throw e, w') => (Throw e, w')
           end.

Definition throw {A} (e : Error.t) : M A := fun w => (Throw e, w).

Definition try_catch {A} (body : M A) (handler : Error.t -> M A) : M A :=
  fun w => match body w with
           | (Ok a, w') => (Ok a, w')
           | (Throw e, w') => handler e w'
           end.

Definition gets {A} (f : World -> A) : M A := fun w => (Ok (f w), w).

Definition modify (f : World -> World) : M unit := fun w => (Ok tt, f w).

Notation "x <- m ;; k" := (bind m (fun x => k))
  (at level 100, m at next level, right associativity).
Notation "m ;;; k" := (bind m (fun _ => k))
  (at level 100, right associativity).

(** [for (const x of xs) body(x)] *)
Fixpoint for_of {A} (xs : list A) (body : A -> M unit) : M unit :=
  match xs with
  | [] => ret tt
  | x :: rest => body x ;;; for_of rest body
  end.

(** ** Browser and API primitives *)

Module Runtime.
Section WithEnv.
Variable E : Env.

(** [Date.now()] and [new Date()]: one read of the wall clock. *)
Definition Date_now : M Z :=
  fun w => (Ok (clock E (clockReads (browser w))),
            with_browser (fun b => set_clockReads (S (clockReads b)) b) w).

Definition log_request (r : Request) : M nat :=
  fun w => (Ok (length (network (browser w))),
            with_browser (fun b => set_network (network b ++ [r]) b) w).

Definition settle {A} (r : Response A) : M (option (list A)) :=
  match r with
  | Rejects e => throw e
  | Null => ret None
  | Rows rows => ret (Some rows)
  end.

(** [await api.call('Get', {typeName: 'Device', search: {fromDate}})] *)
Definition api_Get_Device (fromDate : Z) : M (option (list Device.t)) :=
  n <- log_request (ReqDevice fromDate) ;;
  settle (Get_Device E n fromDate).

(** [await api.call('Get', {typeName: 'StatusData', search: {...}})] *)
Definition api_Get_StatusData (deviceId diagnostic : string) (fromDate toDate : Z)
  : M (option (list StatusData.t)) :=
  n <- log_request (ReqStatusData deviceId diagnostic fromDate toDate) ;;
  settle (Get_StatusData E n deviceId diagnostic fromDate toDate).

(** [await api.call('Get', {typeName: 'Trip', search: {...}})] *)
Definition api_Get_Trip (deviceId : string) (fromDate toDate : Z)
  : M (option (list Trip.t)) :=
  n <- log_request (ReqTrip deviceId fromDate toDate) ;;
  settle (Get_Trip E n deviceId fromDate toDate).

(** [await api.call('GetFeed', feedCall)] *)
Definition api_GetFeed (feedCall : FeedCall.t) : M FeedResult.t :=
  n <- log_request (ReqFeed feedCall) ;;
  match GetFeed E n feedCall with
  | FeedRejects e => throw e
  | FeedResolves r => ret r
  end.

Definition localStorage_setItem (key : string) (v : Stored) : M unit :=
  modify (with_browser (fun b => set_localStorage (<[key := v]> (localStorage b)) b)).

Definition setInterval (periodMs : Z) : M nat :=
  fun w => let b := browser w in
           (Ok (nextInterval b),
            with_browser (set_intervals (<[nextInterval b := periodMs]> (intervals b))
                                        (S (nextInterval b))) w).

Definition clearInterval (handle : option nat) : M unit :=
  match handle with
  | Some h =>
      modify (with_browser (fun b => set_intervals (delete h (intervals b))
                                                   (nextInterval b) b))
  | None => ret tt
  end.

(** [alert(text)] *)
Definition window_alert (text : string) : M unit :=
  modify (with_browser (fun b => set_dialogs (dialogs b ++ [text]) b)).

End WithEnv.
End Runtime.

(** ** The alert sink and its deduplication gate *)

Module AlertManager.
Section WithEnv.
Variable E : Env.

Definition DEDUP_WINDOW_MS : Z := 5 * 60 * 1000.

Definition set_alerts (l : list Alert.t) (s : AlertManagerState) : AlertManagerState :=
  {| alerts := l; alertIdCounter := alertIdCounter s; recentAlerts := recentAlerts s |}.
Definition set_alertIdCounter (n : Z) (s : AlertManagerState) : AlertManagerState :=
  {| alerts := alerts s; alertIdCounter := n; recentAlerts := recentAlerts s |}.
Definition set_recentAlerts (m : gmap string Z) (s : AlertManagerState)
  : AlertManagerState :=
  {| alerts := alerts s; alertIdCounter := alertIdCounter s; recentAlerts := m |}.

(** [lastAlertTime && (Date.now() - lastAlertTime) < DEDUP_WINDOW_MS]:
    the clock is read only when an entry exists and is truthy. *)
Definition isDuplicate (alertData : AlertData.t) : M bool :=
  lastAlertTime <- gets (fun w => recentAlerts (am w) !! AlertData.vehicleId alertData) ;;
  match lastAlertTime with
  | Some t =>
      if JS.truthy_Z t then
        now <- Runtime.Date_now E ;;
        ret (bool_decide (now - t < DEDUP_WINDOW_MS))
      else ret false
  | None => ret false
  end.

(** Only the 100 newest alerts are persisted. *)
Definition saveAlerts : M unit :=
  l <- gets (fun w => alerts (am w)) ;;
  Runtime.localStorage_setItem "fuelMonitorAlerts" (StoredAlerts (take 100 l)).

(** [alertData.location || 'Unknown'] *)
Definition location_or_unknown (l : option string) : string :=
  match l with
  | Some s => if JS.truthy_string s then s else "Unknown"
  | None => "Unknown"
  end.

Definition addAlert (alertData : AlertData.t) : M bool :=
  dup <- isDuplicate alertData ;;
  if dup : bool then ret false else
  counter <- gets (fun w => alertIdCounter (am w)) ;;
  modify (with_am (set_alertIdCounter (counter + 1))) ;;;
  stamp <- Runtime.Date_now E ;;
  let alert :=
    {| Alert.id := counter + 1;
       Alert.vehicleId := AlertData.vehicleId alertData;
       Alert.vehicleName := AlertData.vehicleName alertData;
       Alert.severity := AlertData.severity alertData;
       Alert.fuelDrop := AlertData.fuelDrop alertData;
       Alert.previousLevel := AlertData.previousLevel alertData;
       Alert.currentLevel := AlertData.currentLevel alertData;
       Alert.duration := AlertData.duration alertData;
       Alert.timestamp := stamp;
       Alert.location := location_or_unknown (AlertData.location alertData) |} in
  modify (with_am (fun s => set_alerts (alert :: alerts s) s)) ;;;
  now <- Runtime.Date_now E ;;
  modify (with_am (fun s =>
    set_recentAlerts (<[AlertData.vehicleId alertData := now]> (recentAlerts s)) s)) ;;;
  saveAlerts ;;;
  ret true.

End WithEnv.
End AlertManager.

(** ** The monitoring engine *)

Module FuelMonitor.
Section WithEnv.
Variable E : Env.

Definition DIAGNOSTIC_FUEL_LEVEL : string := "DiagnosticFuelLevelId".
Definition DIAGNOSTIC_IGNITION : string := "DiagnosticIgnitionId".

(** *** History windows *)

(** [while (history.length > 0 && history[0].timestamp < horizon) history.shift()] *)
Fixpoint shift_while_older (horizon : Z) (history : list Reading.t) : list Reading.t :=
  match history with
  | [] => []
  | h :: rest =>
      if bool_decide (Reading.timestamp h < horizon)
      then shift_while_older horizon rest
      else history
  end.

(** [while (history.length > cap) history.shift()] *)
Fixpoint shift_while_longer (cap : nat) (history : list Reading.t) : list Reading.t :=
  match history with
  | [] => []
  | _ :: rest =>
      if bool_decide (cap < length history)%nat
      then shift_while_longer cap rest
      else history
  end.

(** The body of [pruneHistory] once the clock has been read. *)
Definition pruneHistory_at (now : Z) (history : list Reading.t) : list Reading.t :=
  let twoHoursAgo := now - 2 * 60 * 60 * 1000 in
  shift_while_longer 500 (shift_while_older twoHoursAgo history).

Definition pruneHistory (history : list Reading.t) : M (list Reading.t) :=
  now <- Runtime.Date_now E ;;
  ret (pruneHistory_at now history).

(** *** Stationary check *)

(** [ignitionData[ignitionData.length - 1].data !== 0] when there is a
    last element. *)
Definition ignition_on (ignitionData : option (list StatusData.t)) : bool :=
  match ignitionData with
  | Some rows =>
      match last rows with
      | Some latestIgnition => negb (F64.eqb (StatusData.data latestIgnition) (JS.of_Z 0))
      | None => false
      end
  | None => false
  end.

(** [trips && trips.length > 0] *)
Definition non_empty {A} (rows : option (list A)) : bool :=
  match rows with
  | Some (_ :: _) => true
  | _ => false
  end.

Definition checkVehicleState (deviceId : string) (timestamp : Z) : M bool :=
  try_catch
    (let fromDate := timestamp - 5 * 60 * 1000 in
     ignitionData <-
       Runtime.api_Get_StatusData E deviceId DIAGNOSTIC_IGNITION fromDate timestamp ;;
     if ignition_on ignitionData then ret false else
     trips <- Runtime.api_Get_Trip E deviceId fromDate timestamp ;;
     if non_empty trips then ret false else
     ret true)
    (fun _ => ret true).

(** *** Continuous mode *)

(** [vehicleCache.get(deviceId)] *)
Definition cache_get (deviceId : string) (cache : list Device.t) : option Device.t :=
  List.find (fun d => bool_decide (Device.id d = deviceId)) cache.

(** [vehicleCache.set(device.id, device)]: an existing key keeps its
    position. *)
Fixpoint cache_set (d : Device.t) (cache : list Device.t) : list Device.t :=
  match cache with
  | [] => [d]
  | c :: rest =>
      if bool_decide (Device.id c = Device.id d) then d :: rest
      else c :: cache_set d rest
  end.

(** [(vehicleCache.get(deviceId) || {name: 'Unknown Vehicle'}).name] *)
Definition vehicle_name (deviceId : string) (cache : list Device.t) : string :=
  match cache_get deviceId cache with
  | Some v => Device.name v
  | None => "Unknown Vehicle"
  end.

(** [points.sort((a, b) => a.timestamp - b.timestamp)]: a stable sort. *)
Fixpoint insert_by {A} (key : A -> Z) (x : A) (sorted : list A) : list A :=
  match sorted with
  | [] => [x]
  | y :: rest =>
      if bool_decide (key y < key x) then y :: insert_by key x rest
      else x :: sorted
  end.

Definition sort_by {A} (key : A -> Z) (l : list A) : list A :=
  foldr (insert_by key) [] l.

Definition to_reading (point : StatusData.t) : Reading.t :=
  {| Reading.timestamp := StatusData.dateTime point;
     Reading.level := F64.as_num (StatusData.data point * JS.of_Z 100)%F |}.

Definition history_of (deviceId : string) (w : World) : list Reading.t :=
  default [] (fuelHistory (fm w) !! deviceId).

Definition store_history (deviceId : string) (history : list Reading.t) : M unit :=
  modify (with_fm (fun s => set_fuelHistory (<[deviceId := history]> (fuelHistory s)) s)).

(** [history.push(currentPoint); pruneHistory(history)] on the array that
    [fuelHistory] holds for the vehicle. *)
Definition push_and_prune (deviceId : string) (currentPoint : Reading.t) : M unit :=
  history <- gets (history_of deviceId) ;;
  pruned <- pruneHistory (history ++ [currentPoint]) ;;
  store_history deviceId pruned.

Definition analyzeVehicleFuelData (deviceId : string) (newDataPoints : list Reading.t)
  : M unit :=
  known <- gets (fun w => fuelHistory (fm w) !! deviceId) ;;
  (if known is None then store_history deviceId [] else ret tt) ;;;
  for_of (sort_by Reading.timestamp newDataPoints) (fun currentPoint =>
    history <- gets (history_of deviceId) ;;
    cfg <- gets (fun w => config (fm w)) ;;
    match DropDetector.detectSuspiciousDrop cfg history currentPoint with
    | Some detection =>
        isStationary <- checkVehicleState deviceId (Reading.timestamp currentPoint) ;;
        if isStationary : bool then
          cache <- gets (fun w => vehicleCache (fm w)) ;;
          let severity :=
            SeverityClassifier.determineSeverity
              (Detection.dropPercent detection) (Detection.durationMinutes detection) in
          _ <- AlertManager.addAlert E
            {| AlertData.vehicleId := deviceId;
               AlertData.vehicleName := vehicle_name deviceId cache;
               AlertData.severity := severity;
               AlertData.fuelDrop := Detection.dropPercent detection;
               AlertData.previousLevel := Detection.previousLevel detection;
               AlertData.currentLevel := Detection.currentLevel detection;
               AlertData.duration := JS.Math_round (Detection.durationMinutes detection);
               AlertData.location := None;
               AlertData.timestamp := None;
               AlertData.isHistorical := None |} ;;
          ret tt
        else ret tt
    | None => ret tt
    end ;;;
    push_and_prune deviceId currentPoint).

(** Grouping by device in a [Map]: groups appear in order of first
    occurrence, points within a group in arrival order. *)
Fixpoint group_push (deviceId : string) (r : Reading.t)
    (byDevice : list (string * list Reading.t)) : list (string * list Reading.t) :=
  match byDevice with
  | [] => [(deviceId, [r])]
  | (k, rs) :: rest =>
      if bool_decide (k = deviceId) then (k, rs ++ [r]) :: rest
      else (k, rs) :: group_push deviceId r rest
  end.

Definition group_by_device (fuelDataPoints : list StatusData.t)
  : list (string * list Reading.t) :=
  fold_left (fun byDevice point =>
               group_push (StatusData.device_id point) (to_reading point) byDevice)
            fuelDataPoints [].

Definition processFuelData (fuelDataPoints : list StatusData.t) : M unit :=
  for_of (group_by_device fuelDataPoints) (fun entry =>
    analyzeVehicleFuelData entry.1 entry.2).

(** [if (feedToken) feedCall.fromVersion = feedToken] *)
Definition cursor_argument (feedToken : option string) : option string :=
  match feedToken with
  | Some t => if JS.truthy_string t then Some t else None
  | None => None
  end.

Definition build_feedCall (feedToken : option string) : FeedCall.t :=
  {| FeedCall.typeName := "StatusData";
     FeedCall.diagnosticSearch_id := DIAGNOSTIC_FUEL_LEVEL;
     FeedCall.resultsLimit := 1000;
     FeedCall.fromVersion := cursor_argument feedToken |}.

(** [error.message && error.message.includes('version')] *)
Definition mentions_version (error : Error.t) : bool :=
  match Error.message error with
  | Some m => JS.truthy_string m && JS.includes "version" m
  | None => false
  end.

Definition pollForFuelData : M unit :=
  try_catch
    (token <- gets (fun w => feedToken (fm w)) ;;
     result <- Runtime.api_GetFeed E (build_feedCall token) ;;
     modify (with_fm (set_feedToken (FeedResult.toVersion result))) ;;;
     match FeedResult.data result with
     | Some (p :: ps) => processFuelData (p :: ps)
     | _ => ret tt
     end)
    (fun error =>
       if mentions_version error
       then modify (with_fm (set_feedToken None))
       else ret tt).

(** *** Configuration *)

(** [{ ...config, ...newConfig }] *)
Definition merge_config (c : Config.t) (n : NewConfig.t) : Config.t :=
  {| Config.dropThreshold := default (Config.dropThreshold c) (NewConfig.dropThreshold n);
     Config.timeWindowMinutes :=
       default (Config.timeWindowMinutes c) (NewConfig.timeWindowMinutes n);
     Config.pollIntervalSeconds :=
       default (Config.pollIntervalSeconds c) (NewConfig.pollIntervalSeconds n) |}.

Definition saveConfig : M unit :=
  c <- gets (fun w => config (fm w)) ;;
  Runtime.localStorage_setItem "fuelMonitorConfig" (StoredConfig c).

(** [isMonitoring && newConfig.pollIntervalSeconds] *)
Definition wants_reschedule (monitoring : bool) (n : NewConfig.t) : bool :=
  monitoring &&
  match NewConfig.pollIntervalSeconds n with
  | Some s => JS.truthy_Z s
  | None => false
  end.

Definition updateConfig (newConfig : NewConfig.t) : M unit :=
  modify (with_fm (fun s => set_config (merge_config (config s) newConfig) s)) ;;;
  saveConfig ;;;
  monitoring <- gets (fun w => isMonitoring (fm w)) ;;
  if wants_reschedule monitoring newConfig then
    handle <- gets (fun w => pollInterval (fm w)) ;;
    Runtime.clearInterval handle ;;;
    c <- gets (fun w => config (fm w)) ;;
    h <- Runtime.setInterval (Config.pollIntervalSeconds c * 1000) ;;
    modify (with_fm (set_pollInterval (Some h)))
  else ret tt.

Definition getConfig : M Config.t := gets (fun w => config (fm w)).

(** *** Historical mode *)

Definition loadVehicles : M unit :=
  try_catch
    (now <- Runtime.Date_now E ;;
     devices <- Runtime.api_Get_Device E now ;;
     match devices with
     | Some ds =>
         modify (with_fm (fun s =>
           set_vehicleCache (fold_left (fun cache d => cache_set d cache) ds
                                       (vehicleCache s)) s))
     | None =>
         (* [null.forEach] *)
         throw {| Error.message :=
                    Some "Cannot read properties of null (reading 'forEach')" |}
     end)
    (fun error => throw error).

(** The loop of [analyzeVehicleHistory] over the sorted readings;
    [history] and [alertCount] are its local variables. *)
Fixpoint replay (vehicle : Device.t) (points : list StatusData.t)
    (history : list Reading.t) (alertCount : Z) : M Z :=
  match points with
  | [] => ret alertCount
  | point :: rest =>
      let currentPoint := to_reading point in
      cfg <- gets (fun w => config (fm w)) ;;
      alertCount' <-
        match DropDetector.detectSuspiciousDrop cfg history currentPoint with
        | Some detection =>
            isStationary <-
              checkVehicleState (Device.id vehicle) (Reading.timestamp currentPoint) ;;
            if isStationary : bool then
              let severity :=
                SeverityClassifier.determineSeverity
                  (Detection.dropPercent detection)
                  (Detection.durationMinutes detection) in
              _ <- AlertManager.addAlert E
                {| AlertData.vehicleId := Device.id vehicle;
                   AlertData.vehicleName := Device.name vehicle;
                   AlertData.severity := severity;
                   AlertData.fuelDrop := Detection.dropPercent detection;
                   AlertData.previousLevel := Detection.previousLevel detection;
                   AlertData.currentLevel := Detection.currentLevel detection;
                   AlertData.duration :=
                     JS.Math_round (Detection.durationMinutes detection);
                   AlertData.location := None;
                   AlertData.timestamp := Some (Reading.timestamp currentPoint);
                   AlertData.isHistorical := Some true |} ;;
              ret (alertCount + 1)
            else ret alertCount
        | None => ret alertCount
        end ;;
      cfg' <- gets (fun w => config (fm w)) ;;
      let pushed := history ++ [currentPoint] in
      let horizon :=
        Reading.timestamp currentPoint - Config.timeWindowMinutes cfg' * 2 * 60 * 1000 in
      replay vehicle rest (shift_while_older horizon pushed) alertCount'
  end.

(** [!fuelData || fuelData.length < 2] *)
Definition too_short {A} (rows : option (list A)) : bool :=
  match rows with
  | Some rows => bool_decide (length rows < 2)%nat
  | None => true
  end.

(** Nothing after the fetch throws, so the handler still sees
    [alertCount = 0]. *)
Definition analyzeVehicleHistory (vehicle : Device.t) (fromDate toDate : Z) : M Z :=
  try_catch
    (fuelData <-
       Runtime.api_Get_StatusData E (Device.id vehicle) DIAGNOSTIC_FUEL_LEVEL
         fromDate toDate ;;
     if too_short fuelData then ret 0 else
     replay vehicle (sort_by StatusData.dateTime (default [] fuelData)) [] 0)
    (fun _ => ret 0).

Definition Callback : Type := string -> F64.t -> M unit.

(** [if (progressCallback) progressCallback(message, percent)] *)
Definition notify (progressCallback : option Callback) (message : string)
    (percent : F64.t)
  : M unit :=
  match progressCallback with
  | Some cb => cb message percent
  | None => ret tt
  end.

Definition progress_percent (processed total : Z) : F64.t :=
  JS.Math_round (JS.of_Z processed / JS.of_Z total * JS.of_Z 100)%F.

Definition progress_message (vehicle : Device.t) (processed total : Z) : string :=
  "Analyzed " +:+ Device.name vehicle +:+ " (" +:+ pretty processed +:+ "/"
    +:+ pretty total +:+ ")".

(** The loop over the fleet; [processed] and [totalAlerts] are its local
    variables.  An error thrown by the analysis of one vehicle skips its
    bookkeeping; one thrown by the callback comes after it. *)
Fixpoint each_vehicle (fromDate toDate : Z) (progressCallback : option Callback)
    (total : Z) (vehicles : list Device.t) (processed totalAlerts : Z) : M Z :=
  match vehicles with
  | [] => ret totalAlerts
  | vehicle :: rest =>
      outcome <- try_catch
        (found <- analyzeVehicleHistory vehicle fromDate toDate ;; ret (Some found))
        (fun _ => ret None) ;;
      match outcome with
      | Some found =>
          let totalAlerts' := totalAlerts + found in
          let processed' := processed + 1 in
          try_catch
            (notify progressCallback (progress_message vehicle processed' total)
                    (progress_percent processed' total))
            (fun _ => ret tt) ;;;
          each_vehicle fromDate toDate progressCallback total rest processed' totalAlerts'
      | None =>
          each_vehicle fromDate toDate progressCallback total rest processed totalAlerts
      end
  end.

Definition analyzeHistoricalData (fromDate toDate : Z)
    (progressCallback : option Callback) : M Z :=
  try_catch
    (cache <- gets (fun w => vehicleCache (fm w)) ;;
     (if bool_decide (length cache = 0%nat) then loadVehicles else ret tt) ;;;
     vehicles <- gets (fun w => vehicleCache (fm w)) ;;
     let total := Z.of_nat (length vehicles) in
     notify progressCallback ("Analyzing " +:+ pretty total +:+ " vehicles...")
       (JS.of_Z 0) ;;;
     totalAlerts <-
       each_vehicle fromDate toDate progressCallback total vehicles 0 0 ;;
     notify progressCallback
       ("Analysis complete. Found " +:+ pretty totalAlerts
          +:+ " potential theft events.") (JS.of_Z 100) ;;;
     ret totalAlerts)
    (fun error => throw error).

(** A progress callback that records each invocation. *)
Definition recording : Callback :=
  fun message percent =>
    modify (with_browser (fun b =>
      set_progressSeen (progressSeen b ++ [(message, percent)]) b)).

End WithEnv.
End FuelMonitor.

(** ** The settings dialog *)

Module Main.
Section WithEnv.
Variable E : Env.

(** The form as read by [saveSettings]: the three numeric inputs after
    [parseInt(value, 10)] ([None] is [NaN]) and the two check boxes. *)
Record Form := mkForm {
  threshold : option Z;
  timeWindow : option Z;
  pollInterval : option Z;
  soundEnabled : bool;
  browserNotifications : bool
}.

(** [isNaN(x) || x < lo || x > hi] *)
Definition invalid (x : option Z) (lo hi : Z) : bool :=
  match x with
  | None => true
  | Some v => bool_decide (v < lo) || bool_decide (v > hi)
  end.

Definition closeSettings : M unit :=
  modify (with_browser (set_settingsModalActive false)).

Definition saveSettings (form : Form) : M unit :=
  if invalid (threshold form) 1 50 then
    Runtime.window_alert "Threshold must be between 1 and 50"
  else if invalid (timeWindow form) 5 120 then
    Runtime.window_alert "Time window must be between 5 and 120 minutes"
  else if invalid (pollInterval form) 10 300 then
    Runtime.window_alert "Polling interval must be between 10 and 300 seconds"
  else
    FuelMonitor.updateConfig
      {| NewConfig.dropThreshold := threshold form;
         NewConfig.timeWindowMinutes := timeWindow form;
         NewConfig.pollIntervalSeconds := pollInterval form |} ;;;
    Runtime.localStorage_setItem "fuelMonitorSettings"
      (StoredSettings (soundEnabled form) (browserNotifications form)) ;;;
    closeSettings.

End WithEnv.
End Main.

(** * The rest of the two modules *)

(** ** [AlertManager]: dismissing, clearing and reloading alerts *)

Module AlertStore.

(** [alerts.length > 0 ? Math.max(...alerts.map(a => a.id)) : 0] *)
Definition max_id (l : list Alert.t) : Z :=
  match l with
  | [] => 0
  | a :: rest => foldr Z.max (Alert.id a) (map Alert.id rest)
  end.

(** [loadAlerts]: the key is written by [saveAlerts] only; what else it
    could hold is not modelled and is read as if the key were absent. *)
Definition loadAlerts : M unit :=
  saved <- gets (fun w => localStorage (browser w) !! "fuelMonitorAlerts") ;;
  match saved with
  | Some (StoredAlerts l) =>
      modify (with_am (fun s =>
        AlertManager.set_alertIdCounter (max_id l) (AlertManager.set_alerts l s)))
  | _ => ret tt
  end.

(** [alerts = alerts.filter(a => a.id !== alertId); saveAlerts()] *)
Definition dismissAlert (alertId : Z) : M unit :=
  modify (with_am (fun s =>
    AlertManager.set_alerts (filter (fun a => Alert.id a <> alertId) (alerts s)) s)) ;;;
  AlertManager.saveAlerts.

(** [alerts = []; saveAlerts(); loadAlerts()] *)
Definition clearAlerts : M unit :=
  modify (with_am (AlertManager.set_alerts [])) ;;;
  AlertManager.saveAlerts ;;;
  loadAlerts.

(** [getAlerts]: a copy of the list. *)
Definition getAlerts : M (list Alert.t) := gets (fun w => alerts (am w)).

End AlertStore.

(** ** [FuelMonitor]: start, stop and the stored configuration *)

Module Lifecycle.
Section WithEnv.
Variable E : Env.

Definition set_isMonitoring (b : bool) (s : FuelMonitorState) : FuelMonitorState :=
  {| isMonitoring := b; pollInterval := pollInterval s; feedToken := feedToken s;
     vehicleCache := vehicleCache s; fuelHistory := fuelHistory s; config := config s |}.

(** [loadConfig]: [config = { ...config, ...JSON.parse(saved) }].  A stored
    configuration carries all three values; the objects stored under the
    other keys have none of the three properties, so spreading one leaves
    them as they are. *)
Definition loadConfig : M unit :=
  saved <- gets (fun w => localStorage (browser w) !! "fuelMonitorConfig") ;;
  match saved with
  | Some (StoredConfig c) => modify (with_fm (set_config c))
  | _ => ret tt
  end.

(** [init(geotabApi)]: the API is the environment. *)
Definition init : M unit := loadConfig.

(** [startMonitoring].  The first tick is started without [await]; it
    writes none of the variables the statements after it write, so it is
    sequenced before them. *)
Definition startMonitoring : M unit :=
  monitoring <- gets (fun w => isMonitoring (fm w)) ;;
  if monitoring : bool then ret tt else
  try_catch
    (FuelMonitor.loadVehicles E ;;;
     modify (with_fm (set_isMonitoring true)) ;;;
     FuelMonitor.pollForFuelData E ;;;
     c <- gets (fun w => config (fm w)) ;;
     h <- Runtime.setInterval (Config.pollIntervalSeconds c * 1000) ;;
     modify (with_fm (set_pollInterval (Some h))))
    (fun _ => ret tt).

(** [if (pollInterval)]: a timer handle is a number. *)
Definition truthy_handle (h : option nat) : bool :=
  match h with
  | Some n => negb (n =? 0)%nat
  | None => false
  end.

Definition stopMonitoring : M unit :=
  handle <- gets (fun w => pollInterval (fm w)) ;;
  (if truthy_handle handle then
     Runtime.clearInterval handle ;;;
     modify (with_fm (set_pollInterval None))
   else ret tt) ;;;
  modify (with_fm (set_isMonitoring false)).

Definition isActive : M bool := gets (fun w => isMonitoring (fm w)).

(** [getVehicles]: the cached vehicles in insertion order. *)
Definition getVehicles : M (list Device.t) := gets (fun w => vehicleCache (fm w)).

End WithEnv.
End Lifecycle.

(** * Specification vocabulary *)

(** The two rules of the classifier, as propositions. *)
Definition is_critical (d m : F64.t) : Prop := (JS.of_Z 25 < d)%F /\ (m < JS.of_Z 10)%F.
Definition is_high (d m : F64.t) : Prop := (JS.of_Z 15 < d)%F /\ (m < JS.of_Z 20)%F.

(** The instant returned by the next clock read in world [w]. *)
Definition next_clock (E : Env) (w : World) : Z := clock E (clockReads (browser w)).

(** The world after [k] more reads of the clock. *)
Definition after_reads (k : nat) (w : World) : World :=
  with_browser (fun b => set_clockReads (k + clockReads b) b) w.

(** Vehicle [v] is in cooldown in world [w]: an instant was recorded for
    it and the next clock read is less than five minutes after it. *)
Definition in_cooldown (E : Env) (v : string) (w : World) : Prop :=
  exists t : Z, recentAlerts (am w) !! v = Some t
                /\ next_clock E w - t < AlertManager.DEDUP_WINDOW_MS.

(** The test the code makes: in cooldown, and the recorded instant is a
    truthy number. *)
Definition gate_closed (E : Env) (v : string) (w : World) : Prop :=
  exists t : Z, recentAlerts (am w) !! v = Some t /\ t <> 0
                /\ next_clock E w - t < AlertManager.DEDUP_WINDOW_MS.

(** How many clock reads the gate itself makes. *)
Definition gate_reads (v : string) (w : World) : nat :=
  match recentAlerts (am w) !! v with
  | Some t => if JS.truthy_Z t then 1 else 0
  | None => 0
  end.

(** The alert record built for [d] with id [i] at instant [stamp]. *)
Definition alert_of (d : AlertData.t) (i stamp : Z) : Alert.t :=
  {| Alert.id := i;
     Alert.vehicleId := AlertData.vehicleId d;
     Alert.vehicleName := AlertData.vehicleName d;
     Alert.severity := AlertData.severity d;
     Alert.fuelDrop := AlertData.fuelDrop d;
     Alert.previousLevel := AlertData.previousLevel d;
     Alert.currentLevel := AlertData.currentLevel d;
     Alert.duration := AlertData.duration d;
     Alert.timestamp := stamp;
     Alert.location := AlertManager.location_or_unknown (AlertData.location d) |}.

(** The world after [addAlert] accepted [d], when the gate made [g]
    clock reads. *)
Definition accepted (E : Env) (d : AlertData.t) (g : nat) (w : World) : World :=
  let n := clockReads (browser w) in
  let a := alert_of d (alertIdCounter (am w) + 1) (clock E (g + n)) in
  let l := a :: alerts (am w) in
  {| am := {| alerts := l;
              alertIdCounter := alertIdCounter (am w) + 1;
              recentAlerts :=
                <[AlertData.vehicleId d := clock E (S (g + n))]> (recentAlerts (am w)) |};
     fm := fm w;
     browser :=
       set_localStorage
         (<["fuelMonitorAlerts" := StoredAlerts (take 100 l)]> (localStorage (browser w)))
         (set_clockReads (S (S (g + n))) (browser w)) |}.

(** The ignition query resolved and its latest reading is non-zero. *)
Definition ignition_evidence (r : Response StatusData.t) : Prop :=
  exists rows latest,
    r = Rows rows /\ last rows = Some latest
    /\ F64.eqb (StatusData.data latest) (JS.of_Z 0) = false.

(** The trip query resolved to at least one record. *)
Definition trip_evidence (r : Response Trip.t) : Prop :=
  exists t rest, r = Rows (t :: rest).

(** The query was rejected. *)
Definition rejected {A} (r : Response A) : Prop := exists e, r = Rejects e.

(** The answers the API gives to the two queries of a stationary check
    started in world [w]. *)
Definition ignition_answer (E : Env) (deviceId : string) (timestamp : Z) (w : World)
  : Response StatusData.t :=
  Get_StatusData E (length (network (browser w))) deviceId FuelMonitor.DIAGNOSTIC_IGNITION
    (timestamp - 5 * 60 * 1000) timestamp.

(** The answer to the trip query, which is the second call. *)
Definition trip_answer (E : Env) (deviceId : string) (timestamp : Z) (w : World)
  : Response Trip.t :=
  Get_Trip E (S (length (network (browser w)))) deviceId
    (timestamp - 5 * 60 * 1000) timestamp.

(** The world after request [r] was written to the network log. *)
Definition logged (r : Request) (w : World) : World :=
  with_browser (fun b => set_network (network b ++ [r]) b) w.

(** What the check answers, as a function of the two API answers; the
    second is looked at only if the first resolved without evidence. *)
Definition verdict (ign : Response StatusData.t) (trips : Response Trip.t) : bool :=
  match ign with
  | Rejects _ => true
  | Null => match trips with Rows (_ :: _) => false | _ => true end
  | Rows rows =>
      if FuelMonitor.ignition_on (Some rows) then false
      else match trips with Rows (_ :: _) => false | _ => true end
  end.

(** The parts of the world the detection pipeline never writes. *)
Definition untouched (w : World)
  : option string * list Device.t * Config.t * bool * option nat
    * list (string * F64.t) * gmap nat Z * list string :=
  (feedToken (fm w), vehicleCache (fm w), config (fm w), isMonitoring (fm w),
   pollInterval (fm w), progressSeen (browser w), intervals (browser w),
   dialogs (browser w)).

(** [m] leaves [f] as it found it, however it ends. *)
Definition keeps {A B} (f : World -> B) (m : M A) : Prop :=
  forall w, f (m w).2 = f w.

(** [m] never throws. *)
Definition returns {A} (m : M A) : Prop :=
  forall w, exists a, (m w).1 = Ok a.

(** The text [m] contains [word]. *)
Definition contains (word m : string) : Prop :=
  exists pre post : string, m = pre +:+ word +:+ post.

(** A text in lower case (the letters A to Z). *)
Definition lower (c : Ascii.ascii) : Ascii.ascii :=
  let n := Ascii.N_of_ascii c in
  if ((65 <=? n) && (n <=? 90))%N then Ascii.ascii_of_N (n + 32) else c.

Fixpoint lowercase (m : string) : string :=
  match m with
  | EmptyString => EmptyString
  | String c rest => String (lower c) (lowercase rest)
  end.

(** The version-mismatch class of errors: the message of the error
    indicates a version conflict, that is, it names the version, in
    whatever letter case ([Incorrect version token], [Invalid
    fromVersion], [Version conflict]). *)
Definition version_mismatch (e : Error.t) : Prop :=
  exists m, Error.message e = Some m /\ contains "version" (lowercase m).

(** The errors whose message has the word [version] as it stands, in
    lower case. *)
Definition names_version (e : Error.t) : Prop :=
  exists m, Error.message e = Some m /\ contains "version" m.

(** The answer of the API to the poll started in world [w]. *)
Definition feed_answer (E : Env) (w : World) : FeedResponse :=
  GetFeed E (length (network (browser w))) (FuelMonitor.build_feedCall (feedToken (fm w))).

(** A requested value is outside [lo, hi] (or is not a number). *)
Definition outside (lo hi : Z) (x : option Z) : Prop :=
  match x with
  | None => True
  | Some v => v < lo \/ hi < v
  end.

(** The requested values of the form are out of the allowed ranges. *)
Definition out_of_range (form : Main.Form) : Prop :=
  outside 1 50 (Main.threshold form)
  \/ outside 5 120 (Main.timeWindow form)
  \/ outside 10 300 (Main.pollInterval form).

(** Readings in non-decreasing timestamp order. *)
Definition in_order (history : list Reading.t) : Prop :=
  StronglySorted (fun a b => Reading.timestamp a <= Reading.timestamp b) history.

(** The world after the recording callback saw [(message, percent)]. *)
Definition seen (message : string) (percent : F64.t) (w : World) : World :=
  with_browser (fun b => set_progressSeen (progressSeen b ++ [(message, percent)]) b) w.

(** * Fixtures *)

Module Fixtures.

(** The state of a freshly loaded add-in. *)
Definition world0 : World :=
  {| am := {| alerts := []; alertIdCounter := 0; recentAlerts := ∅ |};
     fm := {| isMonitoring := false; pollInterval := None; feedToken := None;
              vehicleCache := []; fuelHistory := ∅; config := Config.default |};
     browser := {| localStorage := ∅; intervals := ∅; nextInterval := 0;
                   dialogs := []; settingsModalActive := false;
                   clockReads := 0; network := []; progressSeen := [] |} |}.

(** A wall clock that shows [start] for its first [k] reads and
    [start + gap] from then on. *)
Definition stepping_clock (k : nat) (start gap : Z) : nat -> Z :=
  fun n => if (n <? k)%nat then start else start + gap.

(** An API that serves the fuel readings [fuel] of each vehicle and
    reports no ignition data and no trips. *)
Definition parked_fleet (devices : list Device.t) (fuel : string -> list StatusData.t)
    (clk : nat -> Z) : Env :=
  {| clock := clk;
     Get_Device := fun _ _ => Rows devices;
     Get_StatusData := fun _ deviceId diagnostic _ _ =>
       if String.eqb diagnostic FuelMonitor.DIAGNOSTIC_FUEL_LEVEL
       then Rows (fuel deviceId) else Rows [];
     Get_Trip := fun _ _ _ _ => Rows [];
     GetFeed := fun _ _ => FeedRejects {| Error.message := None |} |}.

Definition minutes (n : Z) : Z := n * 60 * 1000.

(** 2023-11-14T22:13:20Z, in milliseconds. *)
Definition noon : Z := 1700000000000.

Definition truck : Device.t :=
  {| Device.id := "b1"; Device.name := "Truck 1"; Device.serialNumber := "G9000001" |}.

Definition van : Device.t :=
  {| Device.id := "b2"; Device.name := "Van 2"; Device.serialNumber := "G9000002" |}.

(** A fuel-level entry: [percent]% at [t]. *)
Definition fuel_at (deviceId : string) (t percent : Z) : StatusData.t :=
  {| StatusData.device_id := deviceId; StatusData.dateTime := t;
     StatusData.data := F64.as_num (JS.of_Z percent / JS.of_Z 100)%F |}.

(** A fuel-level entry whose value is the decimal fraction [n / d], as a
    JSON parser reads [0.254] for 254 and 1000. *)
Definition fuel_level (deviceId : string) (t n d : Z) : StatusData.t :=
  {| StatusData.device_id := deviceId; StatusData.dateTime := t;
     StatusData.data := F64.as_num (JS.of_Z n / JS.of_Z d)%F |}.

(** The payload of a qualifying drop of vehicle [v]. *)
Definition drop_of (v : string) : AlertData.t :=
  {| AlertData.vehicleId := v; AlertData.vehicleName := "Truck 1";
     AlertData.severity := "high"; AlertData.fuelDrop := JS.of_Z 20;
     AlertData.previousLevel := JS.of_Z 80; AlertData.currentLevel := JS.of_Z 60;
     AlertData.duration := JS.of_Z 10; AlertData.location := None;
     AlertData.timestamp := None; AlertData.isHistorical := None |}.

(** Two calls of [addAlert] in a row. *)
Definition add_twice (E : Env) (d1 d2 : AlertData.t) : M (bool * bool) :=
  r1 <- AlertManager.addAlert E d1 ;;
  r2 <- AlertManager.addAlert E d2 ;;
  ret (r1, r2).

(** A day before [noon]: the start of the historical range. *)
Definition past : Z := noon - minutes (24 * 60).

(** Two qualifying drops of the truck three hours apart. *)
Definition hours_apart (deviceId : string) : list StatusData.t :=
  if String.eqb deviceId "b1"
  then [fuel_at "b1" past 80; fuel_at "b1" (past + minutes 10) 60;
        fuel_at "b1" (past + minutes 180) 80; fuel_at "b1" (past + minutes 190) 60]
  else [].

(** Two qualifying drops of the truck two minutes apart. *)
Definition minutes_apart (deviceId : string) : list StatusData.t :=
  if String.eqb deviceId "b1"
  then [fuel_at "b1" past 80; fuel_at "b1" (past + minutes 1) 60;
        fuel_at "b1" (past + minutes 3) 50]
  else [].

(** One qualifying drop of the truck, none of the van. *)
Definition one_drop (deviceId : string) : list StatusData.t :=
  if String.eqb deviceId "b1"
  then [fuel_at "b1" past 80; fuel_at "b1" (past + minutes 10) 60]
  else [fuel_at "b2" past 70; fuel_at "b2" (past + minutes 10) 69].

(** The payload [d] with other values for its two optional tags. *)
Definition retag (d : AlertData.t) (timestamp : option Z) (isHistorical : option bool)
  : AlertData.t :=
  {| AlertData.vehicleId := AlertData.vehicleId d;
     AlertData.vehicleName := AlertData.vehicleName d;
     AlertData.severity := AlertData.severity d;
     AlertData.fuelDrop := AlertData.fuelDrop d;
     AlertData.previousLevel := AlertData.previousLevel d;
     AlertData.currentLevel := AlertData.currentLevel d;
     AlertData.duration := AlertData.duration d;
     AlertData.location := AlertData.location d;
     AlertData.timestamp := timestamp;
     AlertData.isHistorical := isHistorical |}.

(** A reading at millisecond instant [t] with level [l] percent. *)
Definition reading (t l : Z) : Reading.t :=
  {| Reading.timestamp := t; Reading.level := F64.as_num (JS.of_Z l) |}.

(** An environment whose clock shows [noon] twice and then [noon + gap]. *)
Definition gap_env (gap : Z) : Env :=
  parked_fleet [] (fun _ => []) (stepping_clock 2 noon gap).

(** A form that asks for a 0% threshold while monitoring is on. *)
Definition zero_threshold : Main.Form :=
  {| Main.threshold := Some 0; Main.timeWindow := Some 30; Main.pollInterval := Some 60;
     Main.soundEnabled := true; Main.browserNotifications := true |}.

(** The add-in while it is polling every 30 seconds on timer 0. *)
Definition monitoring : World :=
  with_browser (set_intervals {[ 0%nat := 30000 ]} 1)
    (with_fm (fun s => set_pollInterval (Some 0%nat)
                         {| isMonitoring := true; pollInterval := pollInterval s;
                            feedToken := feedToken s; vehicleCache := vehicleCache s;
                            fuelHistory := fuelHistory s; config := config s |})
       world0).

(** [n] readings of 50%, one minute apart, the first at [start]. *)
Definition every_minute (start : Z) (n : nat) : list Reading.t :=
  map (fun k => {| Reading.timestamp := start + minutes (Z.of_nat k);
                   Reading.level := F64.as_num (JS.of_Z 50) |}) (seq 0 n).

(** An environment with a wall clock stuck at [now]. *)
Definition frozen_at (now : Z) : Env :=
  parked_fleet [] (fun _ => []) (fun _ => now).

(** The window of the truck after [readings] went through the continuous
    pipeline with the wall clock at [now]. *)
Definition window_after (now : Z) (readings : list Reading.t) : list Reading.t :=
  FuelMonitor.history_of "b1" (FuelMonitor.analyzeVehicleFuelData (frozen_at now) "b1" readings world0).2.

(** An environment whose wall clock shows, at its k-th read, the instant
    [start + k min]: each reading of [every_minute start n] is appended at
    the moment it was taken. *)
Definition live_from (start : Z) : Env :=
  parked_fleet [] (fun _ => []) (fun k => start + minutes (Z.of_nat k)).

(** The window of the truck after [n] such readings, appended live. *)
Definition window_live (start : Z) (n : nat) : list Reading.t :=
  FuelMonitor.history_of "b1"
    (FuelMonitor.analyzeVehicleFuelData (live_from start) "b1" (every_minute start n) world0).2.

(** The fleet of the fixture: the truck has one qualifying drop while
    parked, the van has none. *)
Definition two_vehicles : Env :=
  parked_fleet [truck; van] one_drop (fun _ => noon).

(** The same add-in with its vehicle registry already loaded. *)
Definition loaded (vehicles : list Device.t) : World :=
  with_fm (set_vehicleCache vehicles) world0.

End Fixtures.

(** * Further vocabulary *)

(** The tiers in rising order of severity. *)
Definition tier_rank (tier : string) : nat :=
  if String.eqb tier "critical" then 3
  else if String.eqb tier "high" then 2
  else if String.eqb tier "medium" then 1
  else 0.

(** Order by key. *)
Definition key_le {A} (key : A -> Z) (a b : A) : Prop := key a <= key b.

(** What the grouping holds after a prefix of the feed. *)
Definition grouped (points : list StatusData.t) (g : list (string * list Reading.t))
  : Prop :=
  NoDup g.*1
  /\ (forall k, k ∈ g.*1 <-> k ∈ StatusData.device_id <$> points)
  /\ (forall k rs, (k, rs) ∈ g ->
        rs = FuelMonitor.to_reading <$> filter (fun p => StatusData.device_id p = k) points).


(** The fuel query gave nothing to replay: it was rejected, resolved to
    [null], or resolved to fewer than two readings. *)
Definition too_few (answer : Response StatusData.t) : Prop :=
  match answer with
  | Rejects _ => True
  | Null => True
  | Rows rows => (length rows < 2)%nat
  end.

(** [m] keeps the state property [I]. *)
Definition holds_through {A} (I : World -> Prop) (m : M A) : Prop :=
  forall w, I w -> I (m w).2.

(** What the queries, the clock and the history windows leave alone: the
    alert sink, the storage and the configuration. *)
Definition sink_side (w : World) : AlertManagerState * gmap string Stored * Config.t :=
  (am w, localStorage (browser w), config (fm w)).

(** What the detection pipeline, the registry and the alert list leave
    alone: the flag and the timers, the configuration and its stored copy,
    the stored notification settings, the dialogs and the settings modal. *)
Definition controls (w : World)
  : bool * option nat * gmap nat Z * nat * Config.t * option Stored * option Stored
    * list string * bool :=
  (isMonitoring (fm w), pollInterval (fm w), intervals (browser w),
   nextInterval (browser w), config (fm w),
   localStorage (browser w) !! "fuelMonitorConfig",
   localStorage (browser w) !! "fuelMonitorSettings",
   dialogs (browser w), settingsModalActive (browser w)).

(** The payload of a qualifying drop under configuration [cfg]: the drop
    is the binary64 difference of two fuel levels and reaches the
    threshold; the levels were read some [elapsed] milliseconds apart, more
    than none and no more than the window, and that time in minutes,
    [elapsed / 60000] as binary64 computes it, is within the window; the
    reported duration is that time rounded to whole minutes; the tier is
    the one the table of the classifier gives the drop and the time; and
    no location is given. *)
Definition qualifying_drop (cfg : Config.t) (d : AlertData.t) : Prop :=
  exists (previous current : F64.num) (elapsed : Z),
    AlertData.previousLevel d = previous
    /\ AlertData.currentLevel d = current
    /\ AlertData.fuelDrop d = (previous - current)%F
    /\ (JS.of_Z (Config.dropThreshold cfg) <= AlertData.fuelDrop d)%F
    /\ 0 < elapsed <= Config.timeWindowMinutes cfg * 60000
    /\ (JS.of_Z elapsed / JS.of_Z 60000 <= JS.of_Z (Config.timeWindowMinutes cfg))%F
    /\ AlertData.duration d = JS.Math_round (JS.of_Z elapsed / JS.of_Z 60000)%F
    /\ AlertData.severity d ∈ ["critical"; "high"; "medium"]
    /\ (AlertData.severity d = "critical" <->
        is_critical (AlertData.fuelDrop d) (JS.of_Z elapsed / JS.of_Z 60000)%F)
    /\ (AlertData.severity d = "high" <->
        ~ is_critical (AlertData.fuelDrop d) (JS.of_Z elapsed / JS.of_Z 60000)%F
        /\ is_high (AlertData.fuelDrop d) (JS.of_Z elapsed / JS.of_Z 60000)%F)
    /\ AlertData.location d = None.

(** The same of a stored alert. *)
Definition qualifying (cfg : Config.t) (a : Alert.t) : Prop :=
  exists (previous current : F64.num) (elapsed : Z),
    Alert.previousLevel a = previous
    /\ Alert.currentLevel a = current
    /\ Alert.fuelDrop a = (previous - current)%F
    /\ (JS.of_Z (Config.dropThreshold cfg) <= Alert.fuelDrop a)%F
    /\ 0 < elapsed <= Config.timeWindowMinutes cfg * 60000
    /\ (JS.of_Z elapsed / JS.of_Z 60000 <= JS.of_Z (Config.timeWindowMinutes cfg))%F
    /\ Alert.duration a = JS.Math_round (JS.of_Z elapsed / JS.of_Z 60000)%F
    /\ Alert.severity a ∈ ["critical"; "high"; "medium"]
    /\ (Alert.severity a = "critical" <->
        is_critical (Alert.fuelDrop a) (JS.of_Z elapsed / JS.of_Z 60000)%F)
    /\ (Alert.severity a = "high" <->
        ~ is_critical (Alert.fuelDrop a) (JS.of_Z elapsed / JS.of_Z 60000)%F
        /\ is_high (Alert.fuelDrop a) (JS.of_Z elapsed / JS.of_Z 60000)%F)
    /\ Alert.location a = "Unknown".

(** Since the state [base], only alerts that satisfy [P] were added to the
    sink, and the configuration is still [cfg]. *)
Definition only_added (P : Alert.t -> Prop) (cfg : Config.t) (base : list Alert.t)
    (w : World) : Prop :=
  config (fm w) = cfg
  /\ exists new, alerts (am w) = new ++ base /\ Forall P new.

(** The vehicles with a reading in the answer to the poll started in [w]. *)
Definition feed_devices (E : Env) (w : World) : list string :=
  match feed_answer E w with
  | FeedResolves r => StatusData.device_id <$> default [] (FeedResult.data r)
  | FeedRejects _ => []
  end.

(** Started in a state where [I] holds, [m] ends with a result [a] in a
    state where [Q a] holds, or throws in a state where [X] holds. *)
Definition ensures {A} (I : World -> Prop) (Q : A -> World -> Prop)
    (X : World -> Prop) (m : M A) : Prop :=
  forall w, I w ->
    match m w with
    | (Ok a, w') => Q a w'
    | (Throw _, w') => X w'
    end.

(** [only_added], with at most [n] alerts added. *)
Definition counted (P : Alert.t -> Prop) (cfg : Config.t) (base : list Alert.t)
    (n : Z) (w : World) : Prop :=
  config (fm w) = cfg
  /\ exists new, alerts (am w) = new ++ base /\ Forall P new
                 /\ Z.of_nat (length new) <= n.

(** The two values the alert list lives in: the manager's state and its
    key of the storage. *)
Definition alert_store (w : World) : AlertManagerState * option Stored :=
  (am w, localStorage (browser w) !! "fuelMonitorAlerts").

(** The alerts are numbered: newest first with strictly falling ids, each
    id positive and at most the counter; and what the storage holds under
    the alerts key is the 100 newest. *)
Definition numbered (w : World) : Prop :=
  0 <= alertIdCounter (am w)
  /\ StronglySorted (fun a b => Alert.id b < Alert.id a) (alerts (am w))
  /\ Forall (fun a => 0 < Alert.id a <= alertIdCounter (am w)) (alerts (am w))
  /\ forall l, localStorage (browser w) !! "fuelMonitorAlerts" = Some (StoredAlerts l) ->
       l = take 100 (alerts (am w)).

(** The world with [l] for its alert list, saved. *)
Definition with_alerts (l : list Alert.t) (w : World) : World :=
  with_browser (fun b =>
      set_localStorage
        (<["fuelMonitorAlerts" := StoredAlerts (take 100 l)]> (localStorage b)) b)
    (with_am (AlertManager.set_alerts l) w).

(** The page after a reload: the variables of the two modules are back at
    their initial values, the storage is what it was. *)
Definition reloaded (w : World) : World :=
  with_browser (set_localStorage (localStorage (browser w))) Fixtures.world0.

(** ** Sessions *)

(** The calls a page makes of the two modules and of the settings form.
    Each runs to completion before the next starts. *)
Inductive Call : Type :=
| AddAlert (alertData : AlertData.t)
| DismissAlert (alertId : Z)
| ClearAlerts
| LoadAlerts
| Init
| StartMonitoring
| StopMonitoring
| Tick
| UpdateConfig (newConfig : NewConfig.t)
| SaveSettings (form : Main.Form)
| AnalyzeHistoricalData (fromDate toDate : Z).

(** The historical analysis is called with a callback that shows the
    progress; an error it throws is caught by its caller. *)
Definition call (E : Env) (c : Call) : M unit :=
  match c with
  | AddAlert alertData => _ <- AlertManager.addAlert E alertData ;; ret tt
  | DismissAlert alertId => AlertStore.dismissAlert alertId
  | ClearAlerts => AlertStore.clearAlerts
  | LoadAlerts => AlertStore.loadAlerts
  | Init => Lifecycle.init
  | StartMonitoring => Lifecycle.startMonitoring E
  | StopMonitoring => Lifecycle.stopMonitoring
  | Tick => FuelMonitor.pollForFuelData E
  | UpdateConfig newConfig => FuelMonitor.updateConfig newConfig
  | SaveSettings form => Main.saveSettings form
  | AnalyzeHistoricalData fromDate toDate =>
      _ <- FuelMonitor.analyzeHistoricalData E fromDate toDate
             (Some FuelMonitor.recording) ;;
      ret tt
  end.

(** The state after a sequence of calls. *)
Definition session (E : Env) (calls : list Call) (w : World) : World :=
  fold_left (fun w c => (call E c w).2) calls w.

(** At most one polling timer: while monitoring, the handle of the one
    live timer is held, and it is a handle [clearInterval] will be given
    (a non-zero number); otherwise no timer is live and no handle is
    held.  The browser hands out fresh non-zero handles. *)
Definition one_timer (w : World) : Prop :=
  (0 < nextInterval (browser w))%nat
  /\ if isMonitoring (fm w) then
       exists h period,
         pollInterval (fm w) = Some h
         /\ (0 < h < nextInterval (browser w))%nat
         /\ intervals (browser w) = {[ h := period ]}
     else pollInterval (fm w) = None /\ intervals (browser w) = ∅.

(** The ranges of the settings form. *)
Definition in_range (c : Config.t) : Prop :=
  1 <= Config.dropThreshold c <= 50
  /\ 5 <= Config.timeWindowMinutes c <= 120
  /\ 10 <= Config.pollIntervalSeconds c <= 300.

(** The configuration in force and the stored one are within the ranges. *)
Definition configured (w : World) : Prop :=
  in_range (config (fm w))
  /\ forall c, localStorage (browser w) !! "fuelMonitorConfig" = Some (StoredConfig c) ->
       in_range c.

(** A call made through the page: every call but a direct
    [updateConfig]. *)
Definition through_page (c : Call) : bool :=
  match c with
  | UpdateConfig _ => false
  | _ => true
  end.

(** A fresh page in a browser whose next timer handle is 1. *)
Definition page0 : World :=
  with_browser (set_intervals ∅ 1) Fixtures.world0.

(** No window holds a reading. *)
Definition no_history (w : World) : Prop :=
  forall deviceId, FuelMonitor.history_of deviceId w = [].

(** The sink is as [a], no window holds a reading and the requests made
    are [net]. *)
Definition quiet (a : AlertManagerState) (net : list Request) (w : World) : Prop :=
  am w = a /\ no_history w /\ network (browser w) = net.

(** Every reading of the answer to the poll started in [w] was taken more
    than two hours before any reading of the clock. *)
Definition feed_delayed (E : Env) (w : World) : Prop :=
  forall r rows p k,
    feed_answer E w = FeedResolves r -> FeedResult.data r = Some rows -> p ∈ rows ->
    StatusData.dateTime p < clock E k - 2 * 60 * 60 * 1000.

(** An environment whose feed delivers, at every poll, two readings of the
    truck taken a day before the clock's [noon]: 80% and, ten minutes
    later, 60%. *)
Definition day_old_feed : Env :=
  {| clock := fun _ => Fixtures.noon;
     Get_Device := fun _ _ => Rows [Fixtures.truck];
     Get_StatusData := fun _ _ _ _ _ => Rows [];
     Get_Trip := fun _ _ _ _ => Rows [];
     GetFeed := fun _ _ =>
       FeedResolves
         {| FeedResult.data :=
              Some [Fixtures.fuel_at "b1" Fixtures.past 80;
                    Fixtures.fuel_at "b1" (Fixtures.past + Fixtures.minutes 10) 60];
            FeedResult.toVersion := Some "0000000000000001" |} |}.

(** An environment whose feed rejects every call with [e]. *)
Definition feed_rejects (e : Error.t) : Env :=
  {| clock := fun _ => Fixtures.noon;
     Get_Device := fun _ _ => Rows [];
     Get_StatusData := fun _ _ _ _ _ => Rows [];
     Get_Trip := fun _ _ _ _ => Rows [];
     GetFeed := fun _ _ => FeedRejects e |}.

(** The engine in the middle of a feed, with cursor [token]. *)
Definition polling_from (token : string) : World :=
  with_fm (set_feedToken (Some token)) Fixtures.world0.

(** An environment without a connection: every query is rejected. *)
Definition offline : Env :=
  let failed := {| Error.message := Some "Network request failed" |} in
  {| clock := fun _ => Fixtures.noon;
     Get_Device := fun _ _ => Rejects failed;
     Get_StatusData := fun _ _ _ _ _ => Rejects failed;
     Get_Trip := fun _ _ _ _ => Rejects failed;
     GetFeed := fun _ _ => FeedRejects failed |}.

(** * Properties *)

(** ** Binary64 figures *)

(** The figures are those of binary64, not of the decimals they are
    written with: [0.55 * 100] is above 55, [0.254 * 100 - 0.154 * 100]
    is below 10, [0.8 * 100] is 80, and 23 of 40 vehicles are 57 percent
    ([23 / 40 * 100] is just below 57.5). *)
Example binary64_figures :
  (JS.of_Z 55
   < Reading.level (FuelMonitor.to_reading (Fixtures.fuel_level "b1" 0 55 100)))%F
  /\ (Reading.level (FuelMonitor.to_reading (Fixtures.fuel_level "b1" 0 254 1000))
      - Reading.level (FuelMonitor.to_reading (Fixtures.fuel_level "b1" 0 154 1000))
      < JS.of_Z 10)%F
  /\ F64.val (Reading.level (FuelMonitor.to_reading (Fixtures.fuel_at "b1" 0 80)))
     = JS.of_Z 80
  /\ FuelMonitor.progress_percent 23 40 = JS.of_Z 57
  /\ JS.Math_round (JS.of_Z 5 / JS.of_Z 2)%F = JS.of_Z 3
  /\ JS.Math_round (JS.of_Z (-5) / JS.of_Z 2)%F = JS.of_Z (-2).
Proof. repeat split; vm_compute; reflexivity. Qed.

(** ** The order of binary64 numbers *)

(** The comparisons of [SpecFloat] order the sign, then the exponent, then
    the mantissa; the facts below hold of every representation, and those
    that need both sides to compare ask for numbers that are not [NaN]. *)
Ltac f64_order :=
  unfold F64.lt, F64.le, F64.ltb, F64.leb, SFltb, SFleb, SFcompare;
  repeat match goal with
         | x : F64.t |- _ => destruct x as [[]|[]| |[] ? ?]
         | x : spec_float |- _ => destruct x as [[]|[]| |[] ? ?]
         | x : F64.num |- _ => destruct x as [[]|[]|[] ? ?]
         end;
  simpl; try done;
  change (Pos.compare_cont Eq) with Pos.compare;
  repeat match goal with
         | |- context [Z.compare ?a ?b] => destruct (Z.compare_spec a b)
         | |- context [Pos.compare ?a ?b] => destruct (Pos.compare_spec a b)
         end;
  simpl; try done; try lia.

Ltac f64_compute := vm_compute; reflexivity.

Lemma f64_le_refl (x : F64.num) : (x <= x)%F.
Proof. f64_order. Qed.

Lemma f64_lt_le_weak (x y : F64.t) : (x < y)%F -> (x <= y)%F.
Proof. f64_order. Qed.

Lemma f64_not_lt_le (x y : F64.num) : ~ (x < y)%F -> (y <= x)%F.
Proof. f64_order; intros H; try done; by destruct H. Qed.

Lemma f64_lt_not_le (x y : F64.t) : (x < y)%F -> ~ (y <= x)%F.
Proof. f64_order. Qed.

Lemma f64_le_trans (x y z : F64.t) : (x <= y)%F -> (y <= z)%F -> (x <= z)%F.
Proof. f64_order. Qed.

Lemma f64_lt_le_trans (x y z : F64.t) : (x < y)%F -> (y <= z)%F -> (x < z)%F.
Proof. f64_order. Qed.

Lemma f64_le_lt_trans (x y z : F64.t) : (x <= y)%F -> (y < z)%F -> (x < z)%F.
Proof. f64_order. Qed.

(** ** Products are numbers *)

(** Rounding a non-negative mantissa never gives [NaN], so the product of
    a number that is not [NaN] with a finite number is not [NaN]. *)
Lemma shr_1_ok (r : shr_record) : 0 <= shr_m r -> 0 <= shr_m (shr_1 r).
Proof. destruct r as [[|[p|p|]|p] r s]; simpl; lia. Qed.

Lemma iter_shr_1_ok (n : positive) (r : shr_record) :
  0 <= shr_m r -> 0 <= shr_m (iter_pos shr_1 n r).
Proof.
  revert r. induction n as [n IH|n IH|]; intros r Hr; simpl.
  - by apply IH, IH, shr_1_ok.
  - by apply IH, IH.
  - by apply shr_1_ok.
Qed.

Lemma shr_fexp_ok (m e : Z) (l : location) :
  0 <= m -> 0 <= shr_m (shr_fexp F64.prec F64.emax m e l).1.
Proof.
  intros Hm. unfold shr_fexp, shr.
  assert (H0 : 0 <= shr_m (shr_record_of_loc m l)) by (by destruct l as [|[]]).
  destruct (fexp _ _ _ - e) as [|p|p]; simpl; [done | | done].
  by apply iter_shr_1_ok.
Qed.

Lemma round_nearest_even_ok (m : Z) (l : location) :
  0 <= m -> 0 <= round_nearest_even m l.
Proof. intros Hm. destruct l as [|[]]; simpl; try lia. destruct (Z.even m); lia. Qed.

Lemma binary_round_aux_not_nan (s : bool) (m e : Z) (l : location) :
  0 <= m -> binary_round_aux F64.prec F64.emax s m e l <> S754_nan.
Proof.
  intros Hm. unfold binary_round_aux.
  pose proof (shr_fexp_ok m e l Hm) as H1.
  destruct (shr_fexp F64.prec F64.emax m e l) as [r1 e1]. simpl in H1.
  pose proof (shr_fexp_ok (round_nearest_even (shr_m r1) (loc_of_shr_record r1)) e1
                loc_Exact (round_nearest_even_ok _ _ H1)) as H2.
  destruct (shr_fexp F64.prec F64.emax _ e1 loc_Exact) as [r2 e2]. simpl in H2.
  destruct (shr_m r2) as [|p|p]; [done | by destruct (_ <=? _) | lia].
Qed.

Lemma mul_finite_not_nan (x : F64.num) (s : bool) (m : positive) (e : Z) :
  (x * S754_finite s m e)%F <> S754_nan.
Proof.
  destruct x as [sx|sx|sx mx ex]; unfold F64.mul; simpl; try done.
  by apply binary_round_aux_not_nan.
Qed.

Lemma val_as_num (x : F64.t) : x <> S754_nan -> F64.val (F64.as_num x) = x.
Proof. by destruct x. Qed.

(** The level of a reading is the product the source stores. *)
Lemma to_reading_level (point : StatusData.t) :
  F64.val (Reading.level (FuelMonitor.to_reading point))
  = (StatusData.data point * JS.of_Z 100)%F.
Proof.
  unfold FuelMonitor.to_reading. simpl. apply val_as_num.
  change (JS.of_Z 100) with (S754_finite false 7036874417766400 (-46)).
  apply mul_finite_not_nan.
Qed.

(** ** Drop detector *)

Section DropDetectorFacts.
Import DropDetector Fixtures.

Lemma higher_cases (m r : Reading.t) :
  (higher m r = r /\ (Reading.level m < Reading.level r)%F)
  \/ (higher m r = m /\ (Reading.level r <= Reading.level m)%F).
Proof.
  unfold higher. case_bool_decide as H.
  - left. done.
  - right. split; [done | by apply f64_not_lt_le].
Qed.

(** The running maximum of [reduce] ends on the first reading that no
    reading exceeds: it sits at some index, dominates the whole list, and
    everything before it is strictly lower. *)
Lemma fold_higher_first_max (l : list Reading.t) (m : Reading.t) :
  exists i : nat,
    (m :: l) !! i = Some (fold_left higher l m)
    /\ dominates (m :: l) (fold_left higher l m)
    /\ forall (j : nat) (y : Reading.t),
         (m :: l) !! j = Some y -> (j < i)%nat ->
         (Reading.level y < Reading.level (fold_left higher l m))%F.
Proof.
  revert m. induction l as [|x l IH]; intros m.
  - exists 0%nat. simpl. split; [done|]. split.
    + apply Forall_cons. split; [apply f64_le_refl | apply Forall_nil_2].
    + intros j y _ Hj. lia.
  - simpl. destruct (higher_cases m x) as [[-> Hlt] | [-> Hle]].
    + destruct (IH x) as (i & Hi & Hdom & Hbefore).
      set (p := fold_left higher l x) in *.
      assert (Hxp : (Reading.level x <= Reading.level p)%F).
      { unfold dominates in Hdom. by apply Forall_cons in Hdom as [? _]. }
      exists (S i). split; [exact Hi|]. split.
      * apply Forall_cons. split; [|exact Hdom].
        apply f64_lt_le_weak. by eapply f64_lt_le_trans.
      * intros [|j] y Hy Hj; simpl in Hy.
        -- injection Hy as <-. by eapply f64_lt_le_trans.
        -- apply (Hbefore j y Hy). lia.
    + destruct (IH m) as (i & Hi & Hdom & Hbefore).
      set (p := fold_left higher l m) in *.
      assert (Hmp : (Reading.level m <= Reading.level p)%F).
      { unfold dominates in Hdom. by apply Forall_cons in Hdom as [? _]. }
      destruct i as [|i].
      * exists 0%nat. simpl in Hi. split; [exact Hi|]. split.
        -- unfold dominates in *. apply Forall_cons in Hdom as [H1 H2].
           apply Forall_cons. split; [exact H1|].
           apply Forall_cons. split; [by eapply f64_le_trans | exact H2].
        -- intros j y _ Hj. lia.
      * exists (S (S i)). simpl in Hi. split; [exact Hi|]. split.
        -- unfold dominates in *. apply Forall_cons in Hdom as [H1 H2].
           apply Forall_cons. split; [exact H1|].
           apply Forall_cons. split; [by eapply f64_le_trans | exact H2].
        -- assert (Hm : (Reading.level m < Reading.level p)%F).
           { apply (Hbefore 0%nat m); [done | lia]. }
           intros [|[|j]] y Hy Hj; simpl in Hy.
           ++ by injection Hy as <-.
           ++ injection Hy as <-. by eapply f64_le_lt_trans.
           ++ apply (Hbefore (S j) y); [exact Hy | lia].
Qed.

(** On a non-empty window the [reduce] of the code and the declarative
    peak of the specification pick the same reading. *)
Lemma reduce_is_first_seen_max (first : Reading.t) (rest : list Reading.t) :
  first_seen_max (first :: rest)
  = Some (fold_left higher (first :: rest) first).
Proof.
  assert (Hself : fold_left higher (first :: rest) first = fold_left higher rest first).
  { simpl. unfold higher at 2. case_bool_decide as H; [|done].
    exfalso. by apply f64_lt_not_le in H; apply H, f64_le_refl. }
  rewrite Hself.
  destruct (fold_higher_first_max rest first) as (i & Hi & Hdom & Hbefore).
  unfold first_seen_max.
  assert (Hfind : list_find (dominates (first :: rest)) (first :: rest)
                  = Some (i, fold_left higher rest first)).
  { apply list_find_Some. split; [exact Hi|]. split; [exact Hdom|].
    intros j y Hy Hj Hy_dom.
    specialize (Hbefore j y Hy Hj).
    unfold dominates in Hy_dom. rewrite Forall_forall in Hy_dom.
    assert (Hin : fold_left higher rest first ∈ first :: rest).
    { apply list_elem_of_lookup. by exists i. }
    specialize (Hy_dom _ Hin).
    by apply f64_lt_not_le in Hbefore. }
  by rewrite Hfind.
Qed.

Lemma detect_refines_reference (cfg : Config.t) (history : list Reading.t)
    (currentPoint : Reading.t) :
  detectSuspiciousDrop cfg history currentPoint
  = detect_reference (Config.dropThreshold cfg) (Config.timeWindowMinutes cfg)
      history currentPoint.
Proof.
  unfold detectSuspiciousDrop, detect_reference.
  set (tw := Config.timeWindowMinutes cfg).
  rewrite (list_filter_iff
             (in_window (Reading.timestamp currentPoint - tw * 60 * 1000) currentPoint)
             (fun r => Reading.timestamp currentPoint - tw * 60000 <= Reading.timestamp r
                       /\ Reading.timestamp r < Reading.timestamp currentPoint)).
  2: { intros x. unfold in_window. lia. }
  case_bool_decide as Hlen.
  - destruct history; [|done]. reflexivity.
  - match goal with |- context [filter ?P history] => destruct (filter P history) as [|first rest] end.
    + reflexivity.
    + rewrite reduce_is_first_seen_max.
      change (1000 * 60) with 60000.
      set (p := fold_left higher (first :: rest) first).
      case_bool_decide as H1; case_bool_decide as H2; simpl;
        case_decide as H3; try reflexivity; tauto.
Qed.

Lemma tie_break_example (t0 : Z) :
  detectSuspiciousDrop Config.default
    [reading t0 70; reading (t0 + minutes 5) 70] (reading (t0 + minutes 12) 55)
  = Some {| Detection.dropPercent := JS.of_Z 15;
            Detection.previousLevel := JS.of_Z 70;
            Detection.currentLevel := JS.of_Z 55;
            Detection.durationMinutes := JS.of_Z 12;
            Detection.previousTimestamp := t0 |}.
Proof.
  unfold detectSuspiciousDrop, minutes. simpl length.
  rewrite bool_decide_false by done.
  cbn [Reading.timestamp reading Config.default Config.timeWindowMinutes
       Config.dropThreshold].
  rewrite filter_cons_True by (unfold in_window; simpl; lia).
  rewrite filter_cons_True by (unfold in_window; simpl; lia).
  rewrite filter_nil.
  assert (Hmax : fold_left higher [reading t0 70; reading (t0 + 5 * 60 * 1000) 70]
                   (reading t0 70) = reading t0 70).
  { reflexivity. }
  rewrite Hmax. cbn [Reading.timestamp Reading.level reading].
  replace (t0 + 12 * 60 * 1000 - t0) with 720000 by lia.
  f64_compute.
Qed.

(** The declarative peak really is the first-seen maximum: nothing in the
    window exceeds it and every earlier reading is strictly lower; it is
    missing exactly when the window is empty. *)
Lemma first_seen_max_spec (recent : list Reading.t) (peak : Reading.t) :
  first_seen_max recent = Some peak ->
  exists i : nat,
    recent !! i = Some peak
    /\ (forall r, r ∈ recent -> (Reading.level r <= Reading.level peak)%F)
    /\ (forall (j : nat) (y : Reading.t), recent !! j = Some y -> (j < i)%nat ->
          (Reading.level y < Reading.level peak)%F).
Proof.
  destruct recent as [|first rest]; [done|].
  rewrite reduce_is_first_seen_max.
  assert (Hself : fold_left higher (first :: rest) first = fold_left higher rest first).
  { simpl. unfold higher at 2. case_bool_decide as H; [|done].
    exfalso. by apply f64_lt_not_le in H; apply H, f64_le_refl. }
  rewrite Hself. intros Heq. apply (inj Some) in Heq. subst peak.
  destruct (fold_higher_first_max rest first) as (i & Hi & Hdom & Hbefore).
  exists i. split; [exact Hi|]. split; [|exact Hbefore].
  unfold dominates in Hdom. rewrite Forall_forall in Hdom. exact Hdom.
Qed.

Lemma first_seen_max_none (recent : list Reading.t) :
  first_seen_max recent = None <-> recent = [].
Proof.
  split.
  - destruct recent as [|first rest]; [done|].
    by rewrite reduce_is_first_seen_max.
  - by intros ->.
Qed.

(** C1. For every configuration, history window and candidate reading,
    [detectSuspiciousDrop] returns what the reference algorithm of the
    specification returns: the readings of the window in
    [candidate - timeWindow, candidate), none if there is no such
    reading, otherwise the first-seen maximum as peak and a detection
    exactly when the drop reaches the threshold and the duration is
    within the window.  With two 70% readings at [t0] and [t0 + 5 min]
    and a 55% candidate at [t0 + 12 min], the peak is the reading at
    [t0] and the duration is 12 minutes. *)
Theorem detectSuspiciousDrop_is_reference :
  (forall (cfg : Config.t) (history : list Reading.t) (candidate : Reading.t),
      detectSuspiciousDrop cfg history candidate
      = detect_reference (Config.dropThreshold cfg) (Config.timeWindowMinutes cfg)
          history candidate)
  /\ (forall t0 : Z,
        detectSuspiciousDrop Config.default
          [reading t0 70; reading (t0 + minutes 5) 70] (reading (t0 + minutes 12) 55)
        = Some {| Detection.dropPercent := JS.of_Z 15;
                  Detection.previousLevel := JS.of_Z 70;
                  Detection.currentLevel := JS.of_Z 55;
                  Detection.durationMinutes := JS.of_Z 12;
                  Detection.previousTimestamp := t0 |}).
Proof.
  split.
  - apply detect_refines_reference.
  - apply tie_break_example.
Qed.

End DropDetectorFacts.

(** ** Severity classifier *)

Section SeverityFacts.
Import SeverityClassifier.

Lemma determineSeverity_first_match (d m : F64.t) :
  determineSeverity d m = first_match rules d m.
Proof. reflexivity. Qed.

Lemma determineSeverity_critical (d m : F64.t) :
  determineSeverity d m = "critical" <-> is_critical d m.
Proof.
  unfold determineSeverity, is_critical.
  repeat case_bool_decide; simpl; split; intros; try done; tauto.
Qed.

Lemma determineSeverity_high (d m : F64.t) :
  determineSeverity d m = "high" <-> ~ is_critical d m /\ is_high d m.
Proof.
  unfold determineSeverity, is_critical, is_high.
  repeat case_bool_decide; simpl; split; intros; try done; tauto.
Qed.

Lemma determineSeverity_medium (d m : F64.t) :
  determineSeverity d m = "medium" <-> ~ is_critical d m /\ ~ is_high d m.
Proof.
  unfold determineSeverity, is_critical, is_high.
  repeat case_bool_decide; simpl; split; intros; try done; tauto.
Qed.

Lemma determineSeverity_tiers (d m : F64.t) :
  determineSeverity d m ∈ ["critical"; "high"; "medium"].
Proof.
  unfold determineSeverity.
  repeat case_bool_decide; simpl; set_solver.
Qed.

(** C9. The classifier is the ordered rule table with first match
    winning: more than 25% in under 10 minutes is critical; otherwise
    more than 15% in under 20 minutes is high; otherwise medium.  Every
    result is one of the three tiers, and a 30% drop in 5 minutes is
    critical. *)
Theorem determineSeverity_ordered_rules :
  (forall d m : F64.t, determineSeverity d m = first_match rules d m)
  /\ (forall d m : F64.t, determineSeverity d m = "critical" <-> is_critical d m)
  /\ (forall d m : F64.t,
        determineSeverity d m = "high" <-> ~ is_critical d m /\ is_high d m)
  /\ (forall d m : F64.t,
        determineSeverity d m = "medium" <-> ~ is_critical d m /\ ~ is_high d m)
  /\ (forall d m : F64.t, determineSeverity d m ∈ ["critical"; "high"; "medium"])
  /\ determineSeverity (JS.of_Z 30) (JS.of_Z 5) = "critical".
Proof.
  split; [exact determineSeverity_first_match|].
  split; [exact determineSeverity_critical|].
  split; [exact determineSeverity_high|].
  split; [exact determineSeverity_medium|].
  split; [exact determineSeverity_tiers|].
  apply determineSeverity_critical. split; f64_compute.
Qed.

End SeverityFacts.

(** ** Deduplication gate and alert sink *)

Section AlertManagerFacts.
Import AlertManager.
Variable E : Env.

Lemma truthy_Z_true (t : Z) : t <> 0 -> JS.truthy_Z t = true.
Proof. intros H. unfold JS.truthy_Z. apply negb_true_iff, Z.eqb_neq, H. Qed.

Lemma isDuplicate_closed (d : AlertData.t) (w : World) :
  gate_closed E (AlertData.vehicleId d) w ->
  isDuplicate E d w = (Ok true, after_reads 1 w).
Proof.
  intros (t & Ht & Hnz & Hlt).
  unfold isDuplicate, bind, gets. rewrite Ht, (truthy_Z_true t Hnz).
  unfold Runtime.Date_now, ret. fold (next_clock E w).
  by rewrite bool_decide_true.
Qed.

Lemma isDuplicate_open (d : AlertData.t) (w : World) :
  ~ gate_closed E (AlertData.vehicleId d) w ->
  isDuplicate E d w
  = (Ok false, after_reads (gate_reads (AlertData.vehicleId d) w) w).
Proof.
  intros Hout. unfold isDuplicate, bind, gets, gate_reads.
  destruct (recentAlerts (am w) !! AlertData.vehicleId d) as [t|] eqn:Ht.
  - unfold JS.truthy_Z. destruct (Z.eqb_spec t 0) as [->|Hnz]; simpl.
    + unfold ret, after_reads. by destruct w as [? ? []].
    + unfold Runtime.Date_now, ret. fold (next_clock E w).
      rewrite bool_decide_false; [done|].
      intros Hlt. apply Hout. exists t. by rewrite Ht.
  - unfold ret, after_reads. by destruct w as [? ? []].
Qed.

(** The decision of the gate looks at the vehicle only. *)
Lemma isDuplicate_vehicle_only (d d' : AlertData.t) (w : World) :
  AlertData.vehicleId d = AlertData.vehicleId d' ->
  isDuplicate E d w = isDuplicate E d' w.
Proof. intros Hv. unfold isDuplicate. by rewrite Hv. Qed.

Lemma addAlert_rejects (d : AlertData.t) (w : World) :
  gate_closed E (AlertData.vehicleId d) w ->
  addAlert E d w = (Ok false, after_reads 1 w).
Proof.
  intros H. unfold addAlert, bind at 1. by rewrite (isDuplicate_closed d w H).
Qed.

Lemma addAlert_accepts (d : AlertData.t) (w : World) :
  ~ gate_closed E (AlertData.vehicleId d) w ->
  addAlert E d w = (Ok true, accepted E d (gate_reads (AlertData.vehicleId d) w) w).
Proof.
  intros H. unfold addAlert, bind at 1. rewrite (isDuplicate_open d w H).
  destruct w as [[al ctr rec] f [ls iv ni dl sm n nw ps]].
  reflexivity.
Qed.

Lemma gate_closed_dec (v : string) (w : World) :
  {gate_closed E v w} + {~ gate_closed E v w}.
Proof.
  unfold gate_closed.
  destruct (recentAlerts (am w) !! v) as [t|] eqn:Ht.
  - destruct (decide (t <> 0 /\ next_clock E w - t < DEDUP_WINDOW_MS)) as [[H1 H2]|Hn].
    + left. by exists t.
    + right. intros (t' & [= <-] & H1 & H2). by apply Hn.
  - right. by intros (t' & Hc & _).
Qed.

Lemma not_in_cooldown_open (v : string) (w : World) :
  ~ in_cooldown E v w -> ~ gate_closed E v w.
Proof. intros H (t & Ht & _ & Hlt). apply H. by exists t. Qed.

(** Every recorded instant is a reading of the wall clock, so it is
    non-zero as long as the clock never shows the epoch itself. *)
Lemma addAlert_recorded_nonzero (d : AlertData.t) (w : World) :
  (forall k, clock E k <> 0) ->
  (forall v t, recentAlerts (am w) !! v = Some t -> t <> 0) ->
  forall v t, recentAlerts (am (addAlert E d w).2) !! v = Some t -> t <> 0.
Proof.
  intros Hclock Hinv v t.
  destruct (gate_closed_dec (AlertData.vehicleId d) w) as [Hc|Ho].
  - rewrite (addAlert_rejects d w Hc). simpl. apply Hinv.
  - rewrite (addAlert_accepts d w Ho). simpl.
    destruct (decide (AlertData.vehicleId d = v)) as [->|Hne].
    + rewrite lookup_insert_eq. intros [= <-]. apply Hclock.
    + rewrite lookup_insert_ne by done. apply Hinv.
Qed.

(** After an accepted alert, what happens to the next alert of the same
    vehicle depends on the wall clock alone, whatever the two payloads
    say about their own time. *)
Lemma second_add_follows_wall_clock (d1 d2 : AlertData.t) (w : World) :
  AlertData.vehicleId d1 = AlertData.vehicleId d2 ->
  ~ gate_closed E (AlertData.vehicleId d1) w ->
  exists t : Z,
    recentAlerts (am (addAlert E d1 w).2) !! AlertData.vehicleId d2 = Some t
    /\ (t <> 0 -> next_clock E (addAlert E d1 w).2 - t < DEDUP_WINDOW_MS ->
        (addAlert E d2 (addAlert E d1 w).2).1 = Ok false)
    /\ (DEDUP_WINDOW_MS <= next_clock E (addAlert E d1 w).2 - t ->
        (addAlert E d2 (addAlert E d1 w).2).1 = Ok true).
Proof.
  intros Hv Hopen. rewrite (addAlert_accepts d1 w Hopen).
  set (w1 := accepted E d1 (gate_reads (AlertData.vehicleId d1) w) w).
  set (t := clock E (S (gate_reads (AlertData.vehicleId d1) w + clockReads (browser w)))).
  assert (Ht : recentAlerts (am w1) !! AlertData.vehicleId d2 = Some t).
  { rewrite <- Hv. unfold w1, accepted. simpl. apply lookup_insert_eq. }
  exists t. split; [exact Ht|]. split.
  - intros Hnz Hlt. cbn [snd] in *.
    rewrite (addAlert_rejects d2 w1); [done|]. by exists t.
  - intros Hge. cbn [snd] in *.
    rewrite (addAlert_accepts d2 w1); [done|].
    intros (t' & Ht' & _ & Hlt). rewrite Ht in Ht'. injection Ht' as <-. lia.
Qed.

(** An accepted alert is stamped with a reading of the wall clock. *)
Lemma accepted_alert_stamp (d : AlertData.t) (w : World) :
  ~ gate_closed E (AlertData.vehicleId d) w ->
  Alert.timestamp <$> head (alerts (am (addAlert E d w).2))
  = Some (clock E (gate_reads (AlertData.vehicleId d) w + clockReads (browser w))).
Proof. intros Hopen. by rewrite (addAlert_accepts d w Hopen). Qed.

End AlertManagerFacts.


(** ** The five-minute cooldown *)

Section DedupGate.
Import Fixtures.

(** C6. Per vehicle the gate enforces a five-minute cooldown from the last
    accepted alert.  An alert arriving within the cooldown is rejected:
    [addAlert] returns false and the alert list, the per-vehicle record
    and the id counter (the whole [AlertManager] state, the engine state
    and the storage) are unchanged.  An alert arriving outside the
    cooldown is accepted: [addAlert] returns true, the new alert heads the
    list with the next id, and a clock reading taken during the call is
    recorded for the vehicle.  Two events two minutes apart give one
    accepted and one rejected; six minutes apart, both are accepted.
    (Recorded instants are readings of [Date.now()], which are non-zero.) *)
Theorem dedup_gate_five_minute_cooldown :
  (forall (E : Env) (d : AlertData.t) (w : World) (t : Z),
      recentAlerts (am w) !! AlertData.vehicleId d = Some t -> t <> 0 ->
      next_clock E w - t < AlertManager.DEDUP_WINDOW_MS ->
      exists w' : World,
        AlertManager.addAlert E d w = (Ok false, w')
        /\ am w' = am w /\ fm w' = fm w
        /\ localStorage (browser w') = localStorage (browser w))
  /\ (forall (E : Env) (d : AlertData.t) (w : World),
        ~ in_cooldown E (AlertData.vehicleId d) w ->
        exists (w' : World) (a : Alert.t) (k : nat),
          AlertManager.addAlert E d w = (Ok true, w')
          /\ alerts (am w') = a :: alerts (am w)
          /\ Alert.id a = alertIdCounter (am w) + 1
          /\ alertIdCounter (am w') = alertIdCounter (am w) + 1
          /\ (clockReads (browser w) <= k < clockReads (browser w'))%nat
          /\ recentAlerts (am w')
             = <[AlertData.vehicleId d := clock E k]> (recentAlerts (am w)))
  /\ (let run := add_twice (gap_env (minutes 2)) (drop_of "b1") (drop_of "b1") world0 in
      run.1 = Ok (true, false) /\ length (alerts (am run.2)) = 1%nat)
  /\ (let run := add_twice (gap_env (minutes 6)) (drop_of "b1") (drop_of "b1") world0 in
      run.1 = Ok (true, true) /\ length (alerts (am run.2)) = 2%nat).
Proof.
  split; [|split; [|split]].
  - intros E d w t Ht Hnz Hlt.
    exists (after_reads 1 w). split; [|done].
    apply addAlert_rejects. by exists t.
  - intros E d w Hout.
    set (g := gate_reads (AlertData.vehicleId d) w).
    exists (accepted E d g w),
           (alert_of d (alertIdCounter (am w) + 1) (clock E (g + clockReads (browser w)))),
           (S (g + clockReads (browser w))).
    split; [by apply addAlert_accepts, not_in_cooldown_open|].
    simpl. repeat split; lia.
  - vm_compute. done.
  - vm_compute. done.
Qed.

Lemma dedup_gate_witness :
  let w1 := (AlertManager.addAlert (gap_env (minutes 2)) (drop_of "b1") world0).2 in
  (exists w' : World,
      AlertManager.addAlert (gap_env (minutes 2)) (drop_of "b1") w1 = (Ok false, w')
      /\ am w' = am w1 /\ fm w' = fm w1
      /\ localStorage (browser w') = localStorage (browser w1))
  /\ ~ in_cooldown (gap_env (minutes 6)) "b1" world0.
Proof.
  split.
  - apply (proj1 dedup_gate_five_minute_cooldown
             (gap_env (minutes 2)) (drop_of "b1") _ noon).
    + vm_compute. reflexivity.
    + vm_compute. discriminate.
    + vm_compute. reflexivity.
  - intros (t & Ht & _). vm_compute in Ht. discriminate.
Defined.

End DedupGate.

(** ** Historical replay and the alert sink *)

Section HistoricalAlerts.
Import Fixtures.

(** C10. The cooldown is measured on the processing wall clock: the gate
    ignores the payload's own timestamp, and after an accepted alert the
    next alert of the same vehicle is rejected when the wall clock is less
    than five minutes past the recorded instant and accepted when it is
    five minutes or more past it, whatever the payloads' timestamps.  In a
    historical replay, two qualifying drops three hours apart in the
    readings' time are counted twice but only the first reaches the sink
    when both are processed at the same wall-clock instant; two drops two
    minutes apart in the readings' time both reach the sink when the wall
    clock moves six minutes between them. *)
Theorem dedup_measured_on_wall_clock :
  (forall (E : Env) (d : AlertData.t) (timestamp : option Z) (h : option bool) (w : World),
      AlertManager.isDuplicate E (retag d timestamp h) w = AlertManager.isDuplicate E d w)
  /\ (forall (E : Env) (d1 d2 : AlertData.t) (w : World),
        AlertData.vehicleId d1 = AlertData.vehicleId d2 ->
        ~ in_cooldown E (AlertData.vehicleId d1) w ->
        exists t : Z,
          recentAlerts (am (AlertManager.addAlert E d1 w).2) !! AlertData.vehicleId d2
          = Some t
          /\ (t <> 0 ->
              next_clock E (AlertManager.addAlert E d1 w).2 - t
                < AlertManager.DEDUP_WINDOW_MS ->
              (AlertManager.addAlert E d2 (AlertManager.addAlert E d1 w).2).1 = Ok false)
          /\ (AlertManager.DEDUP_WINDOW_MS
                <= next_clock E (AlertManager.addAlert E d1 w).2 - t ->
              (AlertManager.addAlert E d2 (AlertManager.addAlert E d1 w).2).1 = Ok true))
  /\ (let run := FuelMonitor.analyzeVehicleHistory
                   (parked_fleet [truck] hours_apart (fun _ => noon))
                   truck past noon world0 in
      run.1 = Ok 2
      /\ map Alert.id (alerts (am run.2)) = [1]
      /\ recentAlerts (am run.2) !! "b1" = Some noon)
  /\ (let run := FuelMonitor.analyzeVehicleHistory
                   (parked_fleet [truck] minutes_apart
                      (stepping_clock 2 noon (minutes 6)))
                   truck past noon world0 in
      run.1 = Ok 2
      /\ map Alert.id (alerts (am run.2)) = [2; 1]
      /\ recentAlerts (am run.2) !! "b1" = Some (noon + minutes 6)).
Proof.
  split; [|split; [|split]].
  - intros E d ts h w. reflexivity.
  - intros E d1 d2 w Hv Hout.
    by apply second_add_follows_wall_clock, not_in_cooldown_open.
  - vm_compute. done.
  - vm_compute. done.
Qed.

(** C2. [addAlert] builds the alert record without looking at the
    payload's [timestamp] and [isHistorical] properties: the record has no
    historical flag, and its timestamp is the wall clock at the moment of
    the call.  For a historical run at wall-clock [noon] over one drop
    whose triggering reading was taken at [past + 10 min], the stored
    alert is stamped [noon]. *)
Theorem historical_alert_stamped_with_wall_clock :
  (forall (E : Env) (d : AlertData.t) (timestamp : option Z) (h : option bool) (w : World),
      AlertManager.addAlert E (retag d timestamp h) w = AlertManager.addAlert E d w)
  /\ (forall (E : Env) (d : AlertData.t) (w : World),
        ~ in_cooldown E (AlertData.vehicleId d) w ->
        Alert.timestamp <$> head (alerts (am (AlertManager.addAlert E d w).2))
        = Some (clock E (gate_reads (AlertData.vehicleId d) w + clockReads (browser w))))
  /\ (let run := FuelMonitor.analyzeVehicleHistory
                   (parked_fleet [truck; van] one_drop (fun _ => noon))
                   truck past noon world0 in
      run.1 = Ok 1
      /\ map Alert.timestamp (alerts (am run.2)) = [noon]
      /\ map StatusData.dateTime (one_drop "b1") = [past; past + minutes 10]
      /\ bool_decide (noon = past + minutes 10) = false).
Proof.
  split; [|split].
  - intros E d ts h w. reflexivity.
  - intros E d w Hout. by apply accepted_alert_stamp, not_in_cooldown_open.
  - vm_compute. done.
Qed.

End HistoricalAlerts.

(** ** Stationary check *)

Section StationaryFacts.
Import FuelMonitor.

Lemma logged_length (r : Request) (w : World) :
  length (network (browser (logged r w))) = S (length (network (browser w))).
Proof. unfold logged. simpl. rewrite length_app. simpl. lia. Qed.

Lemma logged_first (r : Request) (w : World) :
  take 1 (drop (length (network (browser w))) (network (browser (logged r w)))) = [r].
Proof. unfold logged. simpl. by rewrite drop_app_length. Qed.

Lemma logged_twice_first (r r' : Request) (w : World) :
  take 1 (drop (length (network (browser w)))
               (network (browser (logged r' (logged r w))))) = [r].
Proof. unfold logged. simpl. by rewrite <- app_assoc, drop_app_length. Qed.

Lemma api_Get_StatusData_run (E : Env) (deviceId diagnostic : string)
    (fromDate toDate : Z) (w : World) :
  Runtime.api_Get_StatusData E deviceId diagnostic fromDate toDate w
  = Runtime.settle
      (Get_StatusData E (length (network (browser w))) deviceId diagnostic fromDate toDate)
      (logged (ReqStatusData deviceId diagnostic fromDate toDate) w).
Proof. reflexivity. Qed.

Lemma api_Get_Trip_run (E : Env) (deviceId : string) (fromDate toDate : Z) (w : World) :
  Runtime.api_Get_Trip E deviceId fromDate toDate w
  = Runtime.settle
      (Get_Trip E (length (network (browser w))) deviceId fromDate toDate)
      (logged (ReqTrip deviceId fromDate toDate) w).
Proof. reflexivity. Qed.

Lemma ignition_on_evidence (rows : list StatusData.t) :
  ignition_on (Some rows) = true <-> ignition_evidence (Rows rows).
Proof.
  unfold ignition_on, ignition_evidence. split.
  - destruct (last rows) as [latest|] eqn:Hl; [|done].
    intros H%negb_true_iff. by exists rows, latest.
  - intros (rows' & latest & [= <-] & -> & Hd). by apply negb_true_iff.
Qed.

Lemma checkVehicleState_run (E : Env) (deviceId : string) (timestamp : Z) (w : World) :
  let fromDate := timestamp - 5 * 60 * 1000 in
  let w1 := logged (ReqStatusData deviceId DIAGNOSTIC_IGNITION fromDate timestamp) w in
  exists w' : World,
    checkVehicleState E deviceId timestamp w
    = (Ok (verdict (ignition_answer E deviceId timestamp w)
                   (trip_answer E deviceId timestamp w)), w')
    /\ (w' = w1 \/ w' = logged (ReqTrip deviceId fromDate timestamp) w1).
Proof.
  intros fromDate w1.
  unfold checkVehicleState, try_catch, bind at 1.
  rewrite api_Get_StatusData_run.
  unfold ignition_answer, trip_answer. fold fromDate. fold w1.
  destruct (Get_StatusData E (length (network (browser w))) deviceId
              DIAGNOSTIC_IGNITION fromDate timestamp) as [e| |rows];
    cbn [Runtime.settle throw ret verdict].
  - exists w1. split; [done | by left].
  - cbn [ignition_on]. unfold bind. rewrite api_Get_Trip_run.
    unfold w1 at 1. rewrite logged_length. fold w1.
    exists (logged (ReqTrip deviceId fromDate timestamp) w1).
    split; [|by right].
    by destruct (Get_Trip E (S (length (network (browser w)))) deviceId fromDate
                   timestamp) as [e'| |[|t rest]].
  - destruct (ignition_on (Some rows)).
    + exists w1. split; [done | by left].
    + unfold bind. rewrite api_Get_Trip_run.
      unfold w1 at 1. rewrite logged_length. fold w1.
      exists (logged (ReqTrip deviceId fromDate timestamp) w1).
      split; [|by right].
      by destruct (Get_Trip E (S (length (network (browser w)))) deviceId fromDate
                     timestamp) as [e'| |[|t rest]].
Qed.

Lemma verdict_false (ign : Response StatusData.t) (trips : Response Trip.t) :
  verdict ign trips = false <->
  ignition_evidence ign \/ (~ rejected ign /\ trip_evidence trips).
Proof.
  unfold verdict. destruct ign as [e| |rows].
  - split; [done|]. intros [(? & ? & ? & _)|[Hn _]]; [done|].
    exfalso. apply Hn. by exists e.
  - destruct trips as [e'| |[|t rest]].
    all: try (split; [done|]; intros [(? & ? & ? & _)|[_ (? & ? & ?)]]; done).
    split; [|done]. intros _. right. split; [by intros [? ?]|]. by exists t, rest.
  - destruct (ignition_on (Some rows)) eqn:Hon.
    + split; [|done]. intros _. left. by apply ignition_on_evidence.
    + assert (Hno : ~ ignition_evidence (Rows rows)).
      { intros H%ignition_on_evidence. congruence. }
      destruct trips as [e'| |[|t rest]].
      all: try (split; [done|]; intros [?|[_ (? & ? & ?)]]; done).
      split; [|done]. intros _. right. split; [by intros [? ?]|]. by exists t, rest.
Qed.

(** C5. The stationary check never throws.  It answers false exactly when
    the ignition query over [timestamp - 5 min, timestamp] resolved with a
    non-zero latest reading, or that query resolved without such a reading
    and the trip query over the same window resolved to some record.  So
    it answers true when a query it makes is rejected (fail open), and
    when both resolve without disqualifying evidence. *)
Theorem checkVehicleState_fails_open (E : Env) (deviceId : string) (timestamp : Z)
    (w : World) :
  exists (b : bool) (w' : World),
    checkVehicleState E deviceId timestamp w = (Ok b, w')
    /\ (b = false <->
          ignition_evidence (ignition_answer E deviceId timestamp w)
          \/ (~ rejected (ignition_answer E deviceId timestamp w)
              /\ trip_evidence (trip_answer E deviceId timestamp w)))
    /\ (rejected (ignition_answer E deviceId timestamp w) -> b = true)
    /\ (~ ignition_evidence (ignition_answer E deviceId timestamp w) ->
        rejected (trip_answer E deviceId timestamp w) -> b = true)
    /\ (~ ignition_evidence (ignition_answer E deviceId timestamp w) ->
        ~ trip_evidence (trip_answer E deviceId timestamp w) -> b = true)
    /\ take 1 (drop (length (network (browser w))) (network (browser w')))
       = [ReqStatusData deviceId DIAGNOSTIC_IGNITION (timestamp - 5 * 60 * 1000) timestamp].
Proof.
  destruct (checkVehicleState_run E deviceId timestamp w) as (w' & Hrun & Hw').
  set (ign := ignition_answer E deviceId timestamp w) in *.
  set (trips := trip_answer E deviceId timestamp w) in *.
  exists (verdict ign trips), w'.
  split; [exact Hrun|].
  split; [apply verdict_false|].
  assert (Htrue : forall P : Prop, ~ P -> (verdict ign trips = false <-> P) ->
                                   verdict ign trips = true).
  { intros P HnP Hiff. destruct (verdict ign trips); [done|]. exfalso. by apply HnP, Hiff. }
  split; [|split; [|split]].
  - intros [e He]. eapply Htrue; [|apply verdict_false].
    intros [(? & ? & ? & _)|[Hn _]]; [congruence|]. apply Hn. by exists e.
  - intros Hno [e He]. eapply Htrue; [|apply verdict_false].
    intros [?|[_ (? & ? & ?)]]; [done | congruence].
  - intros Hno Hnt. eapply Htrue; [|apply verdict_false].
    intros [?|[_ ?]]; done.
  - destruct Hw' as [-> | ->]; [apply logged_first | apply logged_twice_first].
Qed.

End StationaryFacts.

(** ** What the detection pipeline leaves alone, and that it returns *)

Section Frames.

Context {B : Type} (f : World -> B).

Lemma keeps_ret {A} (a : A) : keeps f (ret a).
Proof. by intros w. Qed.

Lemma keeps_throw {A} (e : Error.t) : keeps f (@throw A e).
Proof. by intros w. Qed.

Lemma keeps_gets {A} (g : World -> A) : keeps f (gets g).
Proof. by intros w. Qed.

Lemma keeps_modify (g : World -> World) :
  (forall w, f (g w) = f w) -> keeps f (modify g).
Proof. intros H w. apply H. Qed.

Lemma keeps_bind {A C} (m : M A) (k : A -> M C) :
  keeps f m -> (forall a, keeps f (k a)) -> keeps f (bind m k).
Proof.
  intros Hm Hk w. unfold bind. specialize (Hm w).
  destruct (m w) as [[a|e] w1]; simpl in *.
  - by rewrite Hk.
  - done.
Qed.

Lemma keeps_try_catch {A} (m : M A) (h : Error.t -> M A) :
  keeps f m -> (forall e, keeps f (h e)) -> keeps f (try_catch m h).
Proof.
  intros Hm Hh w. unfold try_catch. specialize (Hm w).
  destruct (m w) as [[a|e] w1]; simpl in *.
  - done.
  - by rewrite Hh.
Qed.

Lemma keeps_for_of {A} (xs : list A) (body : A -> M unit) :
  (forall x, keeps f (body x)) -> keeps f (for_of xs body).
Proof.
  intros Hb. induction xs as [|x xs IH]; simpl.
  - apply keeps_ret.
  - apply keeps_bind; [apply Hb | intros _; apply IH].
Qed.

Lemma returns_ret {A} (a : A) : returns (ret a).
Proof. intros w. by exists a. Qed.

Lemma returns_gets {A} (g : World -> A) : returns (gets g).
Proof. intros w. by eexists. Qed.

Lemma returns_modify (g : World -> World) : returns (modify g).
Proof. intros w. by exists tt. Qed.

Lemma returns_bind {A C} (m : M A) (k : A -> M C) :
  returns m -> (forall a, returns (k a)) -> returns (bind m k).
Proof.
  intros Hm Hk w. unfold bind. destruct (Hm w) as [a Ha].
  destruct (m w) as [[a'|e] w1]; simpl in *; [|done].
  apply Hk.
Qed.

Lemma returns_try_catch {A} (m : M A) (h : Error.t -> M A) :
  (forall e, returns (h e)) -> returns (try_catch m h).
Proof.
  intros Hh w. unfold try_catch.
  destruct (m w) as [[a|e] w1]; simpl.
  - by exists a.
  - apply Hh.
Qed.

Lemma returns_for_of {A} (xs : list A) (body : A -> M unit) :
  (forall x, returns (body x)) -> returns (for_of xs body).
Proof.
  intros Hb. induction xs as [|x xs IH]; simpl.
  - apply returns_ret.
  - apply returns_bind; [apply Hb | intros _; apply IH].
Qed.

End Frames.

(** One step of a frame proof: split a sequence, a handler or a loop, or
    take a branch apart. *)
Ltac frame_step :=
  match goal with
  | |- keeps _ (bind _ _) => apply keeps_bind; [|intros ?]
  | |- keeps _ (try_catch _ _) => apply keeps_try_catch; [|intros ?]
  | |- keeps _ (for_of _ _) => apply keeps_for_of; intros ?
  | |- keeps _ (ret _) => apply keeps_ret
  | |- keeps _ (throw _) => apply keeps_throw
  | |- keeps _ (gets _) => apply keeps_gets
  | |- keeps _ (modify _) => apply keeps_modify; intros [? ? []]; reflexivity
  | |- returns (bind _ _) => apply returns_bind; [|intros ?]
  | |- returns (try_catch _ _) => apply returns_try_catch; intros ?
  | |- returns (for_of _ _) => apply returns_for_of; intros ?
  | |- returns (ret _) => apply returns_ret
  | |- returns (gets _) => apply returns_gets
  | |- returns (modify _) => apply returns_modify
  | |- keeps _ (if ?b then _ else _) => destruct b
  | |- returns (if ?b then _ else _) => destruct b
  | |- keeps _ (match ?x with _ => _ end) => destruct x
  | |- returns (match ?x with _ => _ end) => destruct x
  end.

Ltac frame := repeat frame_step.

Section PipelineFrames.
Variable E : Env.

Lemma Date_now_keeps : keeps untouched (Runtime.Date_now E).
Proof. by intros [? ? []]. Qed.

Lemma Date_now_returns : returns (Runtime.Date_now E).
Proof. intros w. by eexists. Qed.

Lemma log_request_keeps (r : Request) : keeps untouched (Runtime.log_request r).
Proof. by intros [? ? []]. Qed.

Lemma settle_keeps {A} (r : Response A) : keeps untouched (Runtime.settle r).
Proof. destruct r; simpl; frame. Qed.

Lemma api_Get_StatusData_keeps (deviceId diagnostic : string) (fromDate toDate : Z) :
  keeps untouched (Runtime.api_Get_StatusData E deviceId diagnostic fromDate toDate).
Proof.
  unfold Runtime.api_Get_StatusData. frame;
    [apply log_request_keeps | apply settle_keeps].
Qed.

Lemma api_Get_Trip_keeps (deviceId : string) (fromDate toDate : Z) :
  keeps untouched (Runtime.api_Get_Trip E deviceId fromDate toDate).
Proof.
  unfold Runtime.api_Get_Trip. frame; [apply log_request_keeps | apply settle_keeps].
Qed.

Lemma localStorage_setItem_keeps (key : string) (v : Stored) :
  keeps untouched (Runtime.localStorage_setItem key v).
Proof. by intros [? ? []]. Qed.

Lemma localStorage_setItem_returns (key : string) (v : Stored) :
  returns (Runtime.localStorage_setItem key v).
Proof. intros w. by exists tt. Qed.

Lemma addAlert_keeps (d : AlertData.t) : keeps untouched (AlertManager.addAlert E d).
Proof.
  unfold AlertManager.addAlert, AlertManager.isDuplicate, AlertManager.saveAlerts.
  frame; solve [apply Date_now_keeps | apply localStorage_setItem_keeps].
Qed.

Lemma addAlert_returns (d : AlertData.t) : returns (AlertManager.addAlert E d).
Proof.
  unfold AlertManager.addAlert, AlertManager.isDuplicate, AlertManager.saveAlerts.
  frame; solve [apply Date_now_returns | apply localStorage_setItem_returns].
Qed.

Lemma checkVehicleState_keeps (deviceId : string) (timestamp : Z) :
  keeps untouched (FuelMonitor.checkVehicleState E deviceId timestamp).
Proof.
  unfold FuelMonitor.checkVehicleState.
  frame; solve [apply api_Get_StatusData_keeps | apply api_Get_Trip_keeps].
Qed.

Lemma checkVehicleState_returns (deviceId : string) (timestamp : Z) :
  returns (FuelMonitor.checkVehicleState E deviceId timestamp).
Proof. unfold FuelMonitor.checkVehicleState. frame. Qed.

Lemma store_history_keeps (deviceId : string) (history : list Reading.t) :
  keeps untouched (FuelMonitor.store_history deviceId history).
Proof. by intros [? [] ?]. Qed.

Lemma analyzeVehicleFuelData_keeps (deviceId : string) (points : list Reading.t) :
  keeps untouched (FuelMonitor.analyzeVehicleFuelData E deviceId points).
Proof.
  unfold FuelMonitor.analyzeVehicleFuelData, FuelMonitor.push_and_prune,
    FuelMonitor.pruneHistory.
  frame; solve [apply store_history_keeps | apply checkVehicleState_keeps
               | apply addAlert_keeps | apply Date_now_keeps].
Qed.

Lemma analyzeVehicleFuelData_returns (deviceId : string) (points : list Reading.t) :
  returns (FuelMonitor.analyzeVehicleFuelData E deviceId points).
Proof.
  unfold FuelMonitor.analyzeVehicleFuelData, FuelMonitor.push_and_prune,
    FuelMonitor.pruneHistory, FuelMonitor.store_history.
  frame; solve [apply checkVehicleState_returns | apply addAlert_returns
               | apply Date_now_returns].
Qed.

Lemma processFuelData_keeps (points : list StatusData.t) :
  keeps untouched (FuelMonitor.processFuelData E points).
Proof. unfold FuelMonitor.processFuelData. frame. apply analyzeVehicleFuelData_keeps. Qed.

Lemma processFuelData_returns (points : list StatusData.t) :
  returns (FuelMonitor.processFuelData E points).
Proof. unfold FuelMonitor.processFuelData. frame. apply analyzeVehicleFuelData_returns. Qed.

Lemma replay_keeps (vehicle : Device.t) (points : list StatusData.t)
    (history : list Reading.t) (alertCount : Z) :
  keeps untouched (FuelMonitor.replay E vehicle points history alertCount).
Proof.
  revert history alertCount. induction points as [|p points IH]; intros history n; simpl.
  - apply keeps_ret.
  - frame; solve [apply checkVehicleState_keeps | apply addAlert_keeps | apply IH].
Qed.

Lemma replay_returns (vehicle : Device.t) (points : list StatusData.t)
    (history : list Reading.t) (alertCount : Z) :
  returns (FuelMonitor.replay E vehicle points history alertCount).
Proof.
  revert history alertCount. induction points as [|p points IH]; intros history n; simpl.
  - apply returns_ret.
  - frame; solve [apply checkVehicleState_returns | apply addAlert_returns | apply IH].
Qed.

Lemma analyzeVehicleHistory_keeps (vehicle : Device.t) (fromDate toDate : Z) :
  keeps untouched (FuelMonitor.analyzeVehicleHistory E vehicle fromDate toDate).
Proof.
  unfold FuelMonitor.analyzeVehicleHistory.
  frame; solve [apply api_Get_StatusData_keeps | apply replay_keeps].
Qed.

Lemma analyzeVehicleHistory_returns (vehicle : Device.t) (fromDate toDate : Z) :
  returns (FuelMonitor.analyzeVehicleHistory E vehicle fromDate toDate).
Proof. unfold FuelMonitor.analyzeVehicleHistory. frame. Qed.

End PipelineFrames.

(** ** Feed cursor *)

Section CursorFacts.
Import FuelMonitor.

Lemma append_nil (b : string) : "" +:+ b = b.
Proof. reflexivity. Qed.

Lemma append_cons (c : Ascii.ascii) (a b : string) :
  String c a +:+ b = String c (a +:+ b).
Proof. reflexivity. Qed.

Lemma prefix_spec (a b : string) :
  String.prefix a b = true <-> exists post, b = a +:+ post.
Proof.
  revert b. induction a as [|c a IH]; intros b.
  - split; [intros _; exists b; reflexivity | intros _; by destruct b].
  - destruct b as [|c' b].
    { split; [done|]. intros [post H]. by rewrite append_cons in H. }
    change (String.prefix (String c a) (String c' b))
      with (if Ascii.ascii_dec c c' then String.prefix a b else false).
    destruct (Ascii.ascii_dec c c') as [->|Hne].
    + rewrite IH. split; intros [post H]; exists post.
      * by rewrite append_cons, H.
      * rewrite append_cons in H. congruence.
    + split; [done|]. intros [post H]. rewrite append_cons in H. congruence.
Qed.

Lemma includes_spec (needle hay : string) :
  JS.includes needle hay = true <-> contains needle hay.
Proof.
  unfold contains. induction hay as [|c hay IH]; cbn [JS.includes].
  - rewrite orb_false_r, prefix_spec. split.
    + intros [post H]. by exists "", post.
    + intros ([|? ?] & post & H); [by exists post | by rewrite append_cons in H].
  - rewrite orb_true_iff, prefix_spec, IH. split.
    + intros [[post H] | (pre & post & H)].
      * by exists "", post.
      * exists (String c pre), post. by rewrite append_cons, H.
    + intros ([|c' pre] & post & H).
      * left. by exists post.
      * right. exists pre, post. rewrite append_cons in H. congruence.
Qed.

Lemma mentions_version_spec (e : Error.t) :
  mentions_version e = true <-> names_version e.
Proof.
  unfold mentions_version, names_version.
  destruct (Error.message e) as [m|].
  - rewrite andb_true_iff, includes_spec. split.
    + intros [_ H]. by exists m.
    + intros (m' & [= <-] & H). split; [|done].
      destruct H as ([|? ?] & post & ->); done.
  - split; [done|]. by intros (? & ? & _).
Qed.

Lemma lowercase_app (a b : string) :
  lowercase (a +:+ b) = lowercase a +:+ lowercase b.
Proof.
  induction a as [|c a IH]; [done|].
  rewrite append_cons. cbn [lowercase]. by rewrite append_cons, IH.
Qed.

(** The errors the poller resets the cursor on are version mismatches. *)
Lemma names_version_mismatch (e : Error.t) : names_version e -> version_mismatch e.
Proof.
  intros (m & Hm & pre & post & ->). exists (pre +:+ "version" +:+ post).
  split; [exact Hm|]. exists (lowercase pre), (lowercase post).
  by rewrite !lowercase_app.
Qed.

Lemma api_GetFeed_run (E : Env) (call : FeedCall.t) (w : World) :
  Runtime.api_GetFeed E call w
  = match GetFeed E (length (network (browser w))) call with
    | FeedRejects e => (Throw e, logged (ReqFeed call) w)
    | FeedResolves r => (Ok r, logged (ReqFeed call) w)
    end.
Proof.
  unfold Runtime.api_GetFeed, bind, Runtime.log_request.
  by destruct (GetFeed E (length (network (browser w))) call).
Qed.

Lemma after_processing (E : Env) (points : list StatusData.t) (w : World) :
  exists w', processFuelData E points w = (Ok tt, w') /\ untouched w' = untouched w.
Proof.
  destruct (processFuelData_returns E points w) as [[] Hret].
  pose proof (processFuelData_keeps E points w) as Hkeep.
  destruct (processFuelData E points w) as [r w'] eqn:Hrun. simpl in *.
  exists w'. by subst r.
Qed.

Lemma untouched_feedToken (w w' : World) :
  untouched w' = untouched w -> feedToken (fm w') = feedToken (fm w).
Proof. unfold untouched. by intros [= -> _ _ _ _ _ _ _]. Qed.

Lemma pollForFuelData_run (E : Env) (w : World) :
  exists w' : World,
    pollForFuelData E w = (Ok tt, w')
    /\ feedToken (fm w')
       = match feed_answer E w with
         | FeedRejects e => if mentions_version e then None else feedToken (fm w)
         | FeedResolves r => FeedResult.toVersion r
         end.
Proof.
  unfold feed_answer, pollForFuelData, try_catch, bind at 1, gets, bind at 1.
  rewrite api_GetFeed_run.
  set (call := build_feedCall (feedToken (fm w))).
  destruct (GetFeed E (length (network (browser w))) call) as [e|r].
  - destruct (mentions_version e); by eexists.
  - unfold bind, modify.
    set (w2 := with_fm (set_feedToken (FeedResult.toVersion r)) (logged (ReqFeed call) w)).
    destruct (FeedResult.data r) as [[|p ps]|].
    + by exists w2.
    + destruct (after_processing E (p :: ps) w2) as (w' & Hrun & Hkeep).
      rewrite Hrun. exists w'. split; [done|].
      by rewrite (untouched_feedToken _ _ Hkeep).
    + by exists w2.
Qed.

(** C8, as the code has it.  A poll tick never throws.  If the feed
    fetch is rejected with an error whose message contains [version], in
    lower case as it stands, the cursor is reset to null, so the request
    built by the next tick carries no cursor; if it is rejected with any
    other error the cursor is unchanged; if it resolves, the cursor is the
    [toVersion] of the response, whatever the processing of the delivered
    readings does afterwards.  Every error of the first kind is a
    version mismatch, and [Incorrect version token] is one of them. *)
Theorem poll_tick_cursor (E : Env) (w : World) :
  exists w' : World,
    pollForFuelData E w = (Ok tt, w')
    /\ (forall e, feed_answer E w = FeedRejects e -> names_version e ->
          feedToken (fm w') = None
          /\ FeedCall.fromVersion (build_feedCall (feedToken (fm w'))) = None)
    /\ (forall e, feed_answer E w = FeedRejects e -> ~ names_version e ->
          feedToken (fm w') = feedToken (fm w))
    /\ (forall r, feed_answer E w = FeedResolves r ->
          feedToken (fm w') = FeedResult.toVersion r)
    /\ (forall e, names_version e -> version_mismatch e)
    /\ names_version {| Error.message := Some "Incorrect version token" |}
    /\ feedToken
         (fm (pollForFuelData
                (feed_rejects {| Error.message := Some "Incorrect version token" |})
                (polling_from "v1")).2) = None.
Proof.
  destruct (pollForFuelData_run E w) as (w' & Hrun & Htoken).
  exists w'. split; [exact Hrun|].
  split; [|split; [|split; [|split; [|split]]]].
  - intros e He Hv. rewrite He in Htoken.
    apply mentions_version_spec in Hv. rewrite Hv in Htoken.
    by rewrite Htoken.
  - intros e He Hv. rewrite He in Htoken.
    destruct (mentions_version e) eqn:Hm; [|done].
    by apply mentions_version_spec in Hm.
  - intros r Hr. by rewrite Hr in Htoken.
  - exact names_version_mismatch.
  - exists "Incorrect version token". split; [done|]. by exists "Incorrect ", " token".
  - reflexivity.
Qed.

(** A version mismatch worded otherwise does not reset the cursor: the
    feed rejects the call with [Invalid fromVersion], or with [Version
    conflict], and the tick leaves the cursor [v1] in place; the next call
    carries it again. *)
Lemma version_conflict_keeps_cursor :
  let e1 := {| Error.message := Some "Invalid fromVersion" |} in
  let e2 := {| Error.message := Some "Version conflict" |} in
  let run1 := pollForFuelData (feed_rejects e1) (polling_from "v1") in
  let run2 := pollForFuelData (feed_rejects e2) (polling_from "v1") in
  version_mismatch e1
  /\ feed_answer (feed_rejects e1) (polling_from "v1") = FeedRejects e1
  /\ run1.1 = Ok tt
  /\ feedToken (fm run1.2) = Some "v1"
  /\ FeedCall.fromVersion (build_feedCall (feedToken (fm run1.2))) = Some "v1"
  /\ version_mismatch e2
  /\ feed_answer (feed_rejects e2) (polling_from "v1") = FeedRejects e2
  /\ run2.1 = Ok tt
  /\ feedToken (fm run2.2) = Some "v1".
Proof.
  cbv zeta.
  split; [exists "Invalid fromVersion"; split; [done|]; by exists "invalid from", ""|].
  split; [reflexivity|]. split; [reflexivity|]. split; [reflexivity|].
  split; [reflexivity|].
  split; [exists "Version conflict"; split; [done|]; by exists "", " conflict"|].
  split; [reflexivity|]. split; reflexivity.
Qed.

(** The cursor travels in the request exactly when it is a non-empty
    token. *)
Lemma feedCall_cursor (token : option string) :
  FeedCall.fromVersion (build_feedCall token) = cursor_argument token.
Proof. reflexivity. Qed.

Example version_error_is_mismatch :
  mentions_version {| Error.message := Some "Incorrect version token" |} = true
  /\ mentions_version {| Error.message := Some "Network request failed" |} = false
  /\ mentions_version {| Error.message := Some "Invalid fromVersion" |} = false
  /\ mentions_version {| Error.message := Some "Version conflict" |} = false
  /\ mentions_version {| Error.message := None |} = false.
Proof. by vm_compute. Qed.

End CursorFacts.

(** ** Configuration updates *)

Section ConfigFacts.
Import Fixtures.

Lemma invalid_outside (x : option Z) (lo hi : Z) :
  Main.invalid x lo hi = true <-> outside lo hi x.
Proof.
  unfold Main.invalid, outside. destruct x as [v|]; [|done].
  rewrite orb_true_iff, !bool_decide_eq_true. lia.
Qed.

(** What [updateConfig] does with the values it is given. *)
Lemma updateConfig_run (newConfig : NewConfig.t) (w : World) :
  FuelMonitor.updateConfig newConfig w
  = (Ok tt,
     let c := FuelMonitor.merge_config (config (fm w)) newConfig in
     let w1 :=
       with_browser (fun b =>
           set_localStorage (<["fuelMonitorConfig" := StoredConfig c]> (localStorage b)) b)
         (with_fm (set_config c) w) in
     if FuelMonitor.wants_reschedule (isMonitoring (fm w)) newConfig then
       with_fm (set_pollInterval (Some (nextInterval (browser w))))
         (with_browser (fun b =>
            set_intervals
              (<[nextInterval b := Config.pollIntervalSeconds c * 1000]>
                 (match pollInterval (fm w) with
                  | Some h => delete h (intervals b)
                  | None => intervals b
                  end))
              (S (nextInterval b)) b) w1)
     else w1).
Proof.
  unfold FuelMonitor.updateConfig, FuelMonitor.saveConfig, bind, modify, gets,
    Runtime.localStorage_setItem, modify.
  destruct w as [a [monitoring handle token cache history c] b].
  cbn [with_fm fm isMonitoring pollInterval set_config with_browser config].
  destruct (FuelMonitor.wants_reschedule monitoring newConfig); [|done].
  by destruct handle.
Qed.

(** C3, as the code has it.  A configuration update requested through the
    settings dialog whose values are out of the allowed ranges (threshold
    outside 1..50, time window outside 5..120, polling interval outside
    10..300, or not a number) is rejected by the dialog before the engine
    is touched: the configuration and every other engine variable are as
    before, nothing is written to storage, and no timer is cleared or
    created.  The engine's own [updateConfig] makes no range check:
    whatever values it is given, it returns, the configuration is the old
    one overwritten with them, that configuration is what is stored, and,
    when monitoring is on and an interval other than 0 is given, the poll
    timer is replaced by one with the new period. *)
Theorem saveSettings_rejects_out_of_range (form : Main.Form) (w : World) :
  out_of_range form ->
  (exists w' : World,
     Main.saveSettings form w = (Ok tt, w')
     /\ config (fm w') = config (fm w)
     /\ fm w' = fm w
     /\ am w' = am w
     /\ localStorage (browser w') = localStorage (browser w)
     /\ intervals (browser w') = intervals (browser w)
     /\ nextInterval (browser w') = nextInterval (browser w))
  /\ forall newConfig : NewConfig.t,
       exists w' : World,
         FuelMonitor.updateConfig newConfig w = (Ok tt, w')
         /\ config (fm w') = FuelMonitor.merge_config (config (fm w)) newConfig
         /\ localStorage (browser w') !! "fuelMonitorConfig"
            = Some (StoredConfig (config (fm w')))
         /\ (forall seconds : Z,
               isMonitoring (fm w) = true ->
               NewConfig.pollIntervalSeconds newConfig = Some seconds ->
               seconds <> 0 ->
               pollInterval (fm w') = Some (nextInterval (browser w))
               /\ intervals (browser w') !! nextInterval (browser w)
                  = Some (seconds * 1000)).
Proof.
  intros Hout. split.
  - unfold Main.saveSettings.
    destruct (Main.invalid (Main.threshold form) 1 50) eqn:H1.
    { eexists. split; [reflexivity|]. by destruct w as [? ? []]. }
    destruct (Main.invalid (Main.timeWindow form) 5 120) eqn:H2.
    { eexists. split; [reflexivity|]. by destruct w as [? ? []]. }
    destruct (Main.invalid (Main.pollInterval form) 10 300) eqn:H3.
    { eexists. split; [reflexivity|]. by destruct w as [? ? []]. }
    exfalso. destruct Hout as [H|[H|H]]; apply invalid_outside in H; congruence.
  - intros newConfig. rewrite updateConfig_run. eexists. split; [reflexivity|].
    destruct w as [a [monitoring handle token cache history c] b].
    cbn [fm config isMonitoring pollInterval browser nextInterval].
    destruct (FuelMonitor.wants_reschedule monitoring newConfig) eqn:Hwants.
    + split; [by destruct b|]. split; [destruct b; simpl; by rewrite lookup_insert_eq|].
      intros seconds -> Hs _. split; [by destruct b|].
      destruct b. simpl. rewrite Hs. by rewrite lookup_insert_eq.
    + split; [by destruct b|]. split; [destruct b; simpl; by rewrite lookup_insert_eq|].
      intros seconds -> Hs Hne. exfalso.
      unfold FuelMonitor.wants_reschedule in Hwants. rewrite Hs in Hwants.
      simpl in Hwants. unfold JS.truthy_Z in Hwants.
      apply negb_false_iff, Z.eqb_eq in Hwants. done.
Qed.

Lemma saveSettings_rejects_witness :
  out_of_range zero_threshold
  /\ (exists w' : World,
        Main.saveSettings zero_threshold monitoring = (Ok tt, w')
        /\ config (fm w') = config (fm monitoring)
        /\ fm w' = fm monitoring
        /\ am w' = am monitoring
        /\ localStorage (browser w') = localStorage (browser monitoring)
        /\ intervals (browser w') = intervals (browser monitoring)
        /\ nextInterval (browser w') = nextInterval (browser monitoring))
  /\ forall newConfig : NewConfig.t,
       exists w' : World,
         FuelMonitor.updateConfig newConfig monitoring = (Ok tt, w')
         /\ config (fm w')
            = FuelMonitor.merge_config (config (fm monitoring)) newConfig
         /\ localStorage (browser w') !! "fuelMonitorConfig"
            = Some (StoredConfig (config (fm w')))
         /\ (forall seconds : Z,
               isMonitoring (fm monitoring) = true ->
               NewConfig.pollIntervalSeconds newConfig = Some seconds ->
               seconds <> 0 ->
               pollInterval (fm w') = Some (nextInterval (browser monitoring))
               /\ intervals (browser w') !! nextInterval (browser monitoring)
                  = Some (seconds * 1000)).
Proof.
  assert (H : out_of_range zero_threshold).
  { left. simpl. lia. }
  split; [exact H|].
  exact (saveSettings_rejects_out_of_range zero_threshold monitoring H).
Defined.

(** Given to the engine directly, values out of every range are applied:
    with monitoring on, [updateConfig] with a threshold of 0, a window of
    500 minutes and an interval of 5 seconds returns, the configuration
    holds those values, they are stored, and the 30-second poll timer is
    replaced by one of 5 seconds. *)
Lemma updateConfig_applies_out_of_range :
  let requested := {| NewConfig.dropThreshold := Some 0;
                      NewConfig.timeWindowMinutes := Some 500;
                      NewConfig.pollIntervalSeconds := Some 5 |} in
  let applied := {| Config.dropThreshold := 0; Config.timeWindowMinutes := 500;
                    Config.pollIntervalSeconds := 5 |} in
  let run := FuelMonitor.updateConfig requested monitoring in
  config (fm monitoring) = Config.default
  /\ localStorage (browser monitoring) !! "fuelMonitorConfig" = None
  /\ intervals (browser monitoring) = {[ 0%nat := 30000 ]}
  /\ run.1 = Ok tt
  /\ config (fm run.2) = applied
  /\ localStorage (browser run.2) !! "fuelMonitorConfig" = Some (StoredConfig applied)
  /\ pollInterval (fm run.2) = Some 1%nat
  /\ intervals (browser run.2) = {[ 1%nat := 5000 ]}.
Proof. vm_compute. done. Qed.

(** In range, the same dialog does apply the update: the configuration is
    replaced and persisted, and a running poll timer is replaced by one
    with the new period. *)
Lemma saveSettings_applies_in_range :
  let form := {| Main.threshold := Some 15; Main.timeWindow := Some 45;
                 Main.pollInterval := Some 60; Main.soundEnabled := true;
                 Main.browserNotifications := false |} in
  let w' := (Main.saveSettings form monitoring).2 in
  config (fm w')
  = {| Config.dropThreshold := 15; Config.timeWindowMinutes := 45;
       Config.pollIntervalSeconds := 60 |}
  /\ localStorage (browser w') !! "fuelMonitorConfig" = Some (StoredConfig (config (fm w')))
  /\ pollInterval (fm w') = Some 1%nat
  /\ intervals (browser w') = {[ 1%nat := 60000 ]}.
Proof. vm_compute. done. Qed.

(** The engine's own [updateConfig] makes no range check: validation is
    the dialog's. *)
Lemma updateConfig_applies_what_it_gets :
  config (fm (FuelMonitor.updateConfig
                {| NewConfig.dropThreshold := Some 0;
                   NewConfig.timeWindowMinutes := None;
                   NewConfig.pollIntervalSeconds := None |} world0).2)
  = {| Config.dropThreshold := 0; Config.timeWindowMinutes := 30;
       Config.pollIntervalSeconds := 30 |}.
Proof. reflexivity. Qed.

End ConfigFacts.

(** ** History windows *)

Section HistoryFacts.
Import FuelMonitor Fixtures.

Lemma shift_while_older_suffix (horizon : Z) (history : list Reading.t) :
  exists evicted, history = evicted ++ shift_while_older horizon history.
Proof.
  induction history as [|h rest [ev IH]]; simpl.
  - by exists [].
  - case_bool_decide.
    + exists (h :: ev). simpl. by rewrite <- IH.
    + by exists [].
Qed.

Lemma shift_while_older_head (horizon : Z) (history : list Reading.t) (x : Reading.t)
    (rest : list Reading.t) :
  shift_while_older horizon history = x :: rest -> horizon <= Reading.timestamp x.
Proof.
  induction history as [|h hs IH]; simpl; [done|].
  case_bool_decide as Hlt; [exact IH|].
  intros [= <- _]. lia.
Qed.

Lemma shift_while_longer_suffix (cap : nat) (history : list Reading.t) :
  exists evicted, history = evicted ++ shift_while_longer cap history.
Proof.
  induction history as [|h rest [ev IH]]; simpl.
  - by exists [].
  - case_bool_decide.
    + exists (h :: ev). simpl. by rewrite <- IH.
    + by exists [].
Qed.

Lemma shift_while_longer_length (cap : nat) (history : list Reading.t) :
  (length (shift_while_longer cap history) <= cap)%nat.
Proof.
  induction history as [|h rest IH]; simpl; [lia|].
  case_bool_decide; [exact IH | simpl in *; lia].
Qed.

Lemma in_order_suffix (evicted kept : list Reading.t) :
  in_order (evicted ++ kept) -> in_order kept.
Proof.
  unfold in_order. induction evicted as [|e ev IH]; simpl; [done|].
  intros H. apply StronglySorted_inv in H as [H _]. by apply IH.
Qed.

Lemma in_order_above_head (x : Reading.t) (rest : list Reading.t) (z : Z) :
  in_order (x :: rest) -> z <= Reading.timestamp x ->
  Forall (fun r => z <= Reading.timestamp r) (x :: rest).
Proof.
  intros H Hz. apply StronglySorted_inv in H as [_ H].
  apply Forall_cons. split; [done|].
  eapply Forall_impl; [exact H|]. simpl. intros r Hr. lia.
Qed.

Lemma pruneHistory_at_length (now : Z) (history : list Reading.t) :
  (length (pruneHistory_at now history) <= 500)%nat.
Proof. apply shift_while_longer_length. Qed.

Lemma pruneHistory_at_suffix (now : Z) (history : list Reading.t) :
  exists evicted, history = evicted ++ pruneHistory_at now history.
Proof.
  unfold pruneHistory_at.
  destruct (shift_while_older_suffix (now - 2 * 60 * 60 * 1000) history) as [ev1 H1].
  destruct (shift_while_longer_suffix 500
              (shift_while_older (now - 2 * 60 * 60 * 1000) history)) as [ev2 H2].
  exists (ev1 ++ ev2). rewrite <- app_assoc, <- H2. exact H1.
Qed.

Lemma pruneHistory_at_recent (now : Z) (history : list Reading.t) :
  in_order history ->
  Forall (fun r => now - 2 * 60 * 60 * 1000 <= Reading.timestamp r)
         (pruneHistory_at now history).
Proof.
  intros Hord. unfold pruneHistory_at.
  set (horizon := now - 2 * 60 * 60 * 1000).
  destruct (shift_while_older_suffix horizon history) as [ev1 H1].
  destruct (shift_while_older horizon history) as [|x rest] eqn:Hold.
  - simpl. apply Forall_nil_2.
  - assert (Hall : Forall (fun r => horizon <= Reading.timestamp r) (x :: rest)).
    { apply in_order_above_head.
      - rewrite H1 in Hord. by apply in_order_suffix in Hord.
      - by apply (shift_while_older_head horizon history x rest). }
    destruct (shift_while_longer_suffix 500 (x :: rest)) as [ev2 H2].
    rewrite H2 in Hall. by apply Forall_app in Hall as [_ ?].
Qed.

Lemma push_and_prune_run (E : Env) (deviceId : string) (currentPoint : Reading.t)
    (w : World) :
  history_of deviceId (push_and_prune E deviceId currentPoint w).2
  = pruneHistory_at (clock E (clockReads (browser w)))
      (history_of deviceId w ++ [currentPoint]).
Proof.
  unfold push_and_prune, bind, gets, pruneHistory, bind, Runtime.Date_now, ret,
    store_history, modify, history_of. simpl.
  by rewrite lookup_insert_eq.
Qed.

(** C7, as the code has it.  After every append-and-prune step the window
    holds at most 500 entries and is what is left of the appended window
    after evicting from its front; if the appended window is in timestamp
    order, no entry that remains is more than two hours older than the
    wall clock read by the step.  Of 600 readings one minute apart, the
    last 500 remain when none of them is that old (wall clock at the first
    reading); appended as they are taken, the last 121 remain, and so do
    the last 121 of 300 such readings, although their count is under 500. *)
Theorem history_window_bounds (E : Env) (deviceId : string) (currentPoint : Reading.t)
    (w : World) :
  let now := clock E (clockReads (browser w)) in
  let appended := history_of deviceId w ++ [currentPoint] in
  let kept := history_of deviceId (push_and_prune E deviceId currentPoint w).2 in
  (length kept <= 500)%nat
  /\ (exists evicted, appended = evicted ++ kept)
  /\ (in_order appended ->
      Forall (fun r => now - 2 * 60 * 60 * 1000 <= Reading.timestamp r) kept)
  /\ window_after noon (every_minute noon 600) = drop 100 (every_minute noon 600)
  /\ window_live noon 600 = drop 479 (every_minute noon 600)
  /\ window_live noon 300 = drop 179 (every_minute noon 300).
Proof.
  intros now appended kept. unfold kept. rewrite push_and_prune_run.
  fold now. fold appended.
  split; [apply pruneHistory_at_length|].
  split; [apply pruneHistory_at_suffix|].
  split; [apply pruneHistory_at_recent|].
  split; [|split]; vm_compute; reflexivity.
Qed.

(** Appended as they are taken, 600 readings one minute apart leave 121
    entries, not 500: the two-hour horizon is the stricter bound. *)
Lemma window_600_live_leaves_121 :
  length (window_live noon 600) = 121%nat
  /\ length (window_after (noon + minutes 599) (every_minute noon 600)) = 121%nat.
Proof. split; vm_compute; reflexivity. Qed.

(** A reading that arrives late, behind a newer one, is not evicted by
    age: the loop stops at the first entry that is recent enough. *)
Lemma stale_reading_survives_out_of_order :
  let fresh := reading noon 50 in
  let stale := reading (noon - minutes 180) 50 in
  pruneHistory_at noon ([fresh] ++ [stale]) = [fresh; stale].
Proof. reflexivity. Qed.

End HistoryFacts.

(** ** Historical batch analysis *)

Section HistoricalBatch.
Import FuelMonitor Fixtures.

Lemma recording_run (message : string) (percent : F64.t) (w : World) :
  recording message percent w = (Ok tt, seen message percent w).
Proof. reflexivity. Qed.

Lemma progress_percent_half : progress_percent 1 2 = JS.of_Z 50.
Proof. vm_compute. reflexivity. Qed.

Lemma progress_percent_full : progress_percent 2 2 = JS.of_Z 100.
Proof. vm_compute. reflexivity. Qed.

Lemma analyzeVehicleHistory_ok (E : Env) (v : Device.t) (fromDate toDate : Z) (w : World) :
  exists n w',
    analyzeVehicleHistory E v fromDate toDate w = (Ok n, w')
    /\ progressSeen (browser w') = progressSeen (browser w).
Proof.
  destruct (analyzeVehicleHistory_returns E v fromDate toDate w) as [n Hn].
  pose proof (analyzeVehicleHistory_keeps E v fromDate toDate w) as Hk.
  destruct (analyzeVehicleHistory E v fromDate toDate w) as [r w'].
  simpl in *. subst r. exists n, w'. split; [done|].
  unfold untouched in Hk. by injection Hk.
Qed.

(** One turn of the loop over the fleet, with the recording callback. *)
Lemma each_vehicle_cons (E : Env) (fromDate toDate total : Z) (v : Device.t)
    (rest : list Device.t) (processed totalAlerts : Z) (w w1 : World) (found : Z) :
  analyzeVehicleHistory E v fromDate toDate w = (Ok found, w1) ->
  each_vehicle E fromDate toDate (Some recording) total (v :: rest)
    processed totalAlerts w
  = each_vehicle E fromDate toDate (Some recording) total rest
      (processed + 1) (totalAlerts + found)
      (seen (progress_message v (processed + 1) total)
            (progress_percent (processed + 1) total) w1).
Proof.
  intros Hrun. cbn [each_vehicle].
  unfold bind at 1, try_catch at 1, bind at 1. rewrite Hrun.
  cbn [ret]. unfold bind at 1, try_catch at 1, notify.
  by rewrite recording_run.
Qed.

(** The whole batch once the vehicle registry is loaded, with the
    recording callback. *)
Lemma analyzeHistoricalData_loaded (E : Env) (fromDate toDate : Z) (w w1 : World)
    (v : Device.t) (vs : list Device.t) (found : Z) :
  vehicleCache (fm w) = v :: vs ->
  let total := Z.of_nat (length (v :: vs)) in
  each_vehicle E fromDate toDate (Some recording) total (v :: vs) 0 0
    (seen ("Analyzing " +:+ pretty total +:+ " vehicles...") (JS.of_Z 0) w) = (Ok found, w1) ->
  analyzeHistoricalData E fromDate toDate (Some recording) w
  = (Ok found,
     seen ("Analysis complete. Found " +:+ pretty found +:+ " potential theft events.")
          (JS.of_Z 100) w1).
Proof.
  intros Hcache total Hloop.
  unfold analyzeHistoricalData, try_catch, bind at 1, gets.
  rewrite Hcache. rewrite bool_decide_false by done.
  unfold bind at 1, ret at 1. unfold bind at 1. rewrite Hcache.
  unfold bind at 1, notify at 1. rewrite recording_run.
  fold total. unfold bind at 1. rewrite Hloop.
  unfold bind at 1, notify at 1. by rewrite recording_run.
Qed.

(** The status lines and percentages reported after each vehicle of
    [vehicles], when [processed] vehicles were done before. *)
Lemma each_vehicle_progress (E : Env) (fromDate toDate total : Z)
    (vehicles : list Device.t) (processed totalAlerts : Z) (w : World) :
  exists found w',
    each_vehicle E fromDate toDate (Some recording) total vehicles
      processed totalAlerts w = (Ok found, w')
    /\ progressSeen (browser w')
       = progressSeen (browser w)
         ++ imap (fun i v =>
                    (progress_message v (processed + 1 + Z.of_nat i) total,
                     progress_percent (processed + 1 + Z.of_nat i) total)) vehicles.
Proof.
  revert processed totalAlerts w.
  induction vehicles as [|v rest IH]; intros processed totalAlerts w.
  - exists totalAlerts, w. split; [done|]. simpl. by rewrite app_nil_r.
  - destruct (analyzeVehicleHistory_ok E v fromDate toDate w) as (n & w1 & Hrun & Hseen).
    rewrite (each_vehicle_cons E fromDate toDate total v rest processed totalAlerts
               w w1 n Hrun).
    destruct (IH (processed + 1) (totalAlerts + n)
                 (seen (progress_message v (processed + 1) total)
                       (progress_percent (processed + 1) total) w1))
      as (found & w' & Hloop & Hlog).
    exists found, w'. split; [exact Hloop|].
    rewrite Hlog. simpl. rewrite Hseen, <- app_assoc. simpl.
    replace (processed + 1 + Z.of_nat 0) with (processed + 1) by lia.
    do 2 f_equal. apply imap_ext. intros i x _. simpl.
    by replace (processed + 1 + 1 + Z.of_nat i)
         with (processed + 1 + Z.of_nat (S i)) by lia.
Qed.

(** For any loaded fleet of N vehicles the batch returns and the callback
    is invoked N + 2 times. *)
Lemma analyzeHistoricalData_invocations (E : Env) (fromDate toDate : Z) (w : World)
    (v : Device.t) (vs : list Device.t) :
  vehicleCache (fm w) = v :: vs ->
  exists found w' reports,
    analyzeHistoricalData E fromDate toDate (Some recording) w = (Ok found, w')
    /\ progressSeen (browser w') = progressSeen (browser w) ++ reports
    /\ length reports = (length (v :: vs) + 2)%nat
    /\ head reports = Some ("Analyzing " +:+ pretty (Z.of_nat (length (v :: vs)))
                              +:+ " vehicles...", JS.of_Z 0)
    /\ last reports = Some ("Analysis complete. Found " +:+ pretty found
                              +:+ " potential theft events.", JS.of_Z 100).
Proof.
  intros Hcache.
  set (total := Z.of_nat (length (v :: vs))).
  set (w0 := seen ("Analyzing " +:+ pretty total +:+ " vehicles...") (JS.of_Z 0) w).
  destruct (each_vehicle_progress E fromDate toDate total (v :: vs) 0 0 w0)
    as (found & w1 & Hloop & Hlog).
  set (per_vehicle :=
         imap (fun (i : nat) (x : Device.t) =>
                 (progress_message x (0 + 1 + Z.of_nat i) total,
                  progress_percent (0 + 1 + Z.of_nat i) total)) (v :: vs)) in *.
  set (first_line := ("Analyzing " +:+ pretty total +:+ " vehicles...", JS.of_Z 0)).
  set (last_line := ("Analysis complete. Found " +:+ pretty found
                       +:+ " potential theft events.", JS.of_Z 100)).
  exists found,
         (seen ("Analysis complete. Found " +:+ pretty found
                  +:+ " potential theft events.") (JS.of_Z 100) w1),
         (first_line :: per_vehicle ++ [last_line]).
  split; [by apply (analyzeHistoricalData_loaded E fromDate toDate w w1 v vs found)|].
  split; [|split; [|split]].
  - change (progressSeen (browser w1) ++ [last_line]
            = progressSeen (browser w) ++ first_line :: per_vehicle ++ [last_line]).
    rewrite Hlog.
    change (progressSeen (browser w0)) with (progressSeen (browser w) ++ [first_line]).
    by rewrite <- !app_assoc.
  - change (length (first_line :: per_vehicle ++ [last_line]))
      with (S (length (per_vehicle ++ [last_line]))).
    rewrite length_app. unfold per_vehicle. rewrite length_imap. simpl. lia.
  - reflexivity.
  - change (first_line :: per_vehicle ++ [last_line])
      with ((first_line :: per_vehicle) ++ [last_line]).
    apply last_snoc.
Qed.

(** C4, as the code has it.  For a two-vehicle fleet whose first vehicle
    yields one qualifying, stationary-verified drop and whose second
    yields none, the batch returns 1 and invokes the progress callback
    four times: once before the first vehicle with 0%, once after each
    vehicle with [round(processed / total * 100)] (50%, then 100%) and a
    status line naming the vehicle, and once on completion with 100%. *)
Theorem two_vehicle_history_progress (E : Env) (fromDate toDate : Z) (w : World)
    (a b : Device.t) :
  vehicleCache (fm w) = [a; b] ->
  let w0 := seen "Analyzing 2 vehicles..." (JS.of_Z 0) w in
  let ra := analyzeVehicleHistory E a fromDate toDate w0 in
  let wa := seen ("Analyzed " +:+ Device.name a +:+ " (1/2)") (JS.of_Z 50) ra.2 in
  let rb := analyzeVehicleHistory E b fromDate toDate wa in
  ra.1 = Ok 1 -> rb.1 = Ok 0 ->
  exists w' : World,
    analyzeHistoricalData E fromDate toDate (Some recording) w = (Ok 1, w')
    /\ progressSeen (browser w')
       = progressSeen (browser w)
         ++ [("Analyzing 2 vehicles...", JS.of_Z 0);
             ("Analyzed " +:+ Device.name a +:+ " (1/2)", progress_percent 1 2);
             ("Analyzed " +:+ Device.name b +:+ " (2/2)", progress_percent 2 2);
             ("Analysis complete. Found 1 potential theft events.", JS.of_Z 100)]
    /\ progress_percent 1 2 = JS.of_Z 50 /\ progress_percent 2 2 = JS.of_Z 100.
Proof.
  intros Hcache w0 ra wa rb Ha Hb.
  destruct (analyzeVehicleHistory_ok E a fromDate toDate w0) as (na & wa' & Hra & Hsa).
  unfold ra in Ha. rewrite Hra in Ha. simpl in Ha. injection Ha as ->.
  assert (Hwa : wa = seen ("Analyzed " +:+ Device.name a +:+ " (1/2)") (JS.of_Z 50) wa').
  { unfold wa, ra. by rewrite Hra. }
  destruct (analyzeVehicleHistory_ok E b fromDate toDate wa) as (nb & wb' & Hrb & Hsb).
  unfold rb in Hb. rewrite Hrb in Hb. simpl in Hb. injection Hb as ->.
  set (wb := seen (progress_message b 2 2) (progress_percent 2 2) wb').
  exists (seen "Analysis complete. Found 1 potential theft events." (JS.of_Z 100) wb).
  split; [|split; [|split; [apply progress_percent_half
                           | apply progress_percent_full]]].
  - apply (analyzeHistoricalData_loaded E fromDate toDate w wb a [b] 1 Hcache).
    change (Z.of_nat (length [a; b])) with 2.
    change ("Analyzing " +:+ pretty 2 +:+ " vehicles...") with "Analyzing 2 vehicles...".
    fold w0.
    rewrite (each_vehicle_cons E fromDate toDate 2 a [b] 0 0 w0 wa' 1 Hra).
    change (0 + 1) with 1. rewrite progress_percent_half.
    change (progress_message a 1 2) with ("Analyzed " +:+ Device.name a +:+ " (1/2)").
    rewrite <- Hwa.
    rewrite (each_vehicle_cons E fromDate toDate 2 b [] 1 1 wa wb' 0 Hrb).
    reflexivity.
  - unfold wb. simpl. rewrite Hsb, Hwa. simpl. rewrite Hsa. unfold w0. simpl.
    by rewrite <- !app_assoc.
Qed.

Lemma two_vehicle_history_witness :
  exists w' : World,
    analyzeHistoricalData two_vehicles past noon (Some recording) (loaded [truck; van])
    = (Ok 1, w')
    /\ progressSeen (browser w')
       = progressSeen (browser (loaded [truck; van]))
         ++ [("Analyzing 2 vehicles...", JS.of_Z 0);
             ("Analyzed " +:+ Device.name truck +:+ " (1/2)", progress_percent 1 2);
             ("Analyzed " +:+ Device.name van +:+ " (2/2)", progress_percent 2 2);
             ("Analysis complete. Found 1 potential theft events.", JS.of_Z 100)]
    /\ progress_percent 1 2 = JS.of_Z 50 /\ progress_percent 2 2 = JS.of_Z 100.
Proof.
  apply (two_vehicle_history_progress two_vehicles past noon (loaded [truck; van])
           truck van).
  - reflexivity.
  - vm_compute. reflexivity.
  - vm_compute. reflexivity.
Defined.

(** On that fleet the callback is invoked four times, not twice; the
    batch returns 1 and the sink holds the one alert. *)
Lemma progress_callback_invoked_four_times :
  let run := analyzeHistoricalData two_vehicles past noon (Some recording) world0 in
  run.1 = Ok 1
  /\ length (alerts (am run.2)) = 1%nat
  /\ length (progressSeen (browser run.2)) = 4%nat
  /\ map snd (progressSeen (browser run.2)) = [JS.of_Z 0; JS.of_Z 50; JS.of_Z 100; JS.of_Z 100]
  /\ map fst (progressSeen (browser run.2))
     = ["Analyzing 2 vehicles..."; "Analyzed Truck 1 (1/2)"; "Analyzed Van 2 (2/2)";
        "Analysis complete. Found 1 potential theft events."].
Proof. vm_compute. done. Qed.

End HistoricalBatch.

(** * Further properties *)

(** ** When the detector fires *)

Section DetectorFires.
Import DropDetector.

(** The readings of [history] the detector looks at for [currentPoint]. *)
Lemma detect_by_peak (cfg : Config.t) (history : list Reading.t) (currentPoint : Reading.t) :
  let windowStart :=
    Reading.timestamp currentPoint - Config.timeWindowMinutes cfg * 60 * 1000 in
  let recent := filter (in_window windowStart currentPoint) history in
  (recent = [] /\ detectSuspiciousDrop cfg history currentPoint = None)
  \/ exists peak : Reading.t,
       peak ∈ recent
       /\ dominates recent peak
       /\ detectSuspiciousDrop cfg history currentPoint
          = if bool_decide (JS.of_Z (Config.dropThreshold cfg)
                            <= Reading.level peak - Reading.level currentPoint)%F
               && bool_decide
                    (JS.of_Z (Reading.timestamp currentPoint - Reading.timestamp peak)
                     / JS.of_Z 60000 <= JS.of_Z (Config.timeWindowMinutes cfg))%F
            then Some {| Detection.dropPercent :=
                           (Reading.level peak - Reading.level currentPoint)%F;
                         Detection.previousLevel := Reading.level peak;
                         Detection.currentLevel := Reading.level currentPoint;
                         Detection.durationMinutes :=
                           (JS.of_Z (Reading.timestamp currentPoint
                                     - Reading.timestamp peak)
                            / JS.of_Z 60000)%F;
                         Detection.previousTimestamp := Reading.timestamp peak |}
            else None.
Proof.
  intros windowStart recent. unfold detectSuspiciousDrop.
  fold windowStart. fold recent.
  case_bool_decide as Hlen.
  { left. split; [|done]. unfold recent. by destruct history. }
  destruct recent as [|first rest] eqn:Hrecent; [by left|].
  right.
  assert (Hself : fold_left higher (first :: rest) first = fold_left higher rest first).
  { simpl. unfold higher at 2. case_bool_decide as H; [|done].
    exfalso. by apply f64_lt_not_le in H; apply H, f64_le_refl. }
  rewrite Hself.
  destruct (fold_higher_first_max rest first) as (i & Hi & Hdom & _).
  set (peak := fold_left higher rest first) in *.
  assert (Hin : peak ∈ first :: rest) by (apply list_elem_of_lookup; by exists i).
  exists peak. split; [exact Hin|]. split; [exact Hdom|]. reflexivity.
Qed.

(** What a detection reports. *)
Lemma detection_facts (cfg : Config.t) (history : list Reading.t)
    (currentPoint : Reading.t) (d : Detection.t) :
  detectSuspiciousDrop cfg history currentPoint = Some d ->
  exists peak : Reading.t,
    peak ∈ history
    /\ in_window
         (Reading.timestamp currentPoint - Config.timeWindowMinutes cfg * 60 * 1000)
         currentPoint peak
    /\ Detection.previousLevel d = Reading.level peak
    /\ Detection.currentLevel d = Reading.level currentPoint
    /\ Detection.dropPercent d = (Reading.level peak - Reading.level currentPoint)%F
    /\ (JS.of_Z (Config.dropThreshold cfg) <= Detection.dropPercent d)%F
    /\ Detection.durationMinutes d
       = (JS.of_Z (Reading.timestamp currentPoint - Reading.timestamp peak)
          / JS.of_Z 60000)%F
    /\ (Detection.durationMinutes d <= JS.of_Z (Config.timeWindowMinutes cfg))%F.
Proof.
  destruct (detect_by_peak cfg history currentPoint)
    as [[_ Hnone] | (peak & Hin & _ & Hrun)].
  { by rewrite Hnone. }
  rewrite Hrun. apply list_elem_of_filter in Hin as [Hw Hhist].
  case_bool_decide as Hthr; [|done]. case_bool_decide as Hdur; [|done].
  intros [= <-]. simpl. by exists peak.
Qed.

(** X1. The detector looks only at the readings of the history inside the
    window before the candidate: with none it does not fire, and it fires
    only if one of them is, as binary64 subtracts, at least the threshold
    above the candidate.  When it fires, the reported peak is a reading of
    the window that no reading of the window exceeds, the reported drop is
    the binary64 difference of the peak and the candidate and reaches the
    threshold, and the duration is the time from the peak to the candidate
    in minutes, [elapsed / 60000] as binary64 divides, and is within the
    window.  The difference is the rounded one: with the default
    threshold of 10, readings of [0.254 * 100] and then [0.154 * 100] do
    not fire, their difference being just below 10, while readings of
    [0.372 * 100] and then [0.122 * 100] fire with a drop just above
    25. *)
Theorem detector_fires_on_window_peak (cfg : Config.t) (history : list Reading.t)
    (currentPoint : Reading.t) :
  let windowStart :=
    Reading.timestamp currentPoint - Config.timeWindowMinutes cfg * 60 * 1000 in
  ((forall r : Reading.t, r ∈ history -> ~ in_window windowStart currentPoint r) ->
   detectSuspiciousDrop cfg history currentPoint = None)
  /\ (is_Some (detectSuspiciousDrop cfg history currentPoint) ->
      exists r : Reading.t,
        r ∈ history /\ in_window windowStart currentPoint r
        /\ (JS.of_Z (Config.dropThreshold cfg)
            <= Reading.level r - Reading.level currentPoint)%F)
  /\ (forall d : Detection.t,
        detectSuspiciousDrop cfg history currentPoint = Some d ->
        exists peak : Reading.t,
          peak ∈ history /\ in_window windowStart currentPoint peak
          /\ (forall r, r ∈ history -> in_window windowStart currentPoint r ->
                (Reading.level r <= Reading.level peak)%F)
          /\ Detection.previousLevel d = Reading.level peak
          /\ Detection.previousTimestamp d = Reading.timestamp peak
          /\ Detection.currentLevel d = Reading.level currentPoint
          /\ Detection.dropPercent d
             = (Reading.level peak - Reading.level currentPoint)%F
          /\ (JS.of_Z (Config.dropThreshold cfg) <= Detection.dropPercent d)%F
          /\ Detection.durationMinutes d
             = (JS.of_Z (Reading.timestamp currentPoint - Reading.timestamp peak)
                / JS.of_Z 60000)%F
          /\ (Detection.durationMinutes d
              <= JS.of_Z (Config.timeWindowMinutes cfg))%F)
  /\ detectSuspiciousDrop Config.default
       [FuelMonitor.to_reading (Fixtures.fuel_level "b1" Fixtures.noon 254 1000)]
       (FuelMonitor.to_reading
          (Fixtures.fuel_level "b1" (Fixtures.noon + Fixtures.minutes 5) 154 1000))
     = None
  /\ exists d : Detection.t,
       detectSuspiciousDrop Config.default
         [FuelMonitor.to_reading (Fixtures.fuel_level "b1" Fixtures.noon 372 1000)]
         (FuelMonitor.to_reading
            (Fixtures.fuel_level "b1" (Fixtures.noon + Fixtures.minutes 5) 122 1000))
       = Some d
       /\ (JS.of_Z 25 < Detection.dropPercent d)%F
       /\ Detection.durationMinutes d = JS.of_Z 5.
Proof.
  cbv zeta.
  set (windowStart :=
         Reading.timestamp currentPoint - Config.timeWindowMinutes cfg * 60 * 1000).
  split; [|split; [|split; [|split]]].
  - intros Hout.
    destruct (detect_by_peak cfg history currentPoint)
      as [[_ Hnone] | (peak & Hin & _ & _)]; [exact Hnone|].
    apply list_elem_of_filter in Hin as [Hw Hhist]. by destruct (Hout peak Hhist).
  - destruct (detect_by_peak cfg history currentPoint)
      as [[_ Hnone] | (peak & Hin & _ & Hrun)].
    { rewrite Hnone. by intros [? ?]. }
    rewrite Hrun. apply list_elem_of_filter in Hin as [Hw Hhist].
    case_bool_decide as Hthr; [|by intros [? ?]].
    intros _. by exists peak.
  - intros d.
    destruct (detect_by_peak cfg history currentPoint)
      as [[_ Hnone] | (peak & Hin & Hdom & Hrun)].
    { by rewrite Hnone. }
    rewrite Hrun. apply list_elem_of_filter in Hin as [Hw Hhist].
    unfold dominates in Hdom. rewrite Forall_forall in Hdom.
    case_bool_decide as Hthr; [|done]. case_bool_decide as Hdur; [|done].
    intros [= <-]. simpl. exists peak.
    split; [exact Hhist|]. split; [exact Hw|].
    split; [intros r Hr Hrw; apply Hdom; by apply list_elem_of_filter|].
    done.
  - f64_compute.
  - eexists. split; [f64_compute|]. split; f64_compute.
Qed.

End DetectorFires.

(** ** The classifier is monotone *)

Section SeverityOrder.
Import SeverityClassifier.

(** X2. A larger drop over a shorter time never gets a lower tier. *)
Theorem determineSeverity_monotone (d d' m m' : F64.t) :
  (d <= d')%F -> (m' <= m)%F ->
  (tier_rank (determineSeverity d m) <= tier_rank (determineSeverity d' m'))%nat.
Proof.
  intros Hd Hm. unfold determineSeverity.
  repeat case_bool_decide; simpl; try (vm_compute; lia); exfalso;
    repeat match goal with
           | H : ~ (_ < d')%F, H1 : (?c < d)%F |- _ =>
               apply H; by eapply f64_lt_le_trans
           | H : ~ (m' < _)%F, H1 : (m < ?c)%F |- _ =>
               apply H; by eapply f64_le_lt_trans
           end.
Qed.

Lemma determineSeverity_monotone_witness :
  (tier_rank (determineSeverity (JS.of_Z 20) (JS.of_Z 15))
   <= tier_rank (determineSeverity (JS.of_Z 30) (JS.of_Z 5)))%nat.
Proof.
  apply determineSeverity_monotone; f64_compute.
Defined.

End SeverityOrder.

(** ** Sorting by timestamp *)

Section SortFacts.
Import FuelMonitor.
Context {A : Type} (key : A -> Z).

Lemma insert_by_perm (x : A) (l : list A) : insert_by key x l ≡ₚ x :: l.
Proof.
  induction l as [|y l IH]; simpl; [done|].
  case_bool_decide; [|done].
  rewrite IH. apply Permutation_swap.
Qed.

Lemma sort_by_perm (l : list A) : sort_by key l ≡ₚ l.
Proof.
  unfold sort_by. induction l as [|x l IH]; simpl; [done|].
  by rewrite insert_by_perm, IH.
Qed.

Lemma insert_by_sorted (x : A) (l : list A) :
  StronglySorted (key_le key) l -> StronglySorted (key_le key) (insert_by key x l).
Proof.
  induction l as [|y l IH]; simpl; intros Hs.
  - by repeat constructor.
  - apply StronglySorted_inv in Hs as [Hs Hy].
    case_bool_decide as Hlt.
    + constructor; [by apply IH|].
      rewrite insert_by_perm. constructor; [unfold key_le; lia | exact Hy].
    + constructor; [by constructor|].
      constructor; [unfold key_le; lia|].
      eapply Forall_impl; [exact Hy|]. unfold key_le. simpl. intros; lia.
Qed.

Lemma sort_by_sorted (l : list A) : StronglySorted (key_le key) (sort_by key l).
Proof.
  unfold sort_by. induction l as [|x l IH]; simpl; [constructor|].
  by apply insert_by_sorted.
Qed.

Lemma insert_by_filter (k : Z) (x : A) (l : list A) :
  filter (fun a => key a = k) (insert_by key x l)
  = filter (fun a => key a = k) (x :: l).
Proof.
  induction l as [|y l IH]; simpl; [done|].
  case_bool_decide as Hlt; [|done].
  rewrite filter_cons, IH, !filter_cons.
  repeat case_decide; try done; lia.
Qed.

Lemma sort_by_stable (k : Z) (l : list A) :
  filter (fun a => key a = k) (sort_by key l) = filter (fun a => key a = k) l.
Proof.
  unfold sort_by. induction l as [|x l IH]; simpl; [done|].
  rewrite insert_by_filter, !filter_cons. by rewrite IH.
Qed.

Lemma sorted_perm_unique (l1 l2 : list A) :
  StronglySorted (key_le key) l1 -> StronglySorted (key_le key) l2 ->
  l1 ≡ₚ l2 -> NoDup (key <$> l1) -> l1 = l2.
Proof.
  revert l2. induction l1 as [|a t IH]; intros l2 H1 H2 Hp Hnd.
  - by apply Permutation_nil_l in Hp.
  - destruct l2 as [|b t2]; [by apply Permutation_nil_r in Hp|].
    apply StronglySorted_inv in H1 as [H1 Ha].
    apply StronglySorted_inv in H2 as [H2 Hb].
    rewrite fmap_cons in Hnd. apply NoDup_cons in Hnd as [Hka Hnd].
    assert (Hab : a = b).
    { assert (Hain : a ∈ b :: t2) by (rewrite <- Hp; left).
      assert (Hbin : b ∈ a :: t) by (rewrite Hp; left).
      apply elem_of_cons in Hain as [?|Hain]; [done|].
      apply elem_of_cons in Hbin as [?|Hbin]; [done|].
      rewrite Forall_forall in Ha, Hb.
      specialize (Ha _ Hbin). specialize (Hb _ Hain). unfold key_le in *.
      exfalso. apply Hka. apply list_elem_of_fmap. exists b. split; [lia | done]. }
    subst b. f_equal. apply IH; try done.
    by apply Permutation_cons_inv in Hp.
Qed.

(** The sort puts the readings in ascending key order, loses and invents
    none, and keeps readings of equal key in their arrival order. *)
Lemma sort_by_stable_sort (l : list A) :
  StronglySorted (key_le key) (sort_by key l)
  /\ sort_by key l ≡ₚ l
  /\ forall k : Z,
       filter (fun a => key a = k) (sort_by key l) = filter (fun a => key a = k) l.
Proof.
  split; [apply sort_by_sorted|]. split; [apply sort_by_perm|].
  intros k. apply sort_by_stable.
Qed.

Lemma sort_by_order_independent (l l' : list A) :
  l ≡ₚ l' -> NoDup (key <$> l) -> sort_by key l = sort_by key l'.
Proof.
  intros Hp Hnd. apply sorted_perm_unique; try apply sort_by_sorted.
  - by rewrite !sort_by_perm.
  - by rewrite sort_by_perm.
Qed.

End SortFacts.

Section ArrivalOrder.
Import FuelMonitor Fixtures.

(** X3. With distinct timestamps, the order in which a batch of readings of
    one vehicle arrives does not matter to the live pipeline. *)
Theorem analyzeVehicleFuelData_arrival_order (E : Env) (deviceId : string)
    (points points' : list Reading.t) (w : World) :
  points ≡ₚ points' ->
  NoDup (Reading.timestamp <$> points) ->
  analyzeVehicleFuelData E deviceId points w
  = analyzeVehicleFuelData E deviceId points' w.
Proof.
  intros Hp Hnd. unfold analyzeVehicleFuelData.
  by rewrite (sort_by_order_independent Reading.timestamp points points' Hp Hnd).
Qed.

Lemma analyzeVehicleFuelData_arrival_order_witness :
  analyzeVehicleFuelData (frozen_at noon) "b1"
    [reading (noon - minutes 10) 80; reading noon 60] world0
  = analyzeVehicleFuelData (frozen_at noon) "b1"
      [reading noon 60; reading (noon - minutes 10) 80] world0.
Proof.
  apply analyzeVehicleFuelData_arrival_order.
  - apply Permutation_swap.
  - apply (bool_decide_unpack _). vm_compute. exact I.
Defined.

End ArrivalOrder.

(** ** Grouping a feed by vehicle *)

Section GroupFacts.
Import FuelMonitor.

Lemma group_push_keys_old (k : string) (r : Reading.t)
    (g : list (string * list Reading.t)) :
  k ∈ g.*1 -> (group_push k r g).*1 = g.*1.
Proof.
  induction g as [|[k' rs] g IH]; intros Hin.
  - by apply not_elem_of_nil in Hin.
  - cbn [group_push]. case_bool_decide as Hk; [by subst k'|].
    rewrite !fmap_cons. f_equal. apply IH.
    rewrite fmap_cons in Hin. apply elem_of_cons in Hin as [?|?]; [|done].
    by exfalso.
Qed.

Lemma group_push_keys_new (k : string) (r : Reading.t)
    (g : list (string * list Reading.t)) :
  k ∉ g.*1 -> (group_push k r g).*1 = g.*1 ++ [k].
Proof.
  induction g as [|[k' rs] g IH]; intros Hin; [done|].
  cbn [group_push]. rewrite fmap_cons in Hin. apply not_elem_of_cons in Hin as [Hne Hin].
  rewrite bool_decide_false by done.
  rewrite !fmap_cons. simpl. f_equal. by apply IH.
Qed.

Lemma group_push_NoDup (k : string) (r : Reading.t) (g : list (string * list Reading.t)) :
  NoDup g.*1 -> NoDup (group_push k r g).*1.
Proof.
  intros Hnd. destruct (decide (k ∈ g.*1)) as [Hin|Hin].
  - by rewrite group_push_keys_old.
  - rewrite group_push_keys_new by done.
    apply NoDup_app. split; [done|]. split; [|apply NoDup_singleton].
    intros x Hx Hx'. apply list_elem_of_singleton in Hx'. by subst x.
Qed.

Lemma group_push_elem (k : string) (r : Reading.t) (g : list (string * list Reading.t))
    (k' : string) (rs' : list Reading.t) :
  NoDup g.*1 ->
  (k', rs') ∈ group_push k r g ->
  (k' <> k /\ (k', rs') ∈ g)
  \/ (k' = k /\ exists rs, (k, rs) ∈ g /\ rs' = rs ++ [r])
  \/ (k' = k /\ (k ∉ g.*1) /\ rs' = [r]).
Proof.
  induction g as [|[k0 rs0] g IH]; simpl; intros Hnd Hin.
  - apply list_elem_of_singleton in Hin. injection Hin as -> ->. right. right.
    split; [done|]. split; [|done]. apply not_elem_of_nil.
  - apply NoDup_cons in Hnd as [Hk0 Hnd].
    case_bool_decide as Hk.
    + subst k0. apply elem_of_cons in Hin as [[= -> ->]|Hin].
      * right. left. split; [done|]. exists rs0. split; [left|done].
      * left. split; [|by right].
        intros ->. apply Hk0. apply list_elem_of_fmap. by exists (k, rs').
    + apply elem_of_cons in Hin as [[= -> ->]|Hin].
      * left. split; [done | left].
      * destruct (IH Hnd Hin) as [[? ?]|[[Hk' (rs & ? & Hrs)]|(Hk' & ? & Hrs)]].
        -- left. split; [done | by right].
        -- subst k' rs'. right. left. split; [done|].
           exists rs. split; [by right | done].
        -- subst k' rs'. right. right. split; [done|]. split; [|done].
           intros Hc. apply elem_of_cons in Hc as [?|?]; [congruence | done].
Qed.

Lemma grouped_snoc (points : list StatusData.t) (p : StatusData.t)
    (g : list (string * list Reading.t)) :
  grouped points g ->
  grouped (points ++ [p]) (group_push (StatusData.device_id p) (to_reading p) g).
Proof.
  intros (Hnd & Hkeys & Hrs). split; [by apply group_push_NoDup|]. split.
  - intros k. rewrite fmap_app, elem_of_app. simpl. rewrite list_elem_of_singleton.
    destruct (decide (StatusData.device_id p ∈ g.*1)) as [Hk|Hk].
    + rewrite group_push_keys_old by done.
      rewrite Hkeys. split; [by left|]. intros [?| ->]; [done|]. by apply Hkeys.
    + rewrite group_push_keys_new by done.
      by rewrite elem_of_app, list_elem_of_singleton, Hkeys.
  - intros k rs Hin.
    apply group_push_elem in Hin as [[Hne Hin]|[[Hk (rs0 & Hin & Hrs0)]|(Hk & Hno & Hrs0)]];
      [| | |done]; try subst k rs;
      rewrite filter_app, fmap_app, filter_cons, filter_nil.
    + rewrite decide_False by done. simpl. rewrite app_nil_r. by apply Hrs.
    + rewrite decide_True by done. simpl. f_equal. by apply Hrs.
    + rewrite decide_True by done. simpl.
      assert (Hnone : filter (fun p0 => StatusData.device_id p0 = StatusData.device_id p)
                        points = []).
      { destruct (filter _ points) as [|q qs] eqn:Hq; [done|]. exfalso.
        assert (Hqin : q ∈ filter (fun p0 => StatusData.device_id p0
                                             = StatusData.device_id p) points)
          by (rewrite Hq; left).
        apply list_elem_of_filter in Hqin as [Hqk Hqp].
        apply Hno, Hkeys, list_elem_of_fmap. by exists q. }
      by rewrite Hnone.
Qed.

(** What the grouping holds. *)
Lemma group_by_device_grouped (points : list StatusData.t) :
  grouped points (group_by_device points).
Proof.
  unfold group_by_device. induction points as [|p points IH] using rev_ind.
  - split; [constructor|]. split; [done|]. intros k rs Hin.
    by apply not_elem_of_nil in Hin.
  - rewrite fold_left_app. simpl. by apply grouped_snoc.
Qed.

(** X4. Grouping a feed by vehicle gives one group per vehicle that has a
    reading in the feed, and the group of a vehicle holds exactly its
    readings, converted to percent, in the order of the feed. *)
Theorem group_by_device_partition (points : list StatusData.t) :
  NoDup (group_by_device points).*1
  /\ (forall k, k ∈ (group_by_device points).*1 <-> k ∈ StatusData.device_id <$> points)
  /\ (forall k rs, (k, rs) ∈ group_by_device points ->
        rs = to_reading <$> filter (fun p => StatusData.device_id p = k) points
        /\ rs <> []).
Proof.
  destruct (group_by_device_grouped points) as (Hnd & Hkeys & Hrs).
  split; [exact Hnd|]. split; [exact Hkeys|].
  intros k rs Hin. split; [by apply Hrs|].
  assert (Hk : k ∈ (group_by_device points).*1).
  { apply list_elem_of_fmap. by exists (k, rs). }
  apply Hkeys, list_elem_of_fmap in Hk as (p & Hp & Hpin).
  rewrite (Hrs k rs Hin). intros Hnil. apply fmap_nil_inv in Hnil.
  assert (Hmem : p ∈ filter (fun p0 => StatusData.device_id p0 = k) points)
    by (by apply list_elem_of_filter).
  rewrite Hnil in Hmem. by apply not_elem_of_nil in Hmem.
Qed.

End GroupFacts.

(** ** The vehicle registry *)

Section RegistryFacts.
Import FuelMonitor.

Lemma cache_get_set_eq (d : Device.t) (cache : list Device.t) :
  cache_get (Device.id d) (cache_set d cache) = Some d.
Proof.
  unfold cache_get. induction cache as [|c cache IH]; simpl.
  - by rewrite bool_decide_true.
  - case_bool_decide as Hc; simpl.
    + by rewrite bool_decide_true.
    + by rewrite bool_decide_false.
Qed.

Lemma cache_get_set_ne (k : string) (d : Device.t) (cache : list Device.t) :
  k <> Device.id d -> cache_get k (cache_set d cache) = cache_get k cache.
Proof.
  intros Hk. unfold cache_get. induction cache as [|c cache IH]; simpl.
  - by rewrite bool_decide_false.
  - case_bool_decide as Hc; simpl.
    + rewrite bool_decide_false by done. by rewrite bool_decide_false by congruence.
    + by rewrite IH.
Qed.

Lemma cache_set_ids_old (d : Device.t) (cache : list Device.t) :
  Device.id d ∈ Device.id <$> cache ->
  Device.id <$> cache_set d cache = Device.id <$> cache.
Proof.
  induction cache as [|c cache IH]; intros Hin.
  - by apply not_elem_of_nil in Hin.
  - cbn [cache_set]. case_bool_decide as Hc.
    + rewrite !fmap_cons. by rewrite Hc.
    + rewrite !fmap_cons. f_equal. apply IH.
      rewrite fmap_cons in Hin. apply elem_of_cons in Hin as [?|?]; [congruence | done].
Qed.

Lemma cache_set_ids_new (d : Device.t) (cache : list Device.t) :
  Device.id d ∉ Device.id <$> cache ->
  Device.id <$> cache_set d cache = (Device.id <$> cache) ++ [Device.id d].
Proof.
  induction cache as [|c cache IH]; intros Hin; [done|].
  cbn [cache_set]. rewrite fmap_cons in Hin. apply not_elem_of_cons in Hin as [Hne Hin].
  rewrite bool_decide_false by congruence.
  rewrite !fmap_cons. simpl. f_equal. by apply IH.
Qed.

Lemma cache_set_NoDup (d : Device.t) (cache : list Device.t) :
  NoDup (Device.id <$> cache) -> NoDup (Device.id <$> cache_set d cache).
Proof.
  intros Hnd. destruct (decide (Device.id d ∈ Device.id <$> cache)) as [Hin|Hin].
  - by rewrite cache_set_ids_old.
  - rewrite cache_set_ids_new by done.
    apply NoDup_app. split; [done|]. split; [|apply NoDup_singleton].
    intros x Hx Hx'. apply list_elem_of_singleton in Hx'. by subst x.
Qed.

(** The registry after [devices] were put into [cache] one by one. *)
Lemma registry_after (devices : list Device.t) (cache : list Device.t) :
  let cache' := fold_left (fun c d => cache_set d c) devices cache in
  (forall k,
     cache_get k cache'
     = match last (filter (fun d => Device.id d = k) devices) with
       | Some d => Some d
       | None => cache_get k cache
       end)
  /\ (NoDup (Device.id <$> cache) -> NoDup (Device.id <$> cache')).
Proof.
  revert cache. induction devices as [|d devices IH]; intros cache; simpl.
  - split; [done | done].
  - destruct (IH (cache_set d cache)) as [Hget Hnd]. split.
    + intros k. rewrite Hget, filter_cons. case_decide as Hk.
      * subst k. rewrite cache_get_set_eq.
        rewrite last_cons. by destruct (last _).
      * by rewrite cache_get_set_ne by done.
    + intros H. by apply Hnd, cache_set_NoDup.
Qed.

Lemma loadVehicles_run (E : Env) (w : World) :
  let now := next_clock E w in
  let w1 := logged (ReqDevice now) (after_reads 1 w) in
  loadVehicles E w
  = match Get_Device E (length (network (browser w))) now with
    | Rejects e => (Throw e, w1)
    | Null =>
        (Throw {| Error.message :=
                    Some "Cannot read properties of null (reading 'forEach')" |}, w1)
    | Rows devices =>
        (Ok tt,
         with_fm (fun s =>
           set_vehicleCache
             (fold_left (fun c d => cache_set d c) devices (vehicleCache s)) s) w1)
    end.
Proof.
  cbv zeta. unfold next_clock, loadVehicles, try_catch, bind, Runtime.Date_now,
    Runtime.api_Get_Device, bind, Runtime.log_request.
  cbn [network browser with_browser set_clockReads fst snd].
  by destruct (Get_Device E (length (network (browser w)))
                 (clock E (clockReads (browser w)))) as [e| |devices].
Qed.

(** X5. Loading the registry.  When the query resolves, every delivered device
    can be looked up by its id (the last one delivered under an id wins),
    vehicles the query did not deliver stay as cached, and ids stay
    distinct.  When it is rejected the error is thrown on and the engine
    state is as before; a [null] answer throws as well.  The alert sink is
    never touched. *)
Theorem loadVehicles_registry (E : Env) (w : World) :
  let answer := Get_Device E (length (network (browser w))) (next_clock E w) in
  let w' := (loadVehicles E w).2 in
  (forall devices, answer = Rows devices ->
     (loadVehicles E w).1 = Ok tt
     /\ (forall k,
           cache_get k (vehicleCache (fm w'))
           = match last (filter (fun d => Device.id d = k) devices) with
             | Some d => Some d
             | None => cache_get k (vehicleCache (fm w))
             end)
     /\ (NoDup (Device.id <$> vehicleCache (fm w)) ->
         NoDup (Device.id <$> vehicleCache (fm w')))
     /\ config (fm w') = config (fm w) /\ feedToken (fm w') = feedToken (fm w)
     /\ isMonitoring (fm w') = isMonitoring (fm w))
  /\ (forall e, answer = Rejects e ->
        (loadVehicles E w).1 = Throw e /\ fm w' = fm w)
  /\ (answer = Null ->
        (exists e, (loadVehicles E w).1 = Throw e) /\ fm w' = fm w)
  /\ am w' = am w.
Proof.
  cbv zeta. rewrite loadVehicles_run.
  destruct (Get_Device E (length (network (browser w))) (next_clock E w))
    as [e| |devices]; cbn [fst snd].
  - split; [done|]. split; [|split; [done|by destruct w]].
    intros e' [= <-]. by destruct w.
  - split; [done|]. split; [done|]. split; [|by destruct w].
    intros _. split; [by eexists | by destruct w].
  - split; [|split; [done|split; [done|by destruct w]]].
    intros ds [= <-].
    destruct (registry_after devices (vehicleCache (fm w))) as [Hget Hnd].
    split; [done|]. split; [exact Hget|]. split; [exact Hnd|]. by destruct w as [? [] ?].
Qed.

End RegistryFacts.

(** ** A vehicle with too little history *)

Section ShortHistory.
Import FuelMonitor Fixtures.

(** X6. Without at least two readings, or when the query fails, the analysis
    of a vehicle finds nothing and changes nothing but the network log. *)
Theorem analyzeVehicleHistory_needs_two_readings (E : Env) (vehicle : Device.t)
    (fromDate toDate : Z) (w : World) :
  too_few (Get_StatusData E (length (network (browser w))) (Device.id vehicle)
             DIAGNOSTIC_FUEL_LEVEL fromDate toDate) ->
  analyzeVehicleHistory E vehicle fromDate toDate w
  = (Ok 0, logged (ReqStatusData (Device.id vehicle) DIAGNOSTIC_FUEL_LEVEL
                     fromDate toDate) w).
Proof.
  intros Hfew. unfold analyzeVehicleHistory, try_catch, bind at 1.
  rewrite api_Get_StatusData_run.
  destruct (Get_StatusData E (length (network (browser w))) (Device.id vehicle)
              DIAGNOSTIC_FUEL_LEVEL fromDate toDate) as [e| |rows];
    cbn [Runtime.settle throw ret too_short]; [done | done |].
  simpl in Hfew. by rewrite bool_decide_true.
Qed.

Lemma analyzeVehicleHistory_needs_two_readings_witness :
  analyzeVehicleHistory (parked_fleet [truck] (fun _ => [fuel_at "b1" past 80])
                           (fun _ => noon)) truck past noon world0
  = (Ok 0, logged (ReqStatusData (Device.id truck) DIAGNOSTIC_FUEL_LEVEL past noon)
              world0).
Proof.
  apply analyzeVehicleHistory_needs_two_readings. vm_compute. lia.
Defined.

End ShortHistory.

(** ** State properties through the monad *)

Section Through.
Context (I : World -> Prop).

Lemma through_ret {A} (a : A) : holds_through I (ret a).
Proof. by intros w. Qed.

Lemma through_throw {A} (e : Error.t) : holds_through I (@throw A e).
Proof. by intros w. Qed.

Lemma through_gets {A} (g : World -> A) : holds_through I (gets g).
Proof. by intros w. Qed.

Lemma through_bind {A C} (m : M A) (k : A -> M C) :
  holds_through I m -> (forall a, holds_through I (k a)) -> holds_through I (bind m k).
Proof.
  intros Hm Hk w Hw. unfold bind. specialize (Hm w Hw).
  destruct (m w) as [[a|e] w1]; simpl in *; [by apply Hk | done].
Qed.

(** After reading a value off the state, the rest may use that it was read
    in a state where [I] holds. *)
Lemma through_bind_gets {A C} (g : World -> A) (k : A -> M C) :
  (forall w, I w -> I (k (g w) w).2) -> holds_through I (bind (gets g) k).
Proof. intros Hk w Hw. unfold bind, gets. by apply Hk. Qed.

Lemma through_bind_gets2 {A1 A2 C} (g1 : World -> A1) (g2 : World -> A2)
    (k : A1 -> A2 -> M C) :
  (forall w, I w -> I (k (g1 w) (g2 w) w).2) ->
  holds_through I (bind (gets g1) (fun a => bind (gets g2) (k a))).
Proof. intros Hk w Hw. unfold bind, gets. by apply Hk. Qed.

Lemma through_try_catch {A} (m : M A) (h : Error.t -> M A) :
  holds_through I m -> (forall e, holds_through I (h e)) ->
  holds_through I (try_catch m h).
Proof.
  intros Hm Hh w Hw. unfold try_catch. specialize (Hm w Hw).
  destruct (m w) as [[a|e] w1]; simpl in *; [done | by apply Hh].
Qed.

Lemma through_for_of {A} (xs : list A) (body : A -> M unit) :
  (forall x, holds_through I (body x)) -> holds_through I (for_of xs body).
Proof.
  intros Hb. induction xs as [|x xs IH]; simpl.
  - apply through_ret.
  - apply through_bind; [apply Hb | intros _; apply IH].
Qed.

Lemma through_for_of_elem {A} (xs : list A) (body : A -> M unit) :
  (forall x, x ∈ xs -> holds_through I (body x)) -> holds_through I (for_of xs body).
Proof.
  induction xs as [|x xs IH]; intros Hb; simpl.
  - apply through_ret.
  - apply through_bind; [apply Hb; left|].
    intros _. apply IH. intros y Hy. apply Hb. by right.
Qed.

Lemma through_keeps {A B} (f : World -> B) (m : M A) :
  (forall w w', f w' = f w -> I w -> I w') -> keeps f m -> holds_through I m.
Proof. intros Hf Hk w Hw. by apply (Hf w), Hw. Qed.

End Through.

(** ** What the queries and the windows leave alone *)

Section SideFrames.
Variable E : Env.
Context {B : Type} (f : World -> B).
(** [f] does not look at the clock, the network log or the windows. *)
Hypothesis f_clock : forall n w, f (with_browser (set_clockReads n) w) = f w.
Hypothesis f_network : forall l w, f (with_browser (set_network l) w) = f w.
Hypothesis f_history : forall h w, f (with_fm (set_fuelHistory h) w) = f w.

Lemma Date_now_side : keeps f (Runtime.Date_now E).
Proof.
  intros w. unfold Runtime.Date_now. simpl.
  destruct w as [a s b]. apply (f_clock (S (clockReads b)) (mkWorld a s b)).
Qed.

Lemma log_request_side (r : Request) : keeps f (Runtime.log_request r).
Proof.
  intros w. unfold Runtime.log_request. simpl.
  destruct w as [a s b]. apply (f_network (network b ++ [r]) (mkWorld a s b)).
Qed.

Lemma settle_side {A} (r : Response A) : keeps f (Runtime.settle r).
Proof. destruct r; simpl; frame. Qed.

Lemma api_Get_StatusData_side (deviceId diagnostic : string) (fromDate toDate : Z) :
  keeps f (Runtime.api_Get_StatusData E deviceId diagnostic fromDate toDate).
Proof.
  unfold Runtime.api_Get_StatusData. frame; [apply log_request_side | apply settle_side].
Qed.

Lemma api_Get_Trip_side (deviceId : string) (fromDate toDate : Z) :
  keeps f (Runtime.api_Get_Trip E deviceId fromDate toDate).
Proof.
  unfold Runtime.api_Get_Trip. frame; [apply log_request_side | apply settle_side].
Qed.

Lemma api_Get_Device_side (fromDate : Z) :
  keeps f (Runtime.api_Get_Device E fromDate).
Proof.
  unfold Runtime.api_Get_Device. frame; [apply log_request_side | apply settle_side].
Qed.

Lemma checkVehicleState_side (deviceId : string) (timestamp : Z) :
  keeps f (FuelMonitor.checkVehicleState E deviceId timestamp).
Proof.
  unfold FuelMonitor.checkVehicleState.
  frame; solve [apply api_Get_StatusData_side | apply api_Get_Trip_side].
Qed.

Lemma store_history_side (deviceId : string) (history : list Reading.t) :
  keeps f (FuelMonitor.store_history deviceId history).
Proof.
  intros w. unfold FuelMonitor.store_history, modify. simpl.
  destruct w as [a s b].
  apply (f_history (<[deviceId := history]> (fuelHistory s)) (mkWorld a s b)).
Qed.

Lemma push_and_prune_side (deviceId : string) (currentPoint : Reading.t) :
  keeps f (FuelMonitor.push_and_prune E deviceId currentPoint).
Proof.
  unfold FuelMonitor.push_and_prune, FuelMonitor.pruneHistory.
  frame; solve [apply Date_now_side | apply store_history_side].
Qed.

End SideFrames.

(** ** Only qualifying drops reach the sink *)

Lemma sink_side_clock (n : nat) (w : World) :
  sink_side (with_browser (set_clockReads n) w) = sink_side w.
Proof. by destruct w as [? ? []]. Qed.

Lemma sink_side_network (l : list Request) (w : World) :
  sink_side (with_browser (set_network l) w) = sink_side w.
Proof. by destruct w as [? ? []]. Qed.

Lemma sink_side_history (h : gmap string (list Reading.t)) (w : World) :
  sink_side (with_fm (set_fuelHistory h) w) = sink_side w.
Proof. by destruct w as [? [] ?]. Qed.

Lemma sink_side_token (t : option string) (w : World) :
  sink_side (with_fm (set_feedToken t) w) = sink_side w.
Proof. by destruct w as [? [] ?]. Qed.

Ltac side_frame :=
  solve [ apply sink_side_clock | apply sink_side_network
        | apply sink_side_history | apply sink_side_token ].

Section OnlyQualifying.
Import FuelMonitor.
Variable E : Env.

Lemma only_added_side (P : Alert.t -> Prop) (cfg : Config.t) (base : list Alert.t)
    (w w' : World) :
  sink_side w' = sink_side w -> only_added P cfg base w -> only_added P cfg base w'.
Proof. unfold sink_side, only_added. by intros [= -> _ ->]. Qed.

(** The sink takes an alert or leaves it, and nothing else. *)
Lemma addAlert_only_added (P : Alert.t -> Prop) (cfg : Config.t) (base : list Alert.t)
    (d : AlertData.t) :
  (forall i stamp, P (alert_of d i stamp)) ->
  holds_through (only_added P cfg base) (AlertManager.addAlert E d).
Proof.
  intros HP w (Hcfg & new & Hnew & Hall).
  destruct (gate_closed_dec E (AlertData.vehicleId d) w) as [Hc|Ho].
  - rewrite (addAlert_rejects E d w Hc). simpl. split; [done|]. by exists new.
  - rewrite (addAlert_accepts E d w Ho). simpl. split; [done|].
    eexists (_ :: new). simpl. rewrite Hnew. split; [reflexivity|].
    constructor; [apply HP | exact Hall].
Qed.

Lemma qualifying_alert_of (cfg : Config.t) (d : AlertData.t) (i stamp : Z) :
  qualifying_drop cfg d -> qualifying cfg (alert_of d i stamp).
Proof.
  intros (previous & current & elapsed & H1 & H2 & H3 & H4 & H5 & H6 & H7 & H8
          & H9 & H10 & H11).
  exists previous, current, elapsed.
  unfold alert_of. simpl. rewrite H11. done.
Qed.

(** What a detection makes of a payload. *)
Lemma detection_payload (cfg : Config.t) (history : list Reading.t)
    (currentPoint : Reading.t) (detection : Detection.t)
    (vehicleId vehicleName : string) (timestamp : option Z) (h : option bool) :
  DropDetector.detectSuspiciousDrop cfg history currentPoint = Some detection ->
  qualifying_drop cfg
    {| AlertData.vehicleId := vehicleId;
       AlertData.vehicleName := vehicleName;
       AlertData.severity :=
         SeverityClassifier.determineSeverity
           (Detection.dropPercent detection) (Detection.durationMinutes detection);
       AlertData.fuelDrop := Detection.dropPercent detection;
       AlertData.previousLevel := Detection.previousLevel detection;
       AlertData.currentLevel := Detection.currentLevel detection;
       AlertData.duration := JS.Math_round (Detection.durationMinutes detection);
       AlertData.location := None;
       AlertData.timestamp := timestamp;
       AlertData.isHistorical := h |}.
Proof.
  intros Hdet.
  destruct (detection_facts cfg history currentPoint detection Hdet)
    as (peak & Hhist & Hw & Hprev & Hcur & Hdrop & Hthr & Hdur & Hle).
  exists (Reading.level peak), (Reading.level currentPoint),
         (Reading.timestamp currentPoint - Reading.timestamp peak).
  simpl. rewrite <- Hdur.
  split; [exact Hprev|]. split; [exact Hcur|]. split; [exact Hdrop|].
  split; [exact Hthr|].
  split; [unfold DropDetector.in_window in Hw; lia|].
  split; [exact Hle|]. split; [reflexivity|].
  split; [apply determineSeverity_tiers|].
  split; [apply determineSeverity_critical|].
  split; [apply determineSeverity_high | reflexivity].
Qed.

Section Pipeline.
Context (I : World -> Prop) (cfg : Config.t).
Hypothesis I_side : forall w w', sink_side w' = sink_side w -> I w -> I w'.
Hypothesis I_cfg : forall w, I w -> config (fm w) = cfg.

Lemma side_through {A} (m : M A) : keeps sink_side m -> holds_through I m.
Proof. apply through_keeps. exact I_side. Qed.

(** A property of the sink that the sink keeps when it is offered a
    qualifying drop of the vehicle is kept by the analysis of the
    vehicle's readings. *)
Lemma analyzeVehicleFuelData_through (deviceId : string) (points : list Reading.t) :
  (forall d, qualifying_drop cfg d -> AlertData.vehicleId d = deviceId ->
     holds_through I (AlertManager.addAlert E d)) ->
  holds_through I (analyzeVehicleFuelData E deviceId points).
Proof.
  intros Hadd. unfold analyzeVehicleFuelData.
  apply through_bind; [apply through_gets|]. intros known.
  apply through_bind.
  { destruct known; [apply through_ret|].
    apply side_through, store_history_side; side_frame. }
  intros _. apply through_for_of. intros currentPoint.
  enough (Hbody : forall history, holds_through I
            (match DropDetector.detectSuspiciousDrop cfg history currentPoint with
             | Some detection =>
                 isStationary <- checkVehicleState E deviceId
                                   (Reading.timestamp currentPoint) ;;
                 if isStationary : bool then
                   cache <- gets (fun w => vehicleCache (fm w)) ;;
                   _ <- AlertManager.addAlert E
                     {| AlertData.vehicleId := deviceId;
                        AlertData.vehicleName := vehicle_name deviceId cache;
                        AlertData.severity :=
                          SeverityClassifier.determineSeverity
                            (Detection.dropPercent detection)
                            (Detection.durationMinutes detection);
                        AlertData.fuelDrop := Detection.dropPercent detection;
                        AlertData.previousLevel := Detection.previousLevel detection;
                        AlertData.currentLevel := Detection.currentLevel detection;
                        AlertData.duration :=
                          JS.Math_round (Detection.durationMinutes detection);
                        AlertData.location := None;
                        AlertData.timestamp := None;
                        AlertData.isHistorical := None |} ;;
                   ret tt
                 else ret tt
             | None => ret tt
             end ;;;
             push_and_prune E deviceId currentPoint)).
  { apply through_bind_gets2. intros w Hw.
    rewrite (I_cfg w Hw). by apply Hbody. }
  intros history.
  apply through_bind.
  - destruct (DropDetector.detectSuspiciousDrop cfg history currentPoint)
      as [detection|] eqn:Hdet; [|apply through_ret].
    apply through_bind.
    { apply side_through, checkVehicleState_side; side_frame. }
    intros [|]; [|apply through_ret].
    apply through_bind; [apply through_gets|]. intros cache.
    apply through_bind; [|intros _; apply through_ret].
    apply Hadd; [|done]. by eapply detection_payload.
  - intros _. apply side_through, push_and_prune_side; side_frame.
Qed.

End Pipeline.

End OnlyQualifying.

(** ** A poll tick and the sink *)

Section PollSink.
Import FuelMonitor.
Variable E : Env.

Lemma api_GetFeed_side {B} (f : World -> B) (feedCall : FeedCall.t) :
  (forall l w, f (with_browser (set_network l) w) = f w) ->
  keeps f (Runtime.api_GetFeed E feedCall).
Proof.
  intros Hf w. unfold Runtime.api_GetFeed, bind, Runtime.log_request. simpl.
  destruct (GetFeed E _ feedCall); simpl; destruct w as [a s b]; apply Hf.
Qed.

Lemma set_feedToken_side (t : option string) :
  keeps sink_side (modify (with_fm (set_feedToken t))).
Proof. intros w. apply sink_side_token. Qed.

Section Invariant.
Context (I : World -> Prop) (cfg : Config.t).
Hypothesis I_side : forall w w', sink_side w' = sink_side w -> I w -> I w'.
Hypothesis I_cfg : forall w, I w -> config (fm w) = cfg.

Lemma processFuelData_through (fuelDataPoints : list StatusData.t) :
  (forall d, qualifying_drop cfg d ->
     AlertData.vehicleId d ∈ StatusData.device_id <$> fuelDataPoints ->
     holds_through I (AlertManager.addAlert E d)) ->
  holds_through I (processFuelData E fuelDataPoints).
Proof.
  intros Hadd. unfold processFuelData.
  destruct (group_by_device_grouped fuelDataPoints) as (_ & Hkeys & _).
  assert (Hin : forall entry, entry ∈ group_by_device fuelDataPoints ->
            holds_through I (analyzeVehicleFuelData E entry.1 entry.2)).
  { intros [deviceId points] Hentry.
    apply (analyzeVehicleFuelData_through E I cfg I_side I_cfg).
    intros d Hd Hid.
    apply Hadd; [exact Hd|]. rewrite Hid. apply Hkeys.
    apply list_elem_of_fmap. by exists (deviceId, points). }
  revert Hin. generalize (group_by_device fuelDataPoints) as groups.
  induction groups as [|g groups IH]; intros Hin; simpl.
  - apply through_ret.
  - apply through_bind; [apply Hin; left|].
    intros _. apply IH. intros entry Hentry. apply Hin. by right.
Qed.

Lemma pollForFuelData_through :
  (forall d, qualifying_drop cfg d -> holds_through I (AlertManager.addAlert E d)) ->
  holds_through I (pollForFuelData E).
Proof.
  intros Hadd. unfold pollForFuelData.
  assert (Hside : forall A (m : M A), keeps sink_side m -> holds_through I m).
  { intros A m. by apply side_through. }
  apply through_try_catch.
  - apply through_bind; [apply through_gets|]. intros token.
    apply through_bind.
    { apply Hside, api_GetFeed_side, sink_side_network. }
    intros result. apply through_bind.
    { apply Hside, set_feedToken_side. }
    intros _. destruct (FeedResult.data result) as [[|p ps]|];
      try apply through_ret.
    apply processFuelData_through. intros d Hd _. by apply Hadd.
  - intros e. destruct (mentions_version e); [|apply through_ret].
    apply Hside, set_feedToken_side.
Qed.

End Invariant.

Lemma only_added_cfg (P : Alert.t -> Prop) (cfg : Config.t) (base : list Alert.t)
    (w : World) :
  only_added P cfg base w -> config (fm w) = cfg.
Proof. by intros [H _]. Qed.

(** The state a poll tick ends in. *)
Lemma pollForFuelData_state (w : World) :
  (pollForFuelData E w).2
  = let w1 := logged (ReqFeed (build_feedCall (feedToken (fm w)))) w in
    match feed_answer E w with
    | FeedRejects e =>
        if mentions_version e then with_fm (set_feedToken None) w1 else w1
    | FeedResolves r =>
        let w2 := with_fm (set_feedToken (FeedResult.toVersion r)) w1 in
        match FeedResult.data r with
        | Some (p :: ps) => (processFuelData E (p :: ps) w2).2
        | _ => w2
        end
    end.
Proof.
  unfold feed_answer, pollForFuelData, try_catch, bind at 1, gets, bind at 1.
  rewrite api_GetFeed_run.
  set (call := build_feedCall (feedToken (fm w))).
  destruct (GetFeed E (length (network (browser w))) call) as [e|r]; simpl.
  - by destruct (mentions_version e).
  - unfold bind, modify.
    destruct (FeedResult.data r) as [[|p ps]|]; try done.
    set (w2 := with_fm _ _).
    destruct (after_processing E (p :: ps) w2) as (w' & Hw' & _).
    by rewrite Hw'.
Qed.

(** Logging a request and moving the cursor leave the sink and the
    configuration alone. *)
Lemma cursor_step_sink (t : option string) (r : Request) (w : World) :
  config (fm (with_fm (set_feedToken t) (logged r w))) = config (fm w)
  /\ alerts (am (with_fm (set_feedToken t) (logged r w))) = alerts (am w).
Proof. by destruct w as [? [] []]. Qed.

Lemma logged_sink (r : Request) (w : World) :
  config (fm (logged r w)) = config (fm w)
  /\ alerts (am (logged r w)) = alerts (am w).
Proof. by destruct w as [? [] []]. Qed.

(** X7. Whatever the feed returns and whatever the ignition and trip
    queries answer, one poll tick leaves the stored alerts in place and
    puts in front of them only alerts of qualifying drops under the
    configuration in force (the drop is the binary64 difference of the
    previous and the current level and reaches the threshold; the two
    were read within the window of each other; the duration is that time
    in minutes, rounded; the tier is the one the table gives the drop and
    the time), each for a vehicle with a reading in the answer to this
    tick.  The
    configuration itself is not changed by the tick. *)
Theorem poll_tick_adds_only_qualifying_alerts (w : World) :
  config (fm (pollForFuelData E w).2) = config (fm w)
  /\ exists new,
       alerts (am (pollForFuelData E w).2) = new ++ alerts (am w)
       /\ Forall (fun a => qualifying (config (fm w)) a
                           /\ Alert.vehicleId a ∈ feed_devices E w) new.
Proof.
  rewrite pollForFuelData_state. unfold feed_devices.
  set (call := build_feedCall (feedToken (fm w))).
  destruct (feed_answer E w) as [e|r]; cbv zeta.
  - destruct (mentions_version e).
    + destruct (cursor_step_sink None (ReqFeed call) w) as [-> ->].
      split; [done|]. by exists [].
    + destruct (logged_sink (ReqFeed call) w) as [-> ->].
      split; [done|]. by exists [].
  - set (w2 := with_fm (set_feedToken (FeedResult.toVersion r))
                 (logged (ReqFeed call) w)).
    destruct (cursor_step_sink (FeedResult.toVersion r) (ReqFeed call) w)
      as [Hc2 Ha2].
    fold w2 in Hc2, Ha2.
    destruct (FeedResult.data r) as [[|p ps]|] eqn:Hdata; simpl.
    + split; [done|]. by exists [].
    + set (P := fun a => qualifying (config (fm w)) a
                         /\ Alert.vehicleId a ∈ StatusData.device_id <$> p :: ps).
      apply (processFuelData_through (only_added P (config (fm w)) (alerts (am w)))
               (config (fm w)) (only_added_side P _ _) (only_added_cfg P _ _)
               (p :: ps)).
      * intros d Hd Hin. apply addAlert_only_added. intros i stamp.
        split; [by apply qualifying_alert_of | exact Hin].
      * split; [done|]. exists []. by rewrite Ha2.
    + split; [done|]. by exists [].
Qed.

End PollSink.

(** ** Results and exceptions through the monad *)

Section Ensures.

Lemma ensures_ret {A} (I : World -> Prop) (Q : A -> World -> Prop)
    (X : World -> Prop) (a : A) :
  (forall w, I w -> Q a w) -> ensures I Q X (ret a).
Proof. intros H w Hw. by apply H. Qed.

Lemma ensures_throw {A} (I : World -> Prop) (Q : A -> World -> Prop)
    (X : World -> Prop) (e : Error.t) :
  (forall w, I w -> X w) -> ensures I Q X (throw e).
Proof. intros H w Hw. by apply H. Qed.

Lemma ensures_gets {A} (I : World -> Prop) (Q : A -> World -> Prop)
    (X : World -> Prop) (g : World -> A) :
  (forall w, I w -> Q (g w) w) -> ensures I Q X (gets g).
Proof. intros H w Hw. by apply H. Qed.

Lemma ensures_bind {A C} (I : World -> Prop) (Q : A -> World -> Prop)
    (R : C -> World -> Prop) (X : World -> Prop) (m : M A) (k : A -> M C) :
  ensures I Q X m -> (forall a, ensures (Q a) R X (k a)) ->
  ensures I R X (bind m k).
Proof.
  intros Hm Hk w Hw. unfold bind. specialize (Hm w Hw).
  destruct (m w) as [[a|e] w1]; [by apply Hk | done].
Qed.

Lemma ensures_try_catch {A} (I : World -> Prop) (Q : A -> World -> Prop)
    (X Y : World -> Prop) (m : M A) (h : Error.t -> M A) :
  ensures I Q Y m -> (forall e, ensures Y Q X (h e)) ->
  ensures I Q X (try_catch m h).
Proof.
  intros Hm Hh w Hw. unfold try_catch. specialize (Hm w Hw).
  destruct (m w) as [[a|e] w1]; [done | by apply Hh].
Qed.

Lemma ensures_weaken {A} (I I' : World -> Prop) (Q Q' : A -> World -> Prop)
    (X X' : World -> Prop) (m : M A) :
  ensures I' Q' X' m ->
  (forall w, I w -> I' w) -> (forall a w, Q' a w -> Q a w) ->
  (forall w, X' w -> X w) ->
  ensures I Q X m.
Proof.
  intros Hm HI HQ HX w Hw. specialize (Hm w (HI w Hw)).
  destruct (m w) as [[a|e] w1]; [by apply HQ | by apply HX].
Qed.

(** A state property is kept whatever the outcome. *)
Lemma ensures_holds_through {A} (I : World -> Prop) (m : M A) :
  holds_through I m -> ensures I (fun _ => I) I m.
Proof.
  intros Hm w Hw. specialize (Hm w Hw). by destruct (m w) as [[a|e] w1].
Qed.

(** A computation that always returns cannot end in the exceptional
    state. *)
Lemma ensures_returns {A} (I : World -> Prop) (Q : A -> World -> Prop)
    (X : World -> Prop) (m : M A) :
  returns m -> ensures I Q (fun _ => True) m -> ensures I Q X m.
Proof.
  intros Hr Hm w Hw. specialize (Hm w Hw). destruct (Hr w) as [a Ha].
  destruct (m w) as [[a'|e] w1]; [done | discriminate].
Qed.

End Ensures.

(** ** The count of a historical analysis *)

Section HistoricalCount.
Import FuelMonitor.
Variable E : Env.

(** [I n]: a property of the sink, the storage and the configuration
    after [n] drops were counted. *)
Context (I : Z -> World -> Prop) (cfg : Config.t).
Hypothesis I_side : forall n w w', sink_side w' = sink_side w -> I n w -> I n w'.
Hypothesis I_cfg : forall n w, I n w -> config (fm w) = cfg.
Hypothesis I_add : forall n d w, qualifying_drop cfg d -> I n w ->
  I (n + 1) (AlertManager.addAlert E d w).2.

Lemma side_counted {A} (n : Z) (m : M A) :
  keeps sink_side m -> ensures (I n) (fun _ => I n) (I n) m.
Proof.
  intros Hk. apply ensures_holds_through.
  apply (through_keeps _ sink_side); [|exact Hk].
  intros w w'. apply I_side.
Qed.

Lemma replay_counted (vehicle : Device.t) (points : list StatusData.t) :
  forall (history : list Reading.t) (alertCount n : Z),
    ensures (I n)
            (fun alertCount' w => I (n + (alertCount' - alertCount)) w)
            (fun _ => False)
            (replay E vehicle points history alertCount).
Proof.
  induction points as [|point rest IH]; intros history alertCount n; simpl.
  - apply ensures_ret. intros w Hw. by replace (n + _) with n by lia.
  - intros w Hw. unfold bind at 1, gets at 1.
    rewrite (I_cfg n w Hw). revert w Hw.
    enough (Hrest : ensures (I n)
              (fun alertCount' w => I (n + (alertCount' - alertCount)) w)
              (fun _ => False)
              (alertCount' <-
                 match DropDetector.detectSuspiciousDrop cfg history
                         (to_reading point) with
                 | Some detection =>
                     isStationary <-
                       checkVehicleState E (Device.id vehicle)
                         (Reading.timestamp (to_reading point)) ;;
                     if isStationary : bool then
                       _ <- AlertManager.addAlert E
                         {| AlertData.vehicleId := Device.id vehicle;
                            AlertData.vehicleName := Device.name vehicle;
                            AlertData.severity :=
                              SeverityClassifier.determineSeverity
                                (Detection.dropPercent detection)
                                (Detection.durationMinutes detection);
                            AlertData.fuelDrop := Detection.dropPercent detection;
                            AlertData.previousLevel := Detection.previousLevel detection;
                            AlertData.currentLevel := Detection.currentLevel detection;
                            AlertData.duration :=
                              JS.Math_round (Detection.durationMinutes detection);
                            AlertData.location := None;
                            AlertData.timestamp :=
                              Some (Reading.timestamp (to_reading point));
                            AlertData.isHistorical := Some true |} ;;
                       ret (alertCount + 1)
                     else ret alertCount
                 | None => ret alertCount
                 end ;;
               cfg' <- gets (fun w => config (fm w)) ;;
               replay E vehicle rest
                 (shift_while_older
                    (Reading.timestamp (to_reading point)
                     - Config.timeWindowMinutes cfg' * 2 * 60 * 1000)
                    (history ++ [to_reading point])) alertCount')).
    { intros w Hw. by apply Hrest. }
    apply (ensures_bind _
             (fun alertCount' w => I (n + (alertCount' - alertCount)) w)).
    + destruct (DropDetector.detectSuspiciousDrop cfg history (to_reading point))
        as [detection|] eqn:Hdet.
      * apply (ensures_bind _ (fun _ => I n)).
        { apply ensures_returns; [apply checkVehicleState_returns|].
          eapply ensures_weaken;
            [apply (side_counted n), checkVehicleState_side; side_frame
            | done | done | done]. }
        intros [|].
        -- apply (ensures_bind _ (fun _ => I (n + 1))).
           { intros w Hw.
             match goal with
             | |- context [AlertManager.addAlert E ?d w] =>
                 pose proof (I_add n d w (detection_payload _ _ _ _ _ _ _ _ Hdet) Hw)
                   as Hnew;
                 destruct (addAlert_returns E d w) as [added Hadded];
                 destruct (AlertManager.addAlert E d w) as [[a|e] w1]
             end; [done | discriminate]. }
           intros added. apply ensures_ret. intros w Hw.
           by replace (n + (alertCount + 1 - alertCount)) with (n + 1) by lia.
        -- apply ensures_ret. intros w Hw. by replace (n + _) with n by lia.
      * apply ensures_ret. intros w Hw. by replace (n + _) with n by lia.
    + intros alertCount'. intros w Hw. unfold bind at 1, gets at 1.
      specialize (IH (shift_while_older
                        (Reading.timestamp (to_reading point)
                         - Config.timeWindowMinutes (config (fm w)) * 2 * 60 * 1000)
                        (history ++ [to_reading point]))
                     alertCount' (n + (alertCount' - alertCount)) w Hw).
      destruct (replay E vehicle rest _ alertCount' w) as [[c|e] w1]; [|done].
      by replace (n + (c - alertCount))
        with (n + (alertCount' - alertCount) + (c - alertCount')) by lia.
Qed.

Lemma analyzeVehicleHistory_counted (vehicle : Device.t) (fromDate toDate n : Z) :
  ensures (I n) (fun found w => I (n + found) w) (fun _ => False)
          (analyzeVehicleHistory E vehicle fromDate toDate).
Proof.
  unfold analyzeVehicleHistory.
  apply (ensures_try_catch _ _ _ (I n)).
  - apply (ensures_bind _ (fun _ => I n)).
    { apply side_counted, api_Get_StatusData_side; side_frame. }
    intros fuelData. destruct (too_short fuelData).
    + apply ensures_ret. intros w Hw. by replace (n + 0) with n by lia.
    + eapply ensures_weaken; [apply (replay_counted _ _ _ 0 n) | done | | done].
      intros c w Hw. by replace (n + c) with (n + (c - 0)) by lia.
  - intros _. apply ensures_ret. intros w Hw. by replace (n + 0) with n by lia.
Qed.

Section Progress.
Variable progressCallback : option Callback.
Hypothesis callback_side :
  forall message percent, keeps sink_side (notify progressCallback message percent).

Lemma each_vehicle_counted (fromDate toDate total : Z) (vehicles : list Device.t) :
  forall processed totalAlerts : Z,
    ensures (I totalAlerts) (fun totalAlerts' w => I totalAlerts' w)
            (fun _ => False)
            (each_vehicle E fromDate toDate progressCallback total vehicles
               processed totalAlerts).
Proof.
  induction vehicles as [|vehicle rest IH]; intros processed totalAlerts; simpl.
  - by apply ensures_ret.
  - apply (ensures_bind _
             (fun outcome w =>
                match outcome with
                | Some found => I (totalAlerts + found) w
                | None => False
                end)).
    + apply (ensures_try_catch _ _ _ (fun _ => False)).
      * eapply ensures_bind; [apply analyzeVehicleHistory_counted|].
        intros found. by apply ensures_ret.
      * intros e w [].
    + intros [found|]; [|intros w []].
      apply (ensures_bind _ (fun _ => I (totalAlerts + found)));
        [|intros _; apply IH].
      apply ensures_returns.
      { apply returns_try_catch. intros _. apply returns_ret. }
      eapply ensures_weaken; [apply side_counted| done | done | done].
      apply keeps_try_catch; [apply callback_side | intros _; apply keeps_ret].
Qed.

Lemma loadVehicles_side : keeps sink_side (loadVehicles E).
Proof.
  unfold loadVehicles. frame;
    solve [ apply Date_now_side; side_frame
          | apply api_Get_Device_side; side_frame ].
Qed.

(** The analysis ends with [I] at its count, or throws with [I] at some
    count. *)
Lemma analyzeHistoricalData_counted (fromDate toDate : Z) :
  ensures (I 0) (fun totalAlerts w => I totalAlerts w) (fun w => exists n, I n w)
          (analyzeHistoricalData E fromDate toDate progressCallback).
Proof.
  unfold analyzeHistoricalData.
  apply (ensures_try_catch _ _ _ (fun w => exists n, I n w));
    [|intros e; by apply ensures_throw].
  assert (Hside : forall {A} (m : M A) n, keeps sink_side m ->
            ensures (I n) (fun _ => I n) (fun w => exists n, I n w) m).
  { intros A m n Hm. eapply ensures_weaken; [by apply (side_counted n) | done..|].
    intros w Hw. by exists n. }
  apply (ensures_bind _ (fun _ => I 0)); [by apply ensures_gets|]. intros cache.
  apply (ensures_bind _ (fun _ => I 0)).
  { apply Hside. destruct (bool_decide _); [apply loadVehicles_side | apply keeps_ret]. }
  intros _.
  apply (ensures_bind _ (fun _ => I 0)); [by apply ensures_gets|]. intros vehicles.
  apply (ensures_bind _ (fun _ => I 0)).
  { apply Hside, callback_side. }
  intros _.
  eapply ensures_bind.
  { eapply ensures_weaken; [apply each_vehicle_counted | done | | done].
    intros a w Hw. exact Hw. }
  intros totalAlerts. cbv beta.
  apply (ensures_bind _ (fun _ => I totalAlerts)); [apply Hside, callback_side|].
  intros _. by apply ensures_ret.
Qed.

End Progress.

End HistoricalCount.

Section Counted.
Variable E : Env.
Context (P : Alert.t -> Prop) (cfg : Config.t) (base : list Alert.t).
Hypothesis HP : forall a, qualifying cfg a -> P a.

Lemma counted_side (n : Z) (w w' : World) :
  sink_side w' = sink_side w -> counted P cfg base n w -> counted P cfg base n w'.
Proof. unfold sink_side, counted. by intros [= -> _ ->]. Qed.

Lemma counted_cfg (n : Z) (w : World) : counted P cfg base n w -> config (fm w) = cfg.
Proof. by intros [H _]. Qed.

Lemma counted_mono (n n' : Z) (w : World) :
  n <= n' -> counted P cfg base n w -> counted P cfg base n' w.
Proof.
  intros Hle (Hcfg & new & Hnew & Hall & Hlen). split; [done|].
  exists new. repeat split; [done..|lia].
Qed.

(** The sink takes the alert or leaves it. *)
Lemma addAlert_counted (n : Z) (d : AlertData.t) (w : World) :
  qualifying_drop cfg d -> counted P cfg base n w ->
  counted P cfg base (n + 1) (AlertManager.addAlert E d w).2.
Proof.
  intros Hd (Hcfg & new & Hnew & Hall & Hlen).
  destruct (gate_closed_dec E (AlertData.vehicleId d) w) as [Hc|Ho].
  - rewrite (addAlert_rejects E d w Hc). simpl.
    split; [done|]. exists new. repeat split; [done..|lia].
  - rewrite (addAlert_accepts E d w Ho). simpl.
    split; [done|].
    eexists (_ :: new). simpl. rewrite Hnew. split; [reflexivity|].
    split; [|lia]. constructor; [|exact Hall]. by apply HP, qualifying_alert_of.
Qed.

End Counted.

(** X8. A historical analysis, whatever the queries answer, leaves the
    stored alerts in place and puts in front of them only alerts of
    qualifying drops under the configuration in force; it does not change
    the configuration; and the number of potential theft events it reports
    is never less than the number of alerts it stored.  (It can be more:
    the sink answers [false] for a drop in the cooldown of its vehicle and
    the count goes up all the same.)  The progress callback is any that
    leaves the sink, the storage and the configuration alone. *)
Theorem historical_count_covers_stored_alerts (E : Env) (fromDate toDate : Z)
    (progressCallback : option FuelMonitor.Callback) (w : World) :
  (forall message percent,
     keeps sink_side (FuelMonitor.notify progressCallback message percent)) ->
  config (fm (FuelMonitor.analyzeHistoricalData E fromDate toDate progressCallback w).2)
  = config (fm w)
  /\ exists new,
       alerts (am (FuelMonitor.analyzeHistoricalData E fromDate toDate
                     progressCallback w).2) = new ++ alerts (am w)
       /\ Forall (qualifying (config (fm w))) new
       /\ forall totalAlerts,
            (FuelMonitor.analyzeHistoricalData E fromDate toDate progressCallback w).1
            = Ok totalAlerts ->
            Z.of_nat (length new) <= totalAlerts.
Proof.
  intros Hcb.
  assert (Hstart : counted (qualifying (config (fm w))) (config (fm w))
                     (alerts (am w)) 0 w).
  { split; [done|]. exists []. repeat split; [constructor | simpl; lia]. }
  set (P := qualifying (config (fm w))). set (cfg := config (fm w)).
  set (base := alerts (am w)).
  pose proof (analyzeHistoricalData_counted E (counted P cfg base) cfg
                (counted_side P cfg base) (counted_cfg P cfg base)
                (addAlert_counted E P cfg base (fun a Ha => Ha))
                progressCallback Hcb fromDate toDate w Hstart) as Hrun.
  destruct (FuelMonitor.analyzeHistoricalData E fromDate toDate progressCallback w)
    as [[n|e] w1]; simpl.
  - destruct Hrun as (Hcfg & new & Hnew & Hall & Hlen).
    split; [done|]. exists new. repeat split; [done..|].
    by intros ? [= <-].
  - destruct Hrun as (k & Hcfg & new & Hnew & Hall & _).
    split; [done|]. exists new. repeat split; done.
Qed.

Lemma historical_count_covers_stored_alerts_witness :
  let E := Fixtures.parked_fleet [Fixtures.truck] Fixtures.hours_apart
             (fun _ => Fixtures.noon) in
  let run := FuelMonitor.analyzeHistoricalData E Fixtures.past Fixtures.noon None
               (Fixtures.loaded [Fixtures.truck]) in
  run.1 = Ok 2
  /\ exists new,
       alerts (am run.2) = new ++ []
       /\ Forall (qualifying Config.default) new
       /\ forall totalAlerts, run.1 = Ok totalAlerts ->
            Z.of_nat (length new) <= totalAlerts.
Proof.
  split; [by vm_compute|].
  apply (historical_count_covers_stored_alerts
           (Fixtures.parked_fleet [Fixtures.truck] Fixtures.hours_apart
              (fun _ => Fixtures.noon))
           Fixtures.past Fixtures.noon None (Fixtures.loaded [Fixtures.truck])).
  intros message percent w. reflexivity.
Defined.

(** The drops are those of binary64: readings of [0.254] and then [0.154]
    of a tank are a drop just below the threshold of 10, and the analysis
    reports and stores nothing; readings of [0.372] and then [0.122] are
    a drop just above 25, and the one alert is critical. *)
Example historical_drops_in_binary64 :
  let fleet (first second : Z) :=
    Fixtures.parked_fleet [Fixtures.truck]
      (fun _ => [Fixtures.fuel_level "b1" Fixtures.past first 1000;
                 Fixtures.fuel_level "b1" (Fixtures.past + Fixtures.minutes 5)
                   second 1000])
      (fun _ => Fixtures.noon) in
  let run (first second : Z) :=
    FuelMonitor.analyzeHistoricalData (fleet first second) Fixtures.past Fixtures.noon
      None (Fixtures.loaded [Fixtures.truck]) in
  (run 254 154).1 = Ok 0
  /\ alerts (am (run 254 154).2) = []
  /\ (run 372 122).1 = Ok 1
  /\ Alert.severity <$> alerts (am (run 372 122).2) = ["critical"]
  /\ Forall (fun a => (JS.of_Z 25 < Alert.fuelDrop a)%F /\ Alert.duration a = JS.of_Z 5)
       (alerts (am (run 372 122).2)).
Proof.
  cbv zeta. split; [by vm_compute|]. split; [by vm_compute|].
  split; [by vm_compute|]. split; [by vm_compute|].
  vm_compute. by repeat constructor.
Qed.

(** ** The alert list and its numbering *)

Section Numbering.

Lemma falling_filter (P : Alert.t -> Prop) `{!forall a, Decision (P a)}
    (l : list Alert.t) :
  StronglySorted (fun a b => Alert.id b < Alert.id a) l ->
  StronglySorted (fun a b => Alert.id b < Alert.id a) (filter P l).
Proof.
  induction 1 as [|a l Hl IH Ha]; [constructor|].
  rewrite filter_cons. destruct (decide (P a)); [|exact IH].
  constructor; [exact IH|].
  apply Forall_forall. intros b [_ Hb]%list_elem_of_filter.
  by apply (proj1 (Forall_forall _ _) Ha).
Qed.

Lemma falling_take (n : nat) (l : list Alert.t) :
  StronglySorted (fun a b => Alert.id b < Alert.id a) l ->
  StronglySorted (fun a b => Alert.id b < Alert.id a) (take n l).
Proof.
  intros Hl. revert n. induction Hl as [|a l Hl IH Ha]; intros [|n]; simpl;
    try constructor; [apply IH|].
  by apply Forall_take.
Qed.

Lemma bounded_filter (P Q : Alert.t -> Prop) `{!forall a, Decision (P a)}
    (l : list Alert.t) :
  Forall Q l -> Forall Q (filter P l).
Proof.
  intros Hl. apply Forall_forall. intros b [_ Hb]%list_elem_of_filter.
  by apply (proj1 (Forall_forall _ _) Hl).
Qed.

Lemma max_id_bound (l : list Alert.t) :
  Forall (fun a => Alert.id a <= AlertStore.max_id l) l.
Proof.
  destruct l as [|a l]; [constructor|]. simpl.
  assert (Hfold : forall (x : Z) (ids : list Z),
            x <= foldr Z.max x ids /\ Forall (fun i => i <= foldr Z.max x ids) ids).
  { intros x ids. induction ids as [|i ids [IH1 IH2]]; simpl; [by split|].
    split; [lia|]. constructor; [lia|].
    eapply Forall_impl; [exact IH2|]. simpl. lia. }
  destruct (Hfold (Alert.id a) (map Alert.id l)) as [H1 H2].
  constructor; [exact H1|].
  apply Forall_forall. intros b Hb.
  apply (proj1 (Forall_forall _ _) H2). apply list_elem_of_fmap. by exists b.
Qed.

(** In a falling list the greatest id is the first. *)
Lemma max_id_falling (l : list Alert.t) :
  StronglySorted (fun a b => Alert.id b < Alert.id a) l ->
  AlertStore.max_id l = match l with [] => 0 | a :: _ => Alert.id a end.
Proof.
  destruct l as [|a l]; [done|]. intros Hl%StronglySorted_inv. destruct Hl as [_ Ha].
  simpl. induction l as [|b l IH]; simpl; [done|].
  apply Forall_cons in Ha as [Hb Ha]. rewrite (IH Ha). lia.
Qed.

Lemma numbered_store (w w' : World) :
  alert_store w' = alert_store w -> numbered w -> numbered w'.
Proof. unfold alert_store, numbered. by intros [= -> ->]. Qed.

Lemma numbered_side (w w' : World) :
  sink_side w' = sink_side w -> numbered w -> numbered w'.
Proof.
  intros H. apply numbered_store. unfold sink_side, alert_store in *.
  by injection H as -> -> _.
Qed.

End Numbering.

Section AlertStoreFacts.
Variable E : Env.

Lemma saveAlerts_run (w : World) :
  AlertManager.saveAlerts w = (Ok tt, with_alerts (alerts (am w)) w).
Proof. by destruct w as [[] ? ?]. Qed.

Lemma dismissAlert_run (alertId : Z) (w : World) :
  AlertStore.dismissAlert alertId w
  = (Ok tt, with_alerts (filter (fun a => Alert.id a <> alertId) (alerts (am w))) w).
Proof. by destruct w as [[] ? ?]. Qed.

Lemma loadAlerts_run (w : World) :
  AlertStore.loadAlerts w
  = (Ok tt,
     match localStorage (browser w) !! "fuelMonitorAlerts" with
     | Some (StoredAlerts l) =>
         with_am (fun s => AlertManager.set_alertIdCounter (AlertStore.max_id l)
                             (AlertManager.set_alerts l s)) w
     | _ => w
     end).
Proof.
  unfold AlertStore.loadAlerts, bind, gets.
  by destruct (localStorage (browser w) !! "fuelMonitorAlerts") as [[]|].
Qed.

Lemma clearAlerts_run (w : World) :
  AlertStore.clearAlerts w
  = (Ok tt, with_am (AlertManager.set_alertIdCounter 0) (with_alerts [] w)).
Proof.
  unfold AlertStore.clearAlerts, bind at 1, modify at 1, bind at 1.
  rewrite saveAlerts_run, loadAlerts_run.
  cbn [with_alerts with_browser browser localStorage set_localStorage].
  by rewrite lookup_insert_eq.
Qed.

Lemma with_alerts_numbered (l : list Alert.t) (w : World) :
  0 <= alertIdCounter (am w) ->
  StronglySorted (fun a b => Alert.id b < Alert.id a) l ->
  Forall (fun a => 0 < Alert.id a <= alertIdCounter (am w)) l ->
  numbered (with_alerts l w).
Proof.
  intros H0 Hs Hb. split; [done|]. split; [done|]. split; [done|].
  intros l'. cbn. rewrite lookup_insert_eq. by intros [= <-].
Qed.

Lemma dismissAlert_numbered (alertId : Z) :
  holds_through numbered (AlertStore.dismissAlert alertId).
Proof.
  intros w (H0 & Hs & Hb & _). rewrite dismissAlert_run.
  apply with_alerts_numbered; [done | by apply falling_filter | by apply bounded_filter].
Qed.

Lemma clearAlerts_numbered : holds_through numbered AlertStore.clearAlerts.
Proof.
  intros w _. rewrite clearAlerts_run. split; [done|].
  split; [constructor|]. split; [constructor|].
  intros l'. cbn. rewrite lookup_insert_eq. by intros [= <-].
Qed.

Lemma loadAlerts_numbered : holds_through numbered AlertStore.loadAlerts.
Proof.
  intros w Hw. rewrite loadAlerts_run. cbn [snd].
  destruct (localStorage (browser w) !! "fuelMonitorAlerts") as [[c|s1 s2|l]|] eqn:Hl;
    try exact Hw.
  destruct Hw as (H0 & Hs & Hb & Hst).
  specialize (Hst l Hl). subst l.
  assert (Hs' := falling_take 100 _ Hs).
  split; [|split; [exact Hs'|split]]; cbn.
  - rewrite (max_id_falling _ Hs').
    destruct (take 100 (alerts (am w))) as [|a l] eqn:Ht; [done|].
    assert (Ha : a ∈ alerts (am w)).
    { apply (subseteq_take 100). rewrite Ht. by left. }
    apply (proj1 (Forall_forall _ _) Hb) in Ha. lia.
  - apply Forall_forall. intros a Ha. split.
    + apply (subseteq_take 100) in Ha.
      apply (proj1 (Forall_forall _ _) Hb) in Ha. lia.
    + by apply (proj1 (Forall_forall _ _) (max_id_bound _)).
  - intros l'. rewrite Hl. intros [= <-]. by rewrite take_take.
Qed.

Lemma addAlert_numbered (d : AlertData.t) :
  holds_through numbered (AlertManager.addAlert E d).
Proof.
  intros w Hw.
  destruct (gate_closed_dec E (AlertData.vehicleId d) w) as [Hc|Ho].
  - rewrite (addAlert_rejects E d w Hc). simpl.
    revert Hw. apply numbered_store. by destruct w as [? ? []].
  - rewrite (addAlert_accepts E d w Ho). destruct Hw as (H0 & Hs & Hb & _).
    cbn [snd]. unfold accepted, numbered. cbn.
    split; [lia|]. split; [|split].
    + constructor; [exact Hs|].
      eapply Forall_impl; [exact Hb|]. simpl. lia.
    + constructor; [simpl; lia|].
      eapply Forall_impl; [exact Hb|]. simpl. lia.
    + intros l'. rewrite lookup_insert_eq. by intros [= <-].
Qed.

End AlertStoreFacts.

(** ** What the pipeline leaves alone *)

Ltac controls_side :=
  solve [ by intros ? [? ? []] | by intros ? [? [] ?] | by intros ? [[] ? ?] ].

Section ControlFrames.
Variable E : Env.

Lemma with_alerts_controls (l : list Alert.t) (w : World) :
  controls (with_alerts l w) = controls w.
Proof.
  unfold controls, with_alerts. cbn.
  by rewrite !lookup_insert_ne.
Qed.

Lemma saveAlerts_controls : keeps controls AlertManager.saveAlerts.
Proof. intros w. rewrite saveAlerts_run. apply with_alerts_controls. Qed.

Lemma addAlert_controls (d : AlertData.t) : keeps controls (AlertManager.addAlert E d).
Proof.
  unfold AlertManager.addAlert, AlertManager.isDuplicate.
  frame; solve [apply Date_now_side; controls_side | apply saveAlerts_controls].
Qed.

Lemma dismissAlert_controls (alertId : Z) :
  keeps controls (AlertStore.dismissAlert alertId).
Proof. intros w. rewrite dismissAlert_run. apply with_alerts_controls. Qed.

Lemma loadAlerts_controls : keeps controls AlertStore.loadAlerts.
Proof.
  intros w. rewrite loadAlerts_run. cbn [snd].
  by destruct (localStorage (browser w) !! "fuelMonitorAlerts") as [[]|].
Qed.

Lemma clearAlerts_controls : keeps controls AlertStore.clearAlerts.
Proof.
  intros w. rewrite clearAlerts_run. cbn [snd].
  by rewrite <- (with_alerts_controls [] w).
Qed.

Lemma analyzeVehicleFuelData_controls (deviceId : string) (points : list Reading.t) :
  keeps controls (FuelMonitor.analyzeVehicleFuelData E deviceId points).
Proof.
  unfold FuelMonitor.analyzeVehicleFuelData.
  frame; solve [ apply store_history_side; controls_side
               | apply checkVehicleState_side; controls_side
               | apply addAlert_controls
               | apply push_and_prune_side; controls_side ].
Qed.

Lemma pollForFuelData_controls : keeps controls (FuelMonitor.pollForFuelData E).
Proof.
  unfold FuelMonitor.pollForFuelData, FuelMonitor.processFuelData.
  frame; solve [ apply api_GetFeed_side; controls_side
               | apply analyzeVehicleFuelData_controls ].
Qed.

Lemma loadVehicles_controls : keeps controls (FuelMonitor.loadVehicles E).
Proof.
  unfold FuelMonitor.loadVehicles.
  frame; solve [ apply Date_now_side; controls_side
               | apply api_Get_Device_side; controls_side ].
Qed.

Lemma replay_controls (vehicle : Device.t) (points : list StatusData.t)
    (history : list Reading.t) (alertCount : Z) :
  keeps controls (FuelMonitor.replay E vehicle points history alertCount).
Proof.
  revert history alertCount. induction points as [|p points IH]; intros history n; simpl.
  - apply keeps_ret.
  - frame; solve [ apply checkVehicleState_side; controls_side
                 | apply addAlert_controls | apply IH ].
Qed.

Lemma recording_controls (message : string) (percent : F64.t) :
  keeps controls (FuelMonitor.notify (Some FuelMonitor.recording) message percent).
Proof. by intros [? ? []]. Qed.

Lemma each_vehicle_controls (fromDate toDate total : Z) (vehicles : list Device.t)
    (processed totalAlerts : Z) :
  keeps controls
    (FuelMonitor.each_vehicle E fromDate toDate (Some FuelMonitor.recording) total
       vehicles processed totalAlerts).
Proof.
  revert processed totalAlerts.
  induction vehicles as [|v vehicles IH]; intros processed totalAlerts; simpl.
  - apply keeps_ret.
  - unfold FuelMonitor.analyzeVehicleHistory.
    frame; solve [ apply api_Get_StatusData_side; controls_side
                 | apply replay_controls
                 | apply (recording_controls _ _)
                 | apply IH ].
Qed.

Lemma analyzeHistoricalData_controls (fromDate toDate : Z) :
  keeps controls
    (FuelMonitor.analyzeHistoricalData E fromDate toDate (Some FuelMonitor.recording)).
Proof.
  unfold FuelMonitor.analyzeHistoricalData.
  frame; solve [ apply loadVehicles_controls
               | apply (recording_controls _ _)
               | apply each_vehicle_controls ].
Qed.

End ControlFrames.

(** ** Starting, stopping and rescheduling *)

Section LifecycleFacts.
Variable E : Env.

Lemma controls_inv (w w' : World) :
  controls w' = controls w ->
  isMonitoring (fm w') = isMonitoring (fm w)
  /\ pollInterval (fm w') = pollInterval (fm w)
  /\ intervals (browser w') = intervals (browser w)
  /\ nextInterval (browser w') = nextInterval (browser w)
  /\ config (fm w') = config (fm w)
  /\ localStorage (browser w') !! "fuelMonitorConfig"
     = localStorage (browser w) !! "fuelMonitorConfig".
Proof. unfold controls. intros [= -> -> -> -> -> -> _ _ _]. done. Qed.

Lemma startMonitoring_idle (w : World) :
  isMonitoring (fm w) = true -> Lifecycle.startMonitoring E w = (Ok tt, w).
Proof. intros H. unfold Lifecycle.startMonitoring, bind, gets. by rewrite H. Qed.

(** The timer started by [startMonitoring] in [w]. *)
Lemma startMonitoring_outcome (w : World) :
  isMonitoring (fm w) = false ->
  exists w1,
    Lifecycle.startMonitoring E w = (Ok tt, w1)
    /\ match Get_Device E (length (network (browser w))) (next_clock E w) with
       | Rows _ =>
           isMonitoring (fm w1) = true
           /\ pollInterval (fm w1) = Some (nextInterval (browser w))
           /\ intervals (browser w1)
              = <[nextInterval (browser w) :=
                    Config.pollIntervalSeconds (config (fm w)) * 1000]>
                  (intervals (browser w))
           /\ nextInterval (browser w1) = S (nextInterval (browser w))
           /\ config (fm w1) = config (fm w)
           /\ localStorage (browser w1) !! "fuelMonitorConfig"
              = localStorage (browser w) !! "fuelMonitorConfig"
       | _ => controls w1 = controls w
       end.
Proof.
  intros Hoff. unfold Lifecycle.startMonitoring, bind at 1, gets at 1.
  rewrite Hoff. unfold try_catch, bind at 1.
  rewrite loadVehicles_run. cbv zeta.
  destruct (Get_Device E (length (network (browser w))) (next_clock E w))
    as [e| |devices].
  - eexists. split; [reflexivity|]. by destruct w as [? ? []].
  - eexists. split; [reflexivity|]. by destruct w as [? ? []].
  - unfold bind at 1, modify at 1. unfold bind at 1.
    set (w2 := with_fm (Lifecycle.set_isMonitoring true) _).
    assert (H2 : isMonitoring (fm w2) = true
                 /\ intervals (browser w2) = intervals (browser w)
                 /\ nextInterval (browser w2) = nextInterval (browser w)
                 /\ config (fm w2) = config (fm w)
                 /\ localStorage (browser w2) !! "fuelMonitorConfig"
                    = localStorage (browser w) !! "fuelMonitorConfig").
    { by destruct w as [? [] []]. }
    destruct H2 as (Hm2 & Hi2 & Hn2 & Hc2 & Hs2).
    destruct (pollForFuelData_run E w2) as (w3 & Hrun & _).
    pose proof (pollForFuelData_controls E w2) as Hk. rewrite Hrun in Hk |- *.
    simpl in Hk. apply controls_inv in Hk as (Hm3 & _ & Hi3 & Hn3 & Hc3 & Hs3).
    eexists. split; [reflexivity|]. cbn.
    rewrite Hm3, Hi3, Hn3, Hc3, Hs3, Hm2, Hi2, Hn2, Hc2, Hs2. done.
Qed.

Lemma stopMonitoring_run (w : World) :
  Lifecycle.stopMonitoring w
  = (Ok tt,
     with_fm (Lifecycle.set_isMonitoring false)
       (if Lifecycle.truthy_handle (pollInterval (fm w))
        then with_fm (set_pollInterval None)
               (with_browser (fun b =>
                  set_intervals
                    (match pollInterval (fm w) with
                     | Some h => delete h (intervals b)
                     | None => intervals b
                     end) (nextInterval b) b) w)
        else w)).
Proof.
  unfold Lifecycle.stopMonitoring, bind at 1, gets at 1.
  destruct (pollInterval (fm w)) as [[|h]|] eqn:Hh; try done.
Qed.

(** The state [updateConfig] ends in. *)
Lemma one_timer_controls (w w' : World) :
  controls w' = controls w -> one_timer w -> one_timer w'.
Proof.
  intros (Hm & Hp & Hi & Hn & _)%controls_inv. unfold one_timer.
  by rewrite Hm, Hp, Hi, Hn.
Qed.

(** The timers alone. *)
Lemma one_timer_controls_weak (w w' : World) :
  isMonitoring (fm w') = isMonitoring (fm w) ->
  pollInterval (fm w') = pollInterval (fm w) ->
  intervals (browser w') = intervals (browser w) ->
  nextInterval (browser w') = nextInterval (browser w) ->
  one_timer w -> one_timer w'.
Proof. intros Hm Hp Hi Hn. unfold one_timer. by rewrite Hm, Hp, Hi, Hn. Qed.

Lemma startMonitoring_one_timer :
  holds_through one_timer (Lifecycle.startMonitoring E).
Proof.
  intros w Hw. destruct (isMonitoring (fm w)) eqn:Hm.
  { by rewrite startMonitoring_idle. }
  destruct (startMonitoring_outcome w Hm) as (w1 & -> & Hout). cbn [snd].
  destruct Hw as [Hpos Hw]. rewrite Hm in Hw. destruct Hw as [Hp Hi].
  destruct (Get_Device E _ _);
    try (apply (one_timer_controls w); [exact Hout|];
         split; [done|]; by rewrite Hm).
  destruct Hout as (Hm1 & Hp1 & Hi1 & Hn1 & _).
  split; [lia|]. rewrite Hm1.
  exists (nextInterval (browser w)), (Config.pollIntervalSeconds (config (fm w)) * 1000).
  split; [done|]. split; [lia|]. rewrite Hi1, Hi. apply insert_empty.
Qed.

Lemma stopMonitoring_one_timer : holds_through one_timer Lifecycle.stopMonitoring.
Proof.
  intros w [Hpos Hw]. rewrite stopMonitoring_run. cbn [snd].
  destruct (isMonitoring (fm w)).
  - destruct Hw as (h & period & Hp & Hh & Hi). rewrite Hp. simpl.
    destruct h as [|h]; [lia|]. simpl.
    split; [done|]. cbn. split; [done|]. rewrite Hi. apply delete_singleton_eq.
  - destruct Hw as [Hp Hi]. rewrite Hp. simpl. split; [done|]. by cbn.
Qed.

Lemma updateConfig_one_timer (newConfig : NewConfig.t) :
  holds_through one_timer (FuelMonitor.updateConfig newConfig).
Proof.
  intros w [Hpos Hw]. rewrite updateConfig_run. cbn [snd]. cbv zeta.
  destruct (isMonitoring (fm w)) eqn:Hm.
  - destruct Hw as (h & period & Hp & Hh & Hi).
    destruct (FuelMonitor.wants_reschedule true newConfig).
    + rewrite Hp. split; [cbn; lia|]. cbn. rewrite Hm.
      eexists _, _. split; [done|]. split; [lia|].
      rewrite Hi, delete_singleton_eq. apply insert_empty.
    + split; [done|]. cbn. rewrite Hm. by exists h, period.
  - simpl. split; [done|]. cbn. by rewrite Hm.
Qed.

Lemma saveSettings_one_timer (form : Main.Form) :
  holds_through one_timer (Main.saveSettings form).
Proof.
  intros w Hw. unfold Main.saveSettings.
  assert (Hdialog : forall text, one_timer (Runtime.window_alert text w).2).
  { intros text. revert Hw. by apply one_timer_controls_weak. }
  destruct (Main.invalid (Main.threshold form) 1 50); [apply Hdialog|].
  destruct (Main.invalid (Main.timeWindow form) 5 120); [apply Hdialog|].
  destruct (Main.invalid (Main.pollInterval form) 10 300); [apply Hdialog|].
  match goal with
  | |- context [FuelMonitor.updateConfig ?n] =>
      pose proof (updateConfig_one_timer n w Hw) as H1
  end.
  unfold bind at 1. rewrite updateConfig_run in H1 |- *. cbn [snd] in H1.
  match type of H1 with one_timer ?x => set (w1 := x) in * end.
  clearbody w1. revert H1. by apply one_timer_controls_weak.
Qed.

End LifecycleFacts.

(** ** Sessions *)

Section Sessions.
Variable E : Env.

Lemma session_snoc (calls : list Call) (c : Call) (w : World) :
  session E (calls ++ [c]) w = (call E c (session E calls w)).2.
Proof. unfold session. by rewrite fold_left_app. Qed.

(** A property every call keeps holds after every session. *)
Lemma session_invariant (I : World -> Prop) (allowed : Call -> bool) :
  (forall c, allowed c = true -> holds_through I (call E c)) ->
  forall calls w, forallb allowed calls = true -> I w -> I (session E calls w).
Proof.
  intros Hcall calls. induction calls as [|c calls IH]; intros w Hall Hw; [done|].
  simpl in Hall. apply andb_true_iff in Hall as [Hc Hall].
  simpl. apply IH; [exact Hall|]. by apply Hcall.
Qed.

Lemma loadConfig_run (w : World) :
  Lifecycle.loadConfig w
  = (Ok tt,
     match localStorage (browser w) !! "fuelMonitorConfig" with
     | Some (StoredConfig c) => with_fm (set_config c) w
     | _ => w
     end).
Proof.
  unfold Lifecycle.loadConfig, bind, gets.
  by destruct (localStorage (browser w) !! "fuelMonitorConfig") as [[]|].
Qed.

(** *** The timer *)

Lemma call_one_timer (c : Call) : holds_through one_timer (call E c).
Proof.
  assert (Hframe : forall A (m : M A), keeps controls m -> holds_through one_timer m).
  { intros A m. apply through_keeps. intros w w'. apply one_timer_controls. }
  destruct c; simpl.
  - apply through_bind; [apply Hframe, addAlert_controls | intros _; apply through_ret].
  - apply Hframe, dismissAlert_controls.
  - apply Hframe, clearAlerts_controls.
  - apply Hframe, loadAlerts_controls.
  - intros w. unfold Lifecycle.init. rewrite loadConfig_run. cbn [snd].
    by destruct (localStorage (browser w) !! "fuelMonitorConfig") as [[]|].
  - apply startMonitoring_one_timer.
  - apply stopMonitoring_one_timer.
  - apply Hframe, pollForFuelData_controls.
  - apply updateConfig_one_timer.
  - apply saveSettings_one_timer.
  - apply through_bind; [apply Hframe, analyzeHistoricalData_controls
                        | intros _; apply through_ret].
Qed.

(** X12. Calls that run to completion one after another never leave more
    than one polling timer alive.  From a state with no timer and
    monitoring off (or one timer whose handle is held, and monitoring on),
    in a browser that hands out non-zero handles, every session ends in
    such a state: while monitoring is on exactly one timer is alive and
    its handle is the one [stopMonitoring] and [updateConfig] will clear;
    while it is off none is.  A session that ends with [stopMonitoring]
    leaves no timer behind. *)
Theorem session_keeps_one_timer (calls : list Call) (w : World) :
  one_timer w ->
  one_timer (session E calls w)
  /\ intervals (browser (session E (calls ++ [StopMonitoring]) w)) = ∅
  /\ isMonitoring (fm (session E (calls ++ [StopMonitoring]) w)) = false.
Proof.
  intros Hw.
  assert (Hall : forall calls, one_timer (session E calls w)).
  { intros cs. apply (session_invariant one_timer (fun _ => true)); [|by induction cs|done].
    intros c _. apply call_one_timer. }
  split; [apply Hall|].
  specialize (Hall calls). rewrite session_snoc. simpl.
  rewrite stopMonitoring_run. cbn [snd].
  destruct Hall as [_ Hcase].
  destruct (isMonitoring (fm (session E calls w))).
  - destruct Hcase as (h & period & Hp & Hh & Hi). rewrite Hp.
    destruct h as [|h]; [lia|]. cbn. split; [|done].
    rewrite Hi. apply delete_singleton_eq.
  - destruct Hcase as [Hp Hi]. rewrite Hp. by cbn.
Qed.

End Sessions.

Lemma session_keeps_one_timer_witness :
  let E0 := Fixtures.parked_fleet [Fixtures.truck] Fixtures.one_drop
              (fun _ => Fixtures.noon) in
  let calls :=
    [StartMonitoring; StartMonitoring;
     UpdateConfig {| NewConfig.dropThreshold := None;
                     NewConfig.timeWindowMinutes := None;
                     NewConfig.pollIntervalSeconds := Some 60 |}] in
  intervals (browser (session E0 calls page0)) = {[ 2%nat := 60000 ]}
  /\ one_timer (session E0 calls page0)
  /\ intervals (browser (session E0 (calls ++ [StopMonitoring]) page0)) = ∅
  /\ isMonitoring (fm (session E0 (calls ++ [StopMonitoring]) page0)) = false.
Proof.
  split; [by vm_compute|].
  apply (session_keeps_one_timer
           (Fixtures.parked_fleet [Fixtures.truck] Fixtures.one_drop
              (fun _ => Fixtures.noon))).
  split; [simpl; lia | done].
Defined.


Section SessionInvariants.
Variable E : Env.

(** *** The numbering of the alerts *)

Lemma numbered_NoDup (w : World) :
  numbered w -> NoDup (Alert.id <$> alerts (am w)).
Proof.
  intros (_ & Hs & _). induction Hs as [|a l Hl IH Ha]; [constructor|].
  rewrite fmap_cons. constructor; [|exact IH].
  intros (b & Hid & Hb)%list_elem_of_fmap.
  apply (proj1 (Forall_forall _ _) Ha) in Hb. lia.
Qed.

Section Closure.
Context (I : World -> Prop) (cfg : Config.t).
Hypothesis I_side : forall w w', sink_side w' = sink_side w -> I w -> I w'.
Hypothesis I_cfg : forall w, I w -> config (fm w) = cfg.
Hypothesis I_add : forall d, holds_through I (AlertManager.addAlert E d).

Lemma sink_frame {A} (m : M A) : keeps sink_side m -> holds_through I m.
Proof. apply through_keeps. exact I_side. Qed.

Lemma tick_closure : holds_through I (FuelMonitor.pollForFuelData E).
Proof.
  apply (pollForFuelData_through E I cfg I_side I_cfg). intros d _. apply I_add.
Qed.

Lemma analysis_closure (fromDate toDate : Z) :
  holds_through I
    (FuelMonitor.analyzeHistoricalData E fromDate toDate (Some FuelMonitor.recording)).
Proof.
  intros w Hw.
  pose proof (analyzeHistoricalData_counted E (fun _ => I) cfg
                (fun _ => I_side) (fun _ => I_cfg)
                (fun _ d w0 _ Hw0 => I_add d w0 Hw0)
                (Some FuelMonitor.recording)) as Hrun.
  specialize (Hrun (fun message percent w0 =>
                      ltac:(by destruct w0 as [? ? []])) fromDate toDate w Hw).
  destruct (FuelMonitor.analyzeHistoricalData E fromDate toDate _ w) as [[n|e] w1];
    [exact Hrun | by destruct Hrun].
Qed.

Lemma start_closure : holds_through I (Lifecycle.startMonitoring E).
Proof.
  unfold Lifecycle.startMonitoring.
  apply through_bind; [apply through_gets|]. intros [|]; [apply through_ret|].
  apply through_try_catch; [|intros _; apply through_ret].
  apply through_bind; [apply sink_frame, loadVehicles_side|]. intros _.
  apply through_bind.
  { apply sink_frame. by intros [? [] ?]. }
  intros _. apply through_bind; [apply tick_closure|]. intros _.
  apply through_bind; [apply through_gets|]. intros c.
  apply through_bind.
  { apply sink_frame. by intros [? ? []]. }
  intros h. apply sink_frame. by intros [? [] ?].
Qed.

End Closure.

Lemma updateConfig_alert_store (newConfig : NewConfig.t) :
  keeps alert_store (FuelMonitor.updateConfig newConfig).
Proof.
  intros w. rewrite updateConfig_run. cbn [snd]. cbv zeta.
  unfold alert_store.
  destruct (FuelMonitor.wants_reschedule _ _); cbn; by rewrite lookup_insert_ne.
Qed.

Lemma saveSettings_alert_store (form : Main.Form) :
  keeps alert_store (Main.saveSettings form).
Proof.
  unfold Main.saveSettings.
  assert (Hset : keeps alert_store
            (Runtime.localStorage_setItem "fuelMonitorSettings"
               (StoredSettings (Main.soundEnabled form)
                  (Main.browserNotifications form)))).
  { intros w. unfold alert_store. cbn. by rewrite lookup_insert_ne. }
  frame; solve [ by intros [? ? []] | apply updateConfig_alert_store | apply Hset ].
Qed.

Lemma call_numbered (c : Call) : holds_through numbered (call E c).
Proof.
  assert (Hstore : forall A (m : M A), keeps alert_store m -> holds_through numbered m).
  { intros A m. apply through_keeps. intros w w'. apply numbered_store. }
  assert (Hclosed : forall A (m : M A),
            (forall cfg, holds_through (fun w => numbered w /\ config (fm w) = cfg) m) ->
            holds_through numbered m).
  { intros A m Hm w Hw. by apply (Hm (config (fm w)) w). }
  assert (Hside : forall cfg w w', sink_side w' = sink_side w ->
            numbered w /\ config (fm w) = cfg -> numbered w' /\ config (fm w') = cfg).
  { intros cfg w w' Heq [Hn Hc]. split; [by apply (numbered_side w)|].
    unfold sink_side in Heq. by injection Heq as _ _ ->. }
  assert (Hadd : forall cfg d,
            holds_through (fun w => numbered w /\ config (fm w) = cfg)
              (AlertManager.addAlert E d)).
  { intros cfg d w [Hn Hc]. split; [by apply addAlert_numbered|].
    pose proof (addAlert_controls E d w) as (_ & _ & _ & _ & Hk & _)%controls_inv.
    by rewrite Hk. }
  destruct c; simpl.
  - apply through_bind; [apply addAlert_numbered | intros _; apply through_ret].
  - apply dismissAlert_numbered.
  - apply clearAlerts_numbered.
  - apply loadAlerts_numbered.
  - apply Hstore. intros w. unfold Lifecycle.init. rewrite loadConfig_run. cbn [snd].
    by destruct (localStorage (browser w) !! "fuelMonitorConfig") as [[]|].
  - apply Hclosed. intros cfg.
    apply (start_closure _ cfg (Hside cfg) (fun w H => proj2 H) (Hadd cfg)).
  - apply Hstore. intros w. rewrite stopMonitoring_run. cbn [snd].
    by destruct (Lifecycle.truthy_handle _).
  - apply Hclosed. intros cfg.
    apply (tick_closure _ cfg (Hside cfg) (fun w H => proj2 H) (Hadd cfg)).
  - apply Hstore, updateConfig_alert_store.
  - apply Hstore, saveSettings_alert_store.
  - apply through_bind; [|intros _; apply through_ret].
    apply Hclosed. intros cfg.
    apply (analysis_closure _ cfg (Hside cfg) (fun w H => proj2 H) (Hadd cfg)).
Qed.

(** X16. Through every session the alerts stay numbered: newest first with
    strictly falling ids, so no two alerts of the list share an id; every
    id is positive and at most the counter, so the next id is fresh; and
    the stored copy is the 100 newest alerts of the list. *)
Theorem session_keeps_alerts_numbered (calls : list Call) (w : World) :
  numbered w ->
  numbered (session E calls w)
  /\ NoDup (Alert.id <$> alerts (am (session E calls w))).
Proof.
  intros Hw.
  assert (H : numbered (session E calls w)).
  { apply (session_invariant E numbered (fun _ => true)); [|by induction calls|done].
    intros c _. apply call_numbered. }
  split; [exact H | by apply numbered_NoDup].
Qed.

End SessionInvariants.

Lemma session_keeps_alerts_numbered_witness :
  let E0 := Fixtures.parked_fleet [Fixtures.truck] Fixtures.one_drop
              (Fixtures.stepping_clock 2 Fixtures.noon (Fixtures.minutes 6)) in
  let calls :=
    [AddAlert (Fixtures.drop_of "b1"); AddAlert (Fixtures.drop_of "b1");
     DismissAlert 1; AnalyzeHistoricalData Fixtures.past Fixtures.noon] in
  (Alert.id <$> alerts (am (session E0 calls page0))) = [2]
  /\ numbered (session E0 calls page0)
  /\ NoDup (Alert.id <$> alerts (am (session E0 calls page0))).
Proof.
  split; [by vm_compute|].
  apply (session_keeps_alerts_numbered
           (Fixtures.parked_fleet [Fixtures.truck] Fixtures.one_drop
              (Fixtures.stepping_clock 2 Fixtures.noon (Fixtures.minutes 6)))).
  split; [done|]. split; [constructor|]. split; [constructor|]. done.
Defined.

(** ** The settings form and the configuration *)

Section Settings.
Variable E : Env.

Lemma valid_inside (x : option Z) (lo hi : Z) :
  Main.invalid x lo hi = false -> exists v, x = Some v /\ lo <= v <= hi.
Proof.
  unfold Main.invalid. destruct x as [v|]; [|done].
  intros [H1 H2]%orb_false_iff.
  apply bool_decide_eq_false in H1, H2. exists v. split; [done | lia].
Qed.

Lemma inside_valid (v lo hi : Z) :
  lo <= v <= hi -> Main.invalid (Some v) lo hi = false.
Proof.
  intros H. unfold Main.invalid. apply orb_false_iff.
  split; apply bool_decide_eq_false; lia.
Qed.

(** The state [saveSettings] ends in when the form is valid. *)
Lemma saveSettings_run (form : Main.Form) (t tw p : Z) (w : World) :
  Main.threshold form = Some t -> Main.timeWindow form = Some tw ->
  Main.pollInterval form = Some p ->
  1 <= t <= 50 -> 5 <= tw <= 120 -> 10 <= p <= 300 ->
  Main.saveSettings form w
  = (Ok tt,
     with_browser (set_settingsModalActive false)
       (with_browser (fun b =>
            set_localStorage
              (<["fuelMonitorSettings" :=
                   StoredSettings (Main.soundEnabled form)
                     (Main.browserNotifications form)]> (localStorage b)) b)
          (FuelMonitor.updateConfig
             {| NewConfig.dropThreshold := Some t;
                NewConfig.timeWindowMinutes := Some tw;
                NewConfig.pollIntervalSeconds := Some p |} w).2)).
Proof.
  intros Ht Htw Hp H1 H2 H3. unfold Main.saveSettings.
  rewrite Ht, Htw, Hp, !inside_valid by done.
  unfold bind at 1. by rewrite updateConfig_run.
Qed.

(** The configuration a valid form leaves. *)
Lemma saveSettings_valid_config (form : Main.Form) (t tw p : Z) (w : World) :
  Main.threshold form = Some t -> Main.timeWindow form = Some tw ->
  Main.pollInterval form = Some p ->
  1 <= t <= 50 -> 5 <= tw <= 120 -> 10 <= p <= 300 ->
  let c := {| Config.dropThreshold := t; Config.timeWindowMinutes := tw;
              Config.pollIntervalSeconds := p |} in
  config (fm (Main.saveSettings form w).2) = c
  /\ localStorage (browser (Main.saveSettings form w).2) !! "fuelMonitorConfig"
     = Some (StoredConfig c).
Proof.
  intros Ht Htw Hp H1 H2 H3.
  rewrite (saveSettings_run form t tw p w Ht Htw Hp H1 H2 H3).
  rewrite updateConfig_run. cbn [snd]. cbv zeta.
  destruct (FuelMonitor.wants_reschedule _ _); cbn;
    by rewrite lookup_insert_ne, lookup_insert_eq.
Qed.

(** X13. A form whose three values are within the ranges is applied in
    full: the three values become the configuration and its stored copy,
    the two notification switches are stored, the dialog is closed and no
    message is shown; the alerts are not touched.  While monitoring is on,
    the timer whose handle is held is cleared and a new one is started
    with the new period, so polling goes on at the new interval with one
    timer; while it is off, no timer is started. *)
Theorem saveSettings_applies_valid_form (form : Main.Form) (t tw p : Z) (w : World) :
  Main.threshold form = Some t -> Main.timeWindow form = Some tw ->
  Main.pollInterval form = Some p ->
  1 <= t <= 50 -> 5 <= tw <= 120 -> 10 <= p <= 300 ->
  exists w',
    Main.saveSettings form w = (Ok tt, w')
    /\ config (fm w')
       = {| Config.dropThreshold := t; Config.timeWindowMinutes := tw;
            Config.pollIntervalSeconds := p |}
    /\ localStorage (browser w') !! "fuelMonitorConfig"
       = Some (StoredConfig (config (fm w')))
    /\ localStorage (browser w') !! "fuelMonitorSettings"
       = Some (StoredSettings (Main.soundEnabled form) (Main.browserNotifications form))
    /\ settingsModalActive (browser w') = false
    /\ dialogs (browser w') = dialogs (browser w)
    /\ alert_store w' = alert_store w
    /\ isMonitoring (fm w') = isMonitoring (fm w)
    /\ if isMonitoring (fm w) then
         pollInterval (fm w') = Some (nextInterval (browser w))
         /\ intervals (browser w')
            = <[nextInterval (browser w) := p * 1000]>
                (match pollInterval (fm w) with
                 | Some h => delete h (intervals (browser w))
                 | None => intervals (browser w)
                 end)
       else
         pollInterval (fm w') = pollInterval (fm w)
         /\ intervals (browser w') = intervals (browser w).
Proof.
  intros Ht Htw Hp H1 H2 H3.
  rewrite (saveSettings_run form t tw p w Ht Htw Hp H1 H2 H3).
  eexists. split; [reflexivity|].
  rewrite updateConfig_run. cbn [snd]. cbv zeta.
  assert (Htruthy : JS.truthy_Z p = true).
  { unfold JS.truthy_Z. destruct p; try done; lia. }
  unfold FuelMonitor.wants_reschedule, alert_store.
  cbn [NewConfig.pollIntervalSeconds]. rewrite Htruthy, andb_true_r.
  destruct (isMonitoring (fm w)) eqn:Hm; cbn;
    rewrite ?lookup_insert_eq, ?Hm;
    rewrite !lookup_insert_ne by done; rewrite ?lookup_insert_eq;
    repeat split; try done; by rewrite !lookup_insert_ne.
Qed.

Lemma configured_controls (w w' : World) :
  controls w' = controls w -> configured w -> configured w'.
Proof.
  intros (_ & _ & _ & _ & Hc & Hs)%controls_inv. unfold configured.
  by rewrite Hc, Hs.
Qed.

Lemma call_configured (c : Call) :
  through_page c = true -> holds_through configured (call E c).
Proof.
  assert (Hframe : forall A (m : M A), keeps controls m -> holds_through configured m).
  { intros A m. apply through_keeps. intros w w'. apply configured_controls. }
  destruct c; simpl; intros Hpage; try discriminate.
  - apply through_bind; [apply Hframe, addAlert_controls | intros _; apply through_ret].
  - apply Hframe, dismissAlert_controls.
  - apply Hframe, clearAlerts_controls.
  - apply Hframe, loadAlerts_controls.
  - intros w Hw. unfold Lifecycle.init. rewrite loadConfig_run. cbn [snd].
    destruct (localStorage (browser w) !! "fuelMonitorConfig") as [[c| |]|] eqn:Hl;
      try exact Hw.
    destruct Hw as [Hc Hs].
    split; [by apply Hs|]. exact Hs.
  - intros w Hw. destruct (isMonitoring (fm w)) eqn:Hm.
    { by rewrite startMonitoring_idle. }
    destruct (startMonitoring_outcome E w Hm) as (w1 & -> & Hout). cbn [snd].
    destruct (Get_Device E _ _); try by apply (configured_controls w).
    destruct Hout as (_ & _ & _ & _ & Hc & Hs). unfold configured.
    by rewrite Hc, Hs.
  - intros w Hw. rewrite stopMonitoring_run. cbn [snd].
    by destruct (Lifecycle.truthy_handle _).
  - apply Hframe, pollForFuelData_controls.
  - intros w Hw. unfold Main.saveSettings.
    assert (Hdialog : forall text, configured (Runtime.window_alert text w).2).
    { intros text. exact Hw. }
    destruct (Main.invalid (Main.threshold form) 1 50) eqn:H1; [apply Hdialog|].
    destruct (Main.invalid (Main.timeWindow form) 5 120) eqn:H2; [apply Hdialog|].
    destruct (Main.invalid (Main.pollInterval form) 10 300) eqn:H3; [apply Hdialog|].
    apply valid_inside in H1 as (t & Ht & H1), H2 as (tw & Htw & H2),
      H3 as (p & Hp & H3).
    destruct (saveSettings_valid_config form t tw p w Ht Htw Hp H1 H2 H3) as [Hc Hs].
    unfold Main.saveSettings in Hc, Hs.
    rewrite Ht, Htw, Hp, !inside_valid in Hc, Hs by done.
    rewrite Ht, Htw, Hp. unfold configured. rewrite Hs, Hc.
    split; [done|]. by intros c [= <-].
  - apply through_bind; [apply Hframe, analyzeHistoricalData_controls
                        | intros _; apply through_ret].
Qed.

(** X14. Through the page the configuration cannot leave the ranges of the
    settings form.  When the configuration in force and the stored one
    are within the ranges (threshold 1..50, window 5..120 minutes, polling
    interval 10..300 seconds), they still are after any session that makes
    no direct call of [updateConfig]: the form is the only way in, and it
    checks. *)
Theorem session_keeps_configuration_in_range (calls : list Call) (w : World) :
  forallb through_page calls = true ->
  configured w ->
  configured (session E calls w).
Proof.
  intros Hpage Hw.
  apply (session_invariant E configured through_page); [|done..].
  apply call_configured.
Qed.

End Settings.

Lemma saveSettings_applies_valid_form_witness :
  let form := {| Main.threshold := Some 15; Main.timeWindow := Some 45;
                 Main.pollInterval := Some 60; Main.soundEnabled := true;
                 Main.browserNotifications := false |} in
  let E0 := Fixtures.parked_fleet [Fixtures.truck] Fixtures.one_drop
              (fun _ => Fixtures.noon) in
  let w := session E0 [StartMonitoring] page0 in
  exists w',
    Main.saveSettings form w = (Ok tt, w')
    /\ config (fm w')
       = {| Config.dropThreshold := 15; Config.timeWindowMinutes := 45;
            Config.pollIntervalSeconds := 60 |}
    /\ localStorage (browser w') !! "fuelMonitorConfig"
       = Some (StoredConfig (config (fm w')))
    /\ localStorage (browser w') !! "fuelMonitorSettings"
       = Some (StoredSettings true false)
    /\ settingsModalActive (browser w') = false
    /\ dialogs (browser w') = dialogs (browser w)
    /\ alert_store w' = alert_store w
    /\ isMonitoring (fm w') = isMonitoring (fm w)
    /\ if isMonitoring (fm w) then
         pollInterval (fm w') = Some (nextInterval (browser w))
         /\ intervals (browser w')
            = <[nextInterval (browser w) := 60 * 1000]>
                (match pollInterval (fm w) with
                 | Some h => delete h (intervals (browser w))
                 | None => intervals (browser w)
                 end)
       else
         pollInterval (fm w') = pollInterval (fm w)
         /\ intervals (browser w') = intervals (browser w).
Proof.
  intros form E0 w.
  apply (saveSettings_applies_valid_form form 15 45 60 w); try reflexivity; lia.
Defined.


Lemma session_keeps_configuration_in_range_witness :
  let E0 := Fixtures.parked_fleet [Fixtures.truck] Fixtures.one_drop
              (fun _ => Fixtures.noon) in
  let calls :=
    [Init; StartMonitoring;
     SaveSettings {| Main.threshold := Some 0; Main.timeWindow := Some 45;
                     Main.pollInterval := Some 60; Main.soundEnabled := true;
                     Main.browserNotifications := false |};
     SaveSettings {| Main.threshold := Some 15; Main.timeWindow := Some 45;
                     Main.pollInterval := Some 60; Main.soundEnabled := true;
                     Main.browserNotifications := false |};
     Tick] in
  config (fm (session E0 calls page0))
  = {| Config.dropThreshold := 15; Config.timeWindowMinutes := 45;
       Config.pollIntervalSeconds := 60 |}
  /\ configured (session E0 calls page0).
Proof.
  split; [by vm_compute|].
  apply (session_keeps_configuration_in_range
           (Fixtures.parked_fleet [Fixtures.truck] Fixtures.one_drop
              (fun _ => Fixtures.noon))); [reflexivity|].
  split; [by vm_compute|]. intros c. by vm_compute.
Defined.

(** ** Dismissing, clearing, reloading *)

Section AlertList.
Variable E : Env.

Lemma filter_all (P : Alert.t -> Prop) `{!forall a, Decision (P a)} (l : list Alert.t) :
  Forall P l -> filter P l = l.
Proof.
  induction 1 as [|a l Ha Hl IH]; [done|].
  rewrite filter_cons. destruct (decide (P a)); [by rewrite IH | done].
Qed.

(** X17. Dismissing removes the alert with the given id and nothing else.
    With the alerts numbered, the list after [dismissAlert (id a)] is the
    list without [a], in the same order; dismissing an id that is not in
    the list leaves the list as it is.  Either way the stored copy is the
    100 newest of what remains, the counter keeps its value (the id is
    not handed out again) and the cooldowns are not touched. *)
Theorem dismissAlert_removes_that_alert (w : World) :
  numbered w ->
  (forall before a after,
      alerts (am w) = before ++ a :: after ->
      alerts (am (AlertStore.dismissAlert (Alert.id a) w).2) = before ++ after)
  /\ (forall alertId,
        alertId ∉ (Alert.id <$> alerts (am w)) ->
        alerts (am (AlertStore.dismissAlert alertId w).2) = alerts (am w))
  /\ (forall alertId,
        let w' := (AlertStore.dismissAlert alertId w).2 in
        localStorage (browser w') !! "fuelMonitorAlerts"
          = Some (StoredAlerts (take 100 (alerts (am w'))))
        /\ alertIdCounter (am w') = alertIdCounter (am w)
        /\ recentAlerts (am w') = recentAlerts (am w)
        /\ fm w' = fm w).
Proof.
  intros Hw. split; [|split].
  - intros before a after Hl. rewrite dismissAlert_run. cbn. rewrite Hl.
    pose proof (numbered_NoDup w Hw) as Hnd. rewrite Hl, fmap_app, fmap_cons in Hnd.
    apply NoDup_app in Hnd as (Hb & Hdisj & Ha).
    apply NoDup_cons in Ha as [Ha _].
    rewrite filter_app, filter_cons_False by (intros H; by apply H).
    rewrite !filter_all; [done| |].
    + apply Forall_forall. intros b Hb' Heq. apply Ha.
      apply list_elem_of_fmap. by exists b.
    + apply Forall_forall. intros b Hb' Heq. apply (Hdisj (Alert.id a)).
      * apply list_elem_of_fmap. by exists b.
      * by left.
  - intros alertId Hnot. rewrite dismissAlert_run. cbn.
    apply filter_all, Forall_forall. intros b Hb Heq. apply Hnot.
    apply list_elem_of_fmap. by exists b.
  - intros alertId. rewrite dismissAlert_run. cbn.
    by rewrite lookup_insert_eq.
Qed.

(** X18. [clearAlerts] empties the list and its stored copy and sets the
    counter back to 0, so the next alert taken gets id 1; it does not
    touch the cooldowns: an alert for a vehicle whose cooldown is running
    is refused after the clearing as it was before, and the list stays
    empty. *)
Theorem clearAlerts_keeps_cooldowns (d : AlertData.t) (w : World) :
  let w' := (AlertStore.clearAlerts w).2 in
  AlertStore.clearAlerts w = (Ok tt, w')
  /\ alerts (am w') = []
  /\ alertIdCounter (am w') = 0
  /\ localStorage (browser w') !! "fuelMonitorAlerts" = Some (StoredAlerts [])
  /\ recentAlerts (am w') = recentAlerts (am w)
  /\ (gate_closed E (AlertData.vehicleId d) w ->
      (AlertManager.addAlert E d w').1 = Ok false
      /\ alerts (am (AlertManager.addAlert E d w').2) = [])
  /\ (~ gate_closed E (AlertData.vehicleId d) w ->
      (AlertManager.addAlert E d w').1 = Ok true
      /\ (Alert.id <$> alerts (am (AlertManager.addAlert E d w').2)) = [1]).
Proof.
  cbv zeta. rewrite clearAlerts_run. cbn [snd].
  set (w' := with_am _ _).
  assert (Hgate : gate_closed E (AlertData.vehicleId d) w'
                  <-> gate_closed E (AlertData.vehicleId d) w).
  { unfold gate_closed, next_clock. by destruct w as [[] ? []]. }
  split; [done|]. split; [done|]. split; [done|].
  split; [subst w'; cbn; by rewrite lookup_insert_eq|]. split; [done|].
  split.
  - intros Hc%Hgate. by rewrite (addAlert_rejects E d w' Hc).
  - intros Ho. rewrite (addAlert_accepts E d w'); [done|]. by rewrite Hgate.
Qed.

(** X19. What a reload of the page brings back.  With the alerts numbered
    and saved, [loadAlerts] on the reloaded page restores the 100 newest
    alerts; the counter restarts at the id of the newest of them (0 when
    there is none), so the ids handed out after the reload are fresh in
    the restored list; and the cooldowns are gone: the first alert of any
    vehicle is taken. *)
Theorem reload_restores_newest_alerts (l : list Alert.t) (d : AlertData.t) (w : World) :
  numbered w ->
  localStorage (browser w) !! "fuelMonitorAlerts" = Some (StoredAlerts l) ->
  let w' := (AlertStore.loadAlerts (reloaded w)).2 in
  alerts (am w') = take 100 (alerts (am w))
  /\ alertIdCounter (am w')
     = match alerts (am w) with [] => 0 | a :: _ => Alert.id a end
  /\ numbered w'
  /\ recentAlerts (am w') = ∅
  /\ (AlertManager.addAlert E d w').1 = Ok true.
Proof.
  intros Hw Hl. cbv zeta. rewrite loadAlerts_run. cbn [snd].
  assert (Hr : localStorage (browser (reloaded w)) !! "fuelMonitorAlerts"
               = Some (StoredAlerts l)) by exact Hl.
  rewrite Hr.
  pose proof Hw as (H0 & Hs & Hb & Hst). specialize (Hst l Hl).
  assert (Hs' : StronglySorted (fun a b => Alert.id b < Alert.id a) l).
  { subst l. by apply falling_take. }
  assert (Hmax : AlertStore.max_id l
                 = match alerts (am w) with [] => 0 | a :: _ => Alert.id a end).
  { rewrite (max_id_falling l Hs'). subst l. by destruct (alerts (am w)). }
  set (w' := with_am _ _).
  assert (Hopen : ~ gate_closed E (AlertData.vehicleId d) w').
  { intros (t & Ht & _). subst w'. cbn in Ht. by rewrite lookup_empty in Ht. }
  split; [done|]. split; [exact Hmax|]. split; [|split; [done|]].
  - split; [|split; [exact Hs'|split]]; subst w'; cbn.
    + rewrite Hmax. destruct (alerts (am w)) as [|a rest]; [done|].
      apply Forall_cons in Hb as [Ha _]. lia.
    + apply Forall_forall. intros a Ha. split.
      * rewrite Hst in Ha. apply (subseteq_take 100) in Ha.
        apply (proj1 (Forall_forall _ _) Hb) in Ha. lia.
      * by apply (proj1 (Forall_forall _ _) (max_id_bound l)).
    + intros l'. rewrite Hl. intros [= <-]. by rewrite Hst, take_take.
  - by rewrite (addAlert_accepts E d w' Hopen).
Qed.

End AlertList.

Lemma page0_numbered : numbered page0.
Proof. split; [done|]. split; [constructor|]. split; [constructor|]. done. Qed.

Lemma dismissAlert_removes_that_alert_witness :
  let w := (AlertManager.addAlert (Fixtures.gap_env (Fixtures.minutes 6))
              (Fixtures.drop_of "b1") page0).2 in
  (Alert.id <$> alerts (am w)) = [1]
  /\ (forall before a after,
        alerts (am w) = before ++ a :: after ->
        alerts (am (AlertStore.dismissAlert (Alert.id a) w).2) = before ++ after)
  /\ (forall alertId,
        alertId ∉ (Alert.id <$> alerts (am w)) ->
        alerts (am (AlertStore.dismissAlert alertId w).2) = alerts (am w))
  /\ (forall alertId,
        let w' := (AlertStore.dismissAlert alertId w).2 in
        localStorage (browser w') !! "fuelMonitorAlerts"
          = Some (StoredAlerts (take 100 (alerts (am w'))))
        /\ alertIdCounter (am w') = alertIdCounter (am w)
        /\ recentAlerts (am w') = recentAlerts (am w)
        /\ fm w' = fm w).
Proof.
  split; [by vm_compute|].
  apply dismissAlert_removes_that_alert.
  apply addAlert_numbered, page0_numbered.
Defined.

Lemma reload_restores_newest_alerts_witness :
  let E0 := Fixtures.gap_env (Fixtures.minutes 6) in
  let w := (AlertManager.addAlert E0 (Fixtures.drop_of "b1") page0).2 in
  let w' := (AlertStore.loadAlerts (reloaded w)).2 in
  alerts (am w') = take 100 (alerts (am w))
  /\ alertIdCounter (am w')
     = match alerts (am w) with [] => 0 | a :: _ => Alert.id a end
  /\ numbered w'
  /\ recentAlerts (am w') = ∅
  /\ (AlertManager.addAlert E0 (Fixtures.drop_of "b1") w').1 = Ok true.
Proof.
  intros E0 w.
  apply (reload_restores_newest_alerts E0 (alerts (am w))).
  - apply addAlert_numbered, page0_numbered.
  - reflexivity.
Defined.

(** ** The stored configuration *)

(** X15. The configuration survives a reload.  [updateConfig] merges the
    given values into the configuration and stores the result; on the
    reloaded page [init] brings back exactly that configuration.  On a
    page with nothing stored, [init] leaves the defaults. *)
Theorem configuration_survives_reload (newConfig : NewConfig.t) (w : World) :
  config (fm (FuelMonitor.updateConfig newConfig w).2)
  = FuelMonitor.merge_config (config (fm w)) newConfig
  /\ config (fm (Lifecycle.init (reloaded (FuelMonitor.updateConfig newConfig w).2)).2)
     = config (fm (FuelMonitor.updateConfig newConfig w).2)
  /\ (localStorage (browser w) !! "fuelMonitorConfig" = None ->
      config (fm (Lifecycle.init (reloaded w)).2) = Config.default).
Proof.
  rewrite updateConfig_run. cbn [snd]. cbv zeta.
  split; [|split].
  - by destruct (FuelMonitor.wants_reschedule _ _).
  - unfold Lifecycle.init. rewrite loadConfig_run. cbn [snd].
    destruct (FuelMonitor.wants_reschedule _ _); cbn;
      by rewrite lookup_insert_eq.
  - intros Hnone. unfold Lifecycle.init. rewrite loadConfig_run. cbn [snd].
    assert (Hr : localStorage (browser (reloaded w)) !! "fuelMonitorConfig" = None)
      by exact Hnone.
    by rewrite Hr.
Qed.

(** ** Pruning and the detector *)

Section Pruning.
Import DropDetector FuelMonitor.

(** The detector looks at the readings of the window only. *)
Lemma detect_window (cfg : Config.t) (history history' : list Reading.t)
    (currentPoint : Reading.t) :
  let windowStart :=
    Reading.timestamp currentPoint - Config.timeWindowMinutes cfg * 60 * 1000 in
  filter (in_window windowStart currentPoint) history
  = filter (in_window windowStart currentPoint) history' ->
  detectSuspiciousDrop cfg history currentPoint
  = detectSuspiciousDrop cfg history' currentPoint.
Proof.
  cbv zeta. intros Heq. unfold detectSuspiciousDrop. cbv zeta. rewrite <- Heq.
  assert (Hempty : forall h : list Reading.t,
            bool_decide (length h = 0%nat) = true -> h = []).
  { intros [|? ?]; [done|]. by intros ?%bool_decide_eq_true. }
  destruct (bool_decide (length history = 0%nat)) eqn:H1;
    destruct (bool_decide (length history' = 0%nat)) eqn:H2; try done.
  - apply Hempty in H1. subst history. by rewrite filter_nil.
  - apply Hempty in H2. subst history'. rewrite filter_nil in Heq. by rewrite Heq.
Qed.

(** What [shift_while_older] takes off the front is older than the
    horizon. *)
Lemma shift_while_older_split (horizon : Z) (history : list Reading.t) :
  exists removed,
    history = removed ++ shift_while_older horizon history
    /\ Forall (fun r => Reading.timestamp r < horizon) removed.
Proof.
  induction history as [|h rest (removed & Heq & Hold)]; simpl.
  - by exists [].
  - case_bool_decide as Hh.
    + exists (h :: removed). split; [simpl; by rewrite <- Heq | by constructor].
    + by exists [].
Qed.

(** X9. The pruning of the historical replay hides nothing from the
    detector.  After the reading [p] the replay drops from the front of
    the history the readings older than two windows before [p]; for [p]
    and for every reading [q] that is not earlier than [p], whatever is
    appended in between, the detector gives the same answer on the pruned
    history as on the whole one. *)
Theorem replay_pruning_hides_nothing (cfg : Config.t)
    (history more : list Reading.t) (p q : Reading.t) :
  0 <= Config.timeWindowMinutes cfg ->
  Reading.timestamp p <= Reading.timestamp q ->
  detectSuspiciousDrop cfg
    (shift_while_older
       (Reading.timestamp p - Config.timeWindowMinutes cfg * 2 * 60 * 1000) history
     ++ more) q
  = detectSuspiciousDrop cfg (history ++ more) q.
Proof.
  intros Hwin Hpq. apply detect_window. cbv zeta.
  destruct (shift_while_older_split
              (Reading.timestamp p - Config.timeWindowMinutes cfg * 2 * 60 * 1000)
              history) as (removed & Heq & Hold).
  rewrite Heq at 2. rewrite <- app_assoc, (filter_app _ removed).
  replace (filter _ removed) with (@nil Reading.t); [done|].
  symmetry. clear Heq. induction Hold as [|r removed Hr Hold IH]; [done|].
  rewrite filter_cons_False; [exact IH|].
  intros [Hin _]. lia.
Qed.

Lemma replay_pruning_hides_nothing_witness :
  let p := Fixtures.reading (Fixtures.noon + Fixtures.minutes 70) 80 in
  let q := Fixtures.reading (Fixtures.noon + Fixtures.minutes 80) 60 in
  let history := [Fixtures.reading Fixtures.noon 90; p] in
  shift_while_older
    (Reading.timestamp p - Config.timeWindowMinutes Config.default * 2 * 60 * 1000)
    history = [p]
  /\ detectSuspiciousDrop Config.default
       (shift_while_older
          (Reading.timestamp p - Config.timeWindowMinutes Config.default * 2 * 60 * 1000)
          history ++ []) q
     = detectSuspiciousDrop Config.default (history ++ []) q.
Proof.
  split; [by vm_compute|].
  apply replay_pruning_hides_nothing; by vm_compute.
Defined.

End Pruning.

(** ** A delayed feed *)

Section DelayedFeed.
Import FuelMonitor.
Variable E : Env.

Lemma pruneHistory_at_stale (now : Z) (p : Reading.t) :
  Reading.timestamp p < now - 2 * 60 * 60 * 1000 -> pruneHistory_at now [p] = [].
Proof.
  intros H. unfold pruneHistory_at. simpl. by rewrite bool_decide_true.
Qed.

Lemma push_and_prune_state (deviceId : string) (currentPoint : Reading.t) (w : World) :
  (push_and_prune E deviceId currentPoint w).2
  = with_fm (set_fuelHistory
               (<[deviceId := pruneHistory_at (clock E (clockReads (browser w)))
                                (history_of deviceId w ++ [currentPoint])]>
                  (fuelHistory (fm w))))
      (after_reads 1 w).
Proof. by destruct w as [? [] []]. Qed.

Lemma no_history_store (deviceId : string) (w : World) :
  no_history w ->
  no_history (with_fm (set_fuelHistory (<[deviceId := []]> (fuelHistory (fm w)))) w).
Proof.
  intros Hw d. unfold history_of. cbn.
  destruct (decide (d = deviceId)) as [->|Hne].
  - by rewrite lookup_insert_eq.
  - rewrite lookup_insert_ne by done. apply Hw.
Qed.

Lemma analyzeVehicleFuelData_quiet (a : AlertManagerState) (net : list Request)
    (deviceId : string) (points : list Reading.t) :
  (forall p k, p ∈ points -> Reading.timestamp p < clock E k - 2 * 60 * 60 * 1000) ->
  holds_through (quiet a net) (analyzeVehicleFuelData E deviceId points).
Proof.
  intros Hstale. unfold analyzeVehicleFuelData.
  apply through_bind; [apply through_gets|]. intros known.
  apply through_bind.
  { destruct known; [apply through_ret|].
    intros w (Ha & Hh & Hn). split; [|split]; [by destruct w as [? [] ?]| |
      by destruct w as [? [] ?]].
    by apply no_history_store. }
  intros _. apply through_for_of_elem. intros p Hp.
  assert (Hp' : p ∈ points).
  { by rewrite <- (sort_by_perm Reading.timestamp points). }
  apply through_bind_gets2. intros w (Ha & Hh & Hn).
  rewrite (Hh deviceId).
  change (DropDetector.detectSuspiciousDrop (config (fm w)) [] p) with (@None Detection.t).
  unfold bind at 1, ret at 1. rewrite push_and_prune_state, (Hh deviceId).
  cbn [app]. rewrite pruneHistory_at_stale by (by apply Hstale).
  split; [|split].
  - by destruct w as [? [] []].
  - intros d. unfold history_of. cbn.
    destruct (decide (d = deviceId)) as [->|Hne].
    + by rewrite lookup_insert_eq.
    + rewrite lookup_insert_ne by done. apply Hh.
  - by destruct w as [? [] []].
Qed.

Lemma processFuelData_quiet (a : AlertManagerState) (net : list Request)
    (fuelDataPoints : list StatusData.t) :
  (forall p k, p ∈ fuelDataPoints ->
     StatusData.dateTime p < clock E k - 2 * 60 * 60 * 1000) ->
  holds_through (quiet a net) (processFuelData E fuelDataPoints).
Proof.
  intros Hstale. unfold processFuelData.
  destruct (group_by_device_grouped fuelDataPoints) as (_ & _ & Hgroups).
  apply through_for_of_elem. intros [deviceId points] Hentry.
  apply analyzeVehicleFuelData_quiet. intros p k Hp.
  rewrite (Hgroups deviceId points Hentry) in Hp.
  apply list_elem_of_fmap in Hp as (sd & -> & Hsd).
  apply list_elem_of_filter in Hsd as [_ Hsd]. by apply Hstale.
Qed.

(** X10. A feed that runs more than two hours late raises no alert.  When
    every reading of the answer was taken more than two hours before the
    wall clock and no window holds a reading, the tick takes the readings
    in and prunes each one away at once: no drop is detected, no ignition
    or trip query is made, the sink is not touched, and no window holds a
    reading afterwards, so the next such tick does the same. *)
Theorem delayed_feed_raises_no_alert (w : World) :
  no_history w ->
  feed_delayed E w ->
  am (pollForFuelData E w).2 = am w
  /\ no_history (pollForFuelData E w).2
  /\ network (browser (pollForFuelData E w).2)
     = network (browser w) ++ [ReqFeed (build_feedCall (feedToken (fm w)))].
Proof.
  intros Hh Hdelayed. rewrite pollForFuelData_state. cbv zeta.
  set (call := build_feedCall (feedToken (fm w))).
  unfold feed_delayed in Hdelayed.
  destruct (feed_answer E w) as [e|r].
  - destruct (mentions_version e); by destruct w as [? [] []].
  - set (w2 := with_fm (set_feedToken (FeedResult.toVersion r))
                 (logged (ReqFeed call) w)).
    assert (H2 : quiet (am w) (network (browser w) ++ [ReqFeed call]) w2).
    { split; [|split]; by destruct w as [? [] []]. }
    destruct (FeedResult.data r) as [[|p ps]|] eqn:Hdata; try exact H2.
    apply (processFuelData_quiet (am w) _ (p :: ps)); [|exact H2].
    intros p' k Hp'. by apply (Hdelayed r (p :: ps)).
Qed.

End DelayedFeed.

Lemma delayed_feed_raises_no_alert_witness :
  am (FuelMonitor.pollForFuelData day_old_feed page0).2 = am page0
  /\ no_history (FuelMonitor.pollForFuelData day_old_feed page0).2
  /\ network (browser (FuelMonitor.pollForFuelData day_old_feed page0).2)
     = network (browser page0)
       ++ [ReqFeed (FuelMonitor.build_feedCall (feedToken (fm page0)))].
Proof.
  apply delayed_feed_raises_no_alert.
  - intros deviceId. reflexivity.
  - intros r rows p k [= <-] [= <-] Hp.
    apply elem_of_cons in Hp as [->|Hp]; [by vm_compute|].
    apply list_elem_of_singleton in Hp as ->. by vm_compute.
Defined.

(** ** Starting *)

Section Starting.
Variable E : Env.

Lemma startMonitoring_failure (w : World) :
  isMonitoring (fm w) = false ->
  (forall devices,
     Get_Device E (length (network (browser w))) (next_clock E w) <> Rows devices) ->
  Lifecycle.startMonitoring E w
  = (Ok tt, logged (ReqDevice (next_clock E w)) (after_reads 1 w)).
Proof.
  intros Hoff Hfail. unfold Lifecycle.startMonitoring, bind at 1, gets at 1.
  rewrite Hoff. unfold try_catch, bind at 1.
  rewrite loadVehicles_run. cbv zeta.
  destruct (Get_Device E (length (network (browser w))) (next_clock E w))
    as [e| |devices]; try done.
  by destruct (Hfail devices).
Qed.

(** X11. [startMonitoring] starts everything or nothing, and never throws.
    While monitoring is on it does nothing at all.  While it is off: if
    the device query is rejected or resolves to [null], the error is
    swallowed, only the clock was read and the query logged: monitoring
    stays off, no poll is made and no timer is started; if the query
    resolves, monitoring is on, and one timer was started whose handle is
    held and whose period is the configured polling interval in
    milliseconds. *)
Theorem startMonitoring_all_or_nothing (w : World) :
  (isMonitoring (fm w) = true -> Lifecycle.startMonitoring E w = (Ok tt, w))
  /\ (isMonitoring (fm w) = false ->
      exists w1,
        Lifecycle.startMonitoring E w = (Ok tt, w1)
        /\ match Get_Device E (length (network (browser w))) (next_clock E w) with
           | Rows _ =>
               isMonitoring (fm w1) = true
               /\ pollInterval (fm w1) = Some (nextInterval (browser w))
               /\ intervals (browser w1)
                  = <[nextInterval (browser w) :=
                        Config.pollIntervalSeconds (config (fm w)) * 1000]>
                      (intervals (browser w))
               /\ config (fm w1) = config (fm w)
           | _ => w1 = logged (ReqDevice (next_clock E w)) (after_reads 1 w)
           end).
Proof.
  split; [apply startMonitoring_idle|].
  intros Hoff.
  destruct (Get_Device E (length (network (browser w))) (next_clock E w))
    as [e| |devices] eqn:Hq.
  - eexists. split; [|reflexivity].
    apply startMonitoring_failure; [done|]. intros devices. by rewrite Hq.
  - eexists. split; [|reflexivity].
    apply startMonitoring_failure; [done|]. intros devices. by rewrite Hq.
  - destruct (startMonitoring_outcome E w Hoff) as (w1 & Hrun & Hout).
    rewrite Hq in Hout. destruct Hout as (H1 & H2 & H3 & _ & H5 & _).
    by exists w1.
Qed.

End Starting.

(** ** A historical analysis without a registry *)

Section NoRegistry.
Variable E : Env.

(** X20. With no vehicle cached, the historical analysis first loads the
    registry, and a failure of that load is the one error it lets
    through: when the device query is rejected the analysis throws the
    error of the query (when it resolves to [null], the error of calling
    [forEach] on it), the progress callback was never called, no fuel query
    was made and nothing else changed: only the clock was read and the
    device query logged. *)
Theorem analyzeHistoricalData_needs_the_registry (fromDate toDate : Z)
    (progressCallback : option FuelMonitor.Callback) (w : World) :
  vehicleCache (fm w) = [] ->
  (forall e,
     Get_Device E (length (network (browser w))) (next_clock E w) = Rejects e ->
     FuelMonitor.analyzeHistoricalData E fromDate toDate progressCallback w
     = (Throw e, logged (ReqDevice (next_clock E w)) (after_reads 1 w)))
  /\ (Get_Device E (length (network (browser w))) (next_clock E w) = Null ->
      FuelMonitor.analyzeHistoricalData E fromDate toDate progressCallback w
      = (Throw {| Error.message :=
                    Some "Cannot read properties of null (reading 'forEach')" |},
         logged (ReqDevice (next_clock E w)) (after_reads 1 w))).
Proof.
  intros Hempty.
  split; [intros e Hq | intros Hq];
    unfold FuelMonitor.analyzeHistoricalData, try_catch, bind at 1, gets at 1;
    rewrite Hempty; cbn [length]; rewrite bool_decide_true by done;
    unfold bind at 1; rewrite loadVehicles_run; cbv zeta; by rewrite Hq.
Qed.

End NoRegistry.

Lemma analyzeHistoricalData_needs_the_registry_witness :
  FuelMonitor.analyzeHistoricalData offline Fixtures.past Fixtures.noon
    (Some FuelMonitor.recording) page0
  = (Throw {| Error.message := Some "Network request failed" |},
     logged (ReqDevice Fixtures.noon) (after_reads 1 page0)).
Proof.
  apply (analyzeHistoricalData_needs_the_registry offline Fixtures.past Fixtures.noon
           (Some FuelMonitor.recording) page0); reflexivity.
Defined.
